(** * Fabric Capacity Extension: the popup controller (src/popup.js)

    A shallow embedding of [FabricCapacityManager]: the token cache, the
    OAuth2 round trip, the API client with its 401 path, discovery and
    refresh of capacities, and the start / stop / resize operations.

    JavaScript strings are modelled by [string] (code units 0..255: tokens,
    URLs, decimal and hexadecimal numerals are ASCII), integral numbers by
    [Z] or [N], [null] and [undefined] by [None].

    The text of a log line is the source's, except where the source writes
    characters outside ASCII (a warning sign, an arrow, a ruled line) or
    prints an object with [JSON.stringify]: there the model writes an ASCII
    stand-in.  No property below depends on those texts. *)

From Stdlib Require Import ZArith NArith List String Ascii Bool Lia.
Import ListNotations.
Local Open Scope string_scope.
Set Warnings "-register-all".

(** ** String built-ins *)

Module JsString.

Definition chars (s : string) : list ascii := list_ascii_of_string s.

(** [s.charCodeAt(i)] for the characters of [s] in order. *)
Definition charCode (c : ascii) : Z := Z.of_N (N_of_ascii c).

(** [s.substr(-n)]: the last [n] code units (all of [s] when shorter). *)
Definition substr_last (n : nat) (s : string) : string :=
  substring (String.length s - n) n s.

(** [s.startsWith(p)]. *)
Definition startsWith (p s : string) : bool := prefix p s.

(** [s.includes(p)]. *)
Fixpoint includes (p s : string) : bool :=
  prefix p s ||
  match s with
  | EmptyString => false
  | String _ s' => includes p s'
  end.

(** [c.repeat(n)]. *)
Fixpoint repeat (c : ascii) (n : nat) : string :=
  match n with
  | O => EmptyString
  | S n' => String c (repeat c n')
  end.

(** [s.split(sep)] for a one-character separator: always at least one
    piece. *)
Fixpoint split (sep : ascii) (s : string) : list string :=
  match s with
  | EmptyString => [EmptyString]
  | String c s' =>
      if Ascii.eqb c sep then EmptyString :: split sep s'
      else match split sep s' with
           | [] => [String c EmptyString]
           | p :: ps => String c p :: ps
           end
  end.

(** [s.replace(/a/g, b)]. *)
Fixpoint replaceAll (a b : ascii) (s : string) : string :=
  match s with
  | EmptyString => EmptyString
  | String c s' => String (if Ascii.eqb c a then b else c) (replaceAll a b s')
  end.

(** JavaScript truthiness of a possibly missing string: [undefined],
    [null] and the empty string are falsy. *)
Definition truthy (v : option string) : bool :=
  match v with
  | Some (String _ _) => true
  | _ => false
  end.

(** [v || d] on a possibly missing string. *)
Definition orElse (v : option string) (d : string) : string :=
  match v with
  | Some (String c s) => String c s
  | _ => d
  end.

End JsString.

(** ** Numbers and their numerals *)

Module JsNumber.

(** The digit characters of [Number.prototype.toString(radix)]:
    [0-9] then [a-z]. *)
Definition digitChar (d : N) : ascii :=
  if (d <? 10)%N then ascii_of_N (48 + d) else ascii_of_N (87 + d).

Fixpoint toDigits (fuel : nat) (radix n : N) (acc : string) : string :=
  match fuel with
  | O => acc
  | S f =>
      let acc' := String (digitChar (n mod radix)) acc in
      if (n <? radix)%N then acc' else toDigits f radix (n / radix) acc'
  end.

(** [n.toString(radix)] for a non-negative integer [n]. *)
Definition N_toString (radix n : N) : string :=
  toDigits (S (N.to_nat (N.log2 n))) radix n EmptyString.

(** [z.toString()]. *)
Definition toString (z : Z) : string :=
  if (z <? 0)%Z then String "-" (N_toString 10 (Z.to_N (- z)))
  else N_toString 10 (Z.to_N z).

(** The value of a digit character in a radix up to 16, as [parseInt]
    reads it. *)
Definition digitValue (radix : N) (c : ascii) : option N :=
  let n := N_of_ascii c in
  let v := if ((48 <=? n) && (n <=? 57))%N then Some (n - 48)%N
           else if ((97 <=? n) && (n <=? 102))%N then Some (n - 87)%N
           else if ((65 <=? n) && (n <=? 70))%N then Some (n - 55)%N
           else None in
  match v with
  | Some d => if (d <? radix)%N then Some d else None
  | None => None
  end.

(** Reads the longest prefix of digits, most significant first. *)
Fixpoint readDigits (radix : N) (s : string) (acc : N) : N :=
  match s with
  | EmptyString => acc
  | String c s' =>
      match digitValue radix c with
      | Some d => readDigits radix s' (acc * radix + d)
      | None => acc
      end
  end.

Definition startsWithDigit (radix : N) (s : string) : bool :=
  match s with
  | String c _ => match digitValue radix c with Some _ => true | None => false end
  | EmptyString => false
  end.

(** White space that [parseInt] skips (the 8-bit part of it). *)
Definition isWhite (c : ascii) : bool :=
  let n := N_of_ascii c in
  ((9 <=? n) && (n <=? 13) || (n =? 32) || (n =? 160))%N.

Fixpoint skipWhite (s : string) : string :=
  match s with
  | String c s' => if isWhite c then skipWhite s' else s
  | EmptyString => s
  end.

Definition unsignedInt (s : string) : option Z :=
  match s with
  | String "0" (String x s') =>
      if (Ascii.eqb x "x" || Ascii.eqb x "X")%bool then
        if startsWithDigit 16 s' then Some (Z.of_N (readDigits 16 s' 0)) else None
      else Some (Z.of_N (readDigits 10 s 0))
  | _ => if startsWithDigit 10 s then Some (Z.of_N (readDigits 10 s 0)) else None
  end.

(** [parseInt(s)] with no radix argument; [None] is [NaN]. *)
Definition parseInt (s : string) : option Z :=
  match skipWhite s with
  | String "-" s' => option_map Z.opp (unsignedInt s')
  | String "+" s' => unsignedInt s'
  | s' => unsignedInt s'
  end.

(** [ToInt32]: what the bitwise operators make of an integer. *)
Definition toInt32 (z : Z) : Z := ((z + 2 ^ 31) mod 2 ^ 32 - 2 ^ 31)%Z.

(** [x << k] on an int32. *)
Definition shl (x : Z) (k : Z) : Z := toInt32 (Z.shiftl x k).

(** [x & y] on integers. *)
Definition band (x y : Z) : Z := Z.land (toInt32 x) (toInt32 y).

End JsNumber.

(** ** Anti-forgery state and token fingerprint *)

(** [generateState]: the body after [crypto.getRandomValues(array)], as a
    function of the four words drawn. *)
Definition stateChunk (dec : N) : string :=
  JsString.substr_last 2 ("0" ++ JsNumber.N_toString 16 dec).

Definition generateState_of (array : list N) : string :=
  String.concat "" (map stateChunk array).

(** [generateTokenHash]. *)
Definition hashStep (hash : Z) (c : ascii) : Z :=
  let char := JsString.charCode c in
  let hash := (JsNumber.shl hash 5 - hash + char)%Z in
  JsNumber.band hash hash.

Definition generateTokenHash (token : string) : string :=
  if (String.length token =? 0)%nat then JsNumber.toString 0
  else
    JsNumber.toString
      (Z.abs (fold_left hashStep
                (firstn (Nat.min (String.length token) 100) (JsString.chars token)) 0%Z)).

(** ** JSON values, base64 *)

Inductive Json : Type :=
| JNull
| JBool (b : bool)
| JNum (z : Z)
| JStr (s : string)
| JArr (items : list Json)
| JObj (fields : list (string * Json)).

Module JsValue.

(** [j.key] on a non-null value: [None] is [undefined]. *)
Definition field (key : string) (j : Json) : option Json :=
  match j with
  | JObj fields =>
      match find (fun kv => String.eqb (fst kv) key) fields with
      | Some kv => Some (snd kv)
      | None => None
      end
  | _ => None
  end.

(** [j?.key] on a possibly missing value. *)
Definition optField (key : string) (j : option Json) : option Json :=
  match j with
  | Some JNull | None => None
  | Some j => field key j
  end.

(** A property read as a string.  The payloads of the control plane and
    the claims of a token carry strings in the properties the popup
    reads; a value of another JSON type is read as missing. *)
Definition asString (j : option Json) : option string :=
  match j with
  | Some (JStr s) => Some s
  | _ => None
  end.

(** [`${v}`] for a possibly missing string. *)
Definition show (v : option string) : string :=
  match v with
  | Some s => s
  | None => "undefined"
  end.

Definition truthy (j : option Json) : bool :=
  match j with
  | None | Some JNull | Some (JBool false) | Some (JStr EmptyString) => false
  | Some (JNum z) => negb (z =? 0)%Z
  | Some _ => true
  end.

(** [a || b]. *)
Definition orElse (a b : option Json) : option Json :=
  if truthy a then a else b.

End JsValue.

Module Base64.

Definition value (c : ascii) : option N :=
  let n := N_of_ascii c in
  if ((65 <=? n) && (n <=? 90))%N then Some (n - 65)%N
  else if ((97 <=? n) && (n <=? 122))%N then Some (n - 71)%N
  else if ((48 <=? n) && (n <=? 57))%N then Some (n + 4)%N
  else if (n =? 43)%N then Some 62%N
  else if (n =? 47)%N then Some 63%N
  else None.

Fixpoint values (l : list ascii) : option (list N) :=
  match l with
  | [] => Some []
  | c :: l' =>
      match value c, values l' with
      | Some v, Some vs => Some (v :: vs)
      | _, _ => None
      end
  end.

Definition byte (n : N) : ascii := ascii_of_N (n mod 256).

Fixpoint decodeGroups (l : list N) : list ascii :=
  match l with
  | a :: b :: c :: d :: rest =>
      let n := (a * 262144 + b * 4096 + c * 64 + d)%N in
      byte (n / 65536) :: byte (n / 256) :: byte n :: decodeGroups rest
  | [a; b; c] =>
      let n := (a * 1024 + b * 16 + c / 4)%N in
      [byte (n / 256); byte n]
  | [a; b] => [byte (a * 4 + b / 16)]
  | _ => []
  end.

Definition isSpace (c : ascii) : bool :=
  let n := N_of_ascii c in
  ((n =? 9) || (n =? 10) || (n =? 12) || (n =? 13) || (n =? 32))%N.

Definition stripPadding (l : list ascii) : list ascii :=
  if (List.length l mod 4 =? 0)%nat then
    match rev l with
    | "="%char :: "="%char :: r => rev r
    | "="%char :: r => rev r
    | _ => l
    end
  else l.

(** [atob(data)]: [None] is the [InvalidCharacterError] it throws. *)
Definition atob (data : string) : option string :=
  let l := stripPadding (filter (fun c => negb (isSpace c)) (JsString.chars data)) in
  if (List.length l mod 4 =? 1)%nat then None
  else match values l with
       | Some vs => Some (string_of_list_ascii (decodeGroups vs))
       | None => None
       end.

End Base64.

(** ** The manager, the popup's elements and the browser around them *)

Record JsError := mkError { message : string }.

Record Capacity := {
  cap_id : option string;
  cap_name : option string;
  cap_state : option string;          (* properties?.state *)
  cap_sku : option string;            (* sku?.name *)
  cap_subscriptionId : string;
  cap_displayName : string
}.

Record Sku := { sku_name : string; sku_displayName : string; sku_description : string }.

Record SessionInfo := {
  cachedAt : Z;
  tenantId : option Json;
  userPrincipalName : option Json;
  tokenHash : string
}.

(** [chrome.storage.local], the three keys of the credential. *)
Record Storage := {
  st_accessToken : option string;
  st_tokenExpiry : option string;
  st_sessionInfo : option SessionInfo
}.

Record OptionEl := {
  opt_value : string;
  opt_text : string;
  opt_disabled : bool;
  opt_className : string
}.

(** A drop-down: its options in tree order and the index of the selected
    one. *)
Record SelectEl := {
  sel_options : list OptionEl;
  sel_selected : option nat;
  sel_disabled : bool
}.

Inductive LogLine := Line (stamped : bool) (text : string).

(** Callbacks handed to [setTimeout]. *)
Inductive TimerTask :=
| BackgroundTokenRefresh (cachedToken : string)
| RefreshAfterOperation
| RefreshAfterSkuUpdate.

(** The fields of [FabricCapacityManager] that are not elements. *)
Record Manager := {
  accessToken : option string;
  capacities : list Capacity;
  debugMode : bool;
  initialLoadComplete : bool;
  availableSkus : list Sku
}.

(** The elements bound by [initializeElements]. *)
Record Dom := {
  logArea : option (list LogLine);
  capacitySelect : SelectEl;
  skuSelect : SelectEl;
  startButton_disabled : bool;
  stopButton_disabled : bool;
  refreshButton_disabled : bool;
  updateSkuButton_disabled : bool;
  loadingIndicator_display : string;
  skuContainer_display : string;
  tenantInfo_display : string;
  tenantInfo_textContent : string;
  authWarning : bool
}.

(** What the browser supplies: storage, clock, randomness, the user's
    answers to [confirm], pending timers, and the engine built-ins this
    development does not define ([JSON.parse] yields [None] where it throws
    a [SyntaxError]). *)
Record Browser := {
  storage : Storage;
  storage_lastError : option string;
  now : Z;
  entropy : list N;
  confirms : list bool;
  timers : list (Z * TimerTask);
  redirectURL : string;                          (* chrome.identity.getRedirectURL() *)
  JSON_parse : string -> option Json;
  encodeURIComponent : string -> string;
  decodeURIComponent : string -> option string   (* None: URIError *)
}.

Record World := { mgr : Manager; dom : Dom; browser : Browser }.

(** Field updates. *)

Definition upd_mgr (f : Manager -> Manager) (w : World) : World :=
  {| mgr := f (mgr w); dom := dom w; browser := browser w |}.
Definition upd_dom (f : Dom -> Dom) (w : World) : World :=
  {| mgr := mgr w; dom := f (dom w); browser := browser w |}.
Definition upd_browser (f : Browser -> Browser) (w : World) : World :=
  {| mgr := mgr w; dom := dom w; browser := f (browser w) |}.

Definition set_accessToken (v : option string) (m : Manager) : Manager :=
  {| accessToken := v; capacities := capacities m; debugMode := debugMode m;
     initialLoadComplete := initialLoadComplete m; availableSkus := availableSkus m |}.
Definition set_capacities (v : list Capacity) (m : Manager) : Manager :=
  {| accessToken := accessToken m; capacities := v; debugMode := debugMode m;
     initialLoadComplete := initialLoadComplete m; availableSkus := availableSkus m |}.
Definition set_initialLoadComplete (v : bool) (m : Manager) : Manager :=
  {| accessToken := accessToken m; capacities := capacities m; debugMode := debugMode m;
     initialLoadComplete := v; availableSkus := availableSkus m |}.
Definition set_availableSkus (v : list Sku) (m : Manager) : Manager :=
  {| accessToken := accessToken m; capacities := capacities m; debugMode := debugMode m;
     initialLoadComplete := initialLoadComplete m; availableSkus := v |}.

Definition set_logArea (v : option (list LogLine)) (d : Dom) : Dom :=
  {| logArea := v; capacitySelect := capacitySelect d; skuSelect := skuSelect d;
     startButton_disabled := startButton_disabled d; stopButton_disabled := stopButton_disabled d;
     refreshButton_disabled := refreshButton_disabled d;
     updateSkuButton_disabled := updateSkuButton_disabled d;
     loadingIndicator_display := loadingIndicator_display d;
     skuContainer_display := skuContainer_display d;
     tenantInfo_display := tenantInfo_display d;
     tenantInfo_textContent := tenantInfo_textContent d; authWarning := authWarning d |}.
Definition set_capacitySelect (v : SelectEl) (d : Dom) : Dom :=
  {| logArea := logArea d; capacitySelect := v; skuSelect := skuSelect d;
     startButton_disabled := startButton_disabled d; stopButton_disabled := stopButton_disabled d;
     refreshButton_disabled := refreshButton_disabled d;
     updateSkuButton_disabled := updateSkuButton_disabled d;
     loadingIndicator_display := loadingIndicator_display d;
     skuContainer_display := skuContainer_display d;
     tenantInfo_display := tenantInfo_display d;
     tenantInfo_textContent := tenantInfo_textContent d; authWarning := authWarning d |}.
Definition set_skuSelect (v : SelectEl) (d : Dom) : Dom :=
  {| logArea := logArea d; capacitySelect := capacitySelect d; skuSelect := v;
     startButton_disabled := startButton_disabled d; stopButton_disabled := stopButton_disabled d;
     refreshButton_disabled := refreshButton_disabled d;
     updateSkuButton_disabled := updateSkuButton_disabled d;
     loadingIndicator_display := loadingIndicator_display d;
     skuContainer_display := skuContainer_display d;
     tenantInfo_display := tenantInfo_display d;
     tenantInfo_textContent := tenantInfo_textContent d; authWarning := authWarning d |}.
Definition set_startButton_disabled (v : bool) (d : Dom) : Dom :=
  {| logArea := logArea d; capacitySelect := capacitySelect d; skuSelect := skuSelect d;
     startButton_disabled := v; stopButton_disabled := stopButton_disabled d;
     refreshButton_disabled := refreshButton_disabled d;
     updateSkuButton_disabled := updateSkuButton_disabled d;
     loadingIndicator_display := loadingIndicator_display d;
     skuContainer_display := skuContainer_display d;
     tenantInfo_display := tenantInfo_display d;
     tenantInfo_textContent := tenantInfo_textContent d; authWarning := authWarning d |}.
Definition set_stopButton_disabled (v : bool) (d : Dom) : Dom :=
  {| logArea := logArea d; capacitySelect := capacitySelect d; skuSelect := skuSelect d;
     startButton_disabled := startButton_disabled d; stopButton_disabled := v;
     refreshButton_disabled := refreshButton_disabled d;
     updateSkuButton_disabled := updateSkuButton_disabled d;
     loadingIndicator_display := loadingIndicator_display d;
     skuContainer_display := skuContainer_display d;
     tenantInfo_display := tenantInfo_display d;
     tenantInfo_textContent := tenantInfo_textContent d; authWarning := authWarning d |}.
Definition set_refreshButton_disabled (v : bool) (d : Dom) : Dom :=
  {| logArea := logArea d; capacitySelect := capacitySelect d; skuSelect := skuSelect d;
     startButton_disabled := startButton_disabled d; stopButton_disabled := stopButton_disabled d;
     refreshButton_disabled := v;
     updateSkuButton_disabled := updateSkuButton_disabled d;
     loadingIndicator_display := loadingIndicator_display d;
     skuContainer_display := skuContainer_display d;
     tenantInfo_display := tenantInfo_display d;
     tenantInfo_textContent := tenantInfo_textContent d; authWarning := authWarning d |}.
Definition set_updateSkuButton_disabled (v : bool) (d : Dom) : Dom :=
  {| logArea := logArea d; capacitySelect := capacitySelect d; skuSelect := skuSelect d;
     startButton_disabled := startButton_disabled d; stopButton_disabled := stopButton_disabled d;
     refreshButton_disabled := refreshButton_disabled d;
     updateSkuButton_disabled := v;
     loadingIndicator_display := loadingIndicator_display d;
     skuContainer_display := skuContainer_display d;
     tenantInfo_display := tenantInfo_display d;
     tenantInfo_textContent := tenantInfo_textContent d; authWarning := authWarning d |}.
Definition set_loadingIndicator_display (v : string) (d : Dom) : Dom :=
  {| logArea := logArea d; capacitySelect := capacitySelect d; skuSelect := skuSelect d;
     startButton_disabled := startButton_disabled d; stopButton_disabled := stopButton_disabled d;
     refreshButton_disabled := refreshButton_disabled d;
     updateSkuButton_disabled := updateSkuButton_disabled d;
     loadingIndicator_display := v;
     skuContainer_display := skuContainer_display d;
     tenantInfo_display := tenantInfo_display d;
     tenantInfo_textContent := tenantInfo_textContent d; authWarning := authWarning d |}.
Definition set_skuContainer_display (v : string) (d : Dom) : Dom :=
  {| logArea := logArea d; capacitySelect := capacitySelect d; skuSelect := skuSelect d;
     startButton_disabled := startButton_disabled d; stopButton_disabled := stopButton_disabled d;
     refreshButton_disabled := refreshButton_disabled d;
     updateSkuButton_disabled := updateSkuButton_disabled d;
     loadingIndicator_display := loadingIndicator_display d;
     skuContainer_display := v;
     tenantInfo_display := tenantInfo_display d;
     tenantInfo_textContent := tenantInfo_textContent d; authWarning := authWarning d |}.
Definition set_tenantInfo (display textContent : string) (d : Dom) : Dom :=
  {| logArea := logArea d; capacitySelect := capacitySelect d; skuSelect := skuSelect d;
     startButton_disabled := startButton_disabled d; stopButton_disabled := stopButton_disabled d;
     refreshButton_disabled := refreshButton_disabled d;
     updateSkuButton_disabled := updateSkuButton_disabled d;
     loadingIndicator_display := loadingIndicator_display d;
     skuContainer_display := skuContainer_display d;
     tenantInfo_display := display;
     tenantInfo_textContent := textContent; authWarning := authWarning d |}.
Definition set_authWarning (v : bool) (d : Dom) : Dom :=
  {| logArea := logArea d; capacitySelect := capacitySelect d; skuSelect := skuSelect d;
     startButton_disabled := startButton_disabled d; stopButton_disabled := stopButton_disabled d;
     refreshButton_disabled := refreshButton_disabled d;
     updateSkuButton_disabled := updateSkuButton_disabled d;
     loadingIndicator_display := loadingIndicator_display d;
     skuContainer_display := skuContainer_display d;
     tenantInfo_display := tenantInfo_display d;
     tenantInfo_textContent := tenantInfo_textContent d; authWarning := v |}.

Definition set_storage (v : Storage) (b : Browser) : Browser :=
  {| storage := v; storage_lastError := storage_lastError b; now := now b;
     entropy := entropy b; confirms := confirms b; timers := timers b;
     redirectURL := redirectURL b; JSON_parse := JSON_parse b;
     encodeURIComponent := encodeURIComponent b; decodeURIComponent := decodeURIComponent b |}.
Definition set_entropy (v : list N) (b : Browser) : Browser :=
  {| storage := storage b; storage_lastError := storage_lastError b; now := now b;
     entropy := v; confirms := confirms b; timers := timers b;
     redirectURL := redirectURL b; JSON_parse := JSON_parse b;
     encodeURIComponent := encodeURIComponent b; decodeURIComponent := decodeURIComponent b |}.
Definition set_confirms (v : list bool) (b : Browser) : Browser :=
  {| storage := storage b; storage_lastError := storage_lastError b; now := now b;
     entropy := entropy b; confirms := v; timers := timers b;
     redirectURL := redirectURL b; JSON_parse := JSON_parse b;
     encodeURIComponent := encodeURIComponent b; decodeURIComponent := decodeURIComponent b |}.
Definition set_timers (v : list (Z * TimerTask)) (b : Browser) : Browser :=
  {| storage := storage b; storage_lastError := storage_lastError b; now := now b;
     entropy := entropy b; confirms := confirms b; timers := v;
     redirectURL := redirectURL b; JSON_parse := JSON_parse b;
     encodeURIComponent := encodeURIComponent b; decodeURIComponent := decodeURIComponent b |}.

(** ** Asynchronous code

    An [async] function is a resumption: it runs on the current world up to
    its next suspension at the network or at the identity provider, and is
    resumed there with the reply and with the world as it is by then.  A
    promise that is never settled is the outcome [Hang].  A call that is not
    awaited is a [Spawn]: the callee runs up to its first suspension, then
    the caller goes on. *)

Inductive Outcome (A : Type) : Type :=
| Ok (a : A)
| Throw (e : JsError)
| Hang.
Arguments Ok {A} a.
Arguments Throw {A} e.
Arguments Hang {A}.

Record FetchRequest := {
  rq_url : string;
  rq_method : string;
  rq_authorization : string;
  rq_body : option Json
}.

Record Response := { status : Z; statusText : string; text : string }.

(** [response.ok]. *)
Definition ok (r : Response) : bool := ((200 <=? status r) && (status r <=? 299))%Z.

Inductive FetchReply :=
| Responded (r : Response)
| FetchFailed (e : JsError).

Record AuthRequest := { auth_url : string; auth_interactive : bool }.

(** The URL handed to the callback of [launchWebAuthFlow], with the pairs
    that [new URLSearchParams(new URL(u).hash.substring(1))] makes of it
    ([None]: [new URL(u)] throws). *)
Record ResponseUrl := {
  href : string;
  fragmentParams : option (list (string * string))
}.

Record AuthReply := {
  lastError : option JsError;            (* chrome.runtime.lastError *)
  responseUrl : option ResponseUrl
}.

Inductive Step (A : Type) : Type :=
| Done (o : Outcome A) (w : World)
| AwaitFetch (rq : FetchRequest) (w : World) (k : FetchReply -> World -> Step A)
| AwaitAuth (rq : AuthRequest) (w : World) (k : AuthReply -> World -> Step A)
| Spawn (child : Step unit) (k : World -> Step A).
Arguments Done {A} o w.
Arguments AwaitFetch {A} rq w k.
Arguments AwaitAuth {A} rq w k.
Arguments Spawn {A} child k.

Definition Async (A : Type) : Type := World -> Step A.

Definition ret {A} (a : A) : Async A := fun w => Done (Ok a) w.
Definition throw {A} (e : JsError) : Async A := fun w => Done (Throw e) w.
Definition hang {A} : Async A := fun w => Done Hang w.
Definition get : Async World := fun w => Done (Ok w) w.
Definition modify (f : World -> World) : Async unit := fun w => Done (Ok tt) (f w).

Fixpoint bindStep {A B} (s : Step A) (f : A -> Async B) : Step B :=
  match s with
  | Done (Ok a) w => f a w
  | Done (Throw e) w => Done (Throw e) w
  | Done Hang w => Done Hang w
  | AwaitFetch rq w k => AwaitFetch rq w (fun r w' => bindStep (k r w') f)
  | AwaitAuth rq w k => AwaitAuth rq w (fun r w' => bindStep (k r w') f)
  | Spawn c k => Spawn c (fun w' => bindStep (k w') f)
  end.

Definition bind {A B} (m : Async A) (f : A -> Async B) : Async B :=
  fun w => bindStep (m w) f.

(** [try { m } catch (error) { h error }]. *)
Fixpoint catchStep {A} (s : Step A) (h : JsError -> Async A) : Step A :=
  match s with
  | Done (Throw e) w => h e w
  | Done o w => Done o w
  | AwaitFetch rq w k => AwaitFetch rq w (fun r w' => catchStep (k r w') h)
  | AwaitAuth rq w k => AwaitAuth rq w (fun r w' => catchStep (k r w') h)
  | Spawn c k => Spawn c (fun w' => catchStep (k w') h)
  end.

Definition tryCatch {A} (m : Async A) (h : JsError -> Async A) : Async A :=
  fun w => catchStep (m w) h.

(** [try { m } finally { fin }]: [fin] runs after [m] returned or threw and
    the completion of [m] stands unless [fin] itself throws. *)
Fixpoint finallyStep {A} (s : Step A) (fin : Async unit) : Step A :=
  match s with
  | Done (Ok a) w => bindStep (fin w) (fun _ => ret a)
  | Done (Throw e) w => bindStep (fin w) (fun _ => throw e)
  | Done Hang w => Done Hang w
  | AwaitFetch rq w k => AwaitFetch rq w (fun r w' => finallyStep (k r w') fin)
  | AwaitAuth rq w k => AwaitAuth rq w (fun r w' => finallyStep (k r w') fin)
  | Spawn c k => Spawn c (fun w' => finallyStep (k w') fin)
  end.

Definition tryFinally {A} (m : Async A) (fin : Async unit) : Async A :=
  fun w => finallyStep (m w) fin.

Declare Scope async_scope.
Delimit Scope async_scope with async.
Notation "x <- m ;; k" := (bind m (fun x => k))
  (at level 61, m at next level, right associativity) : async_scope.
Notation "m ;; k" := (bind m (fun _ => k))
  (at level 61, right associativity) : async_scope.
Local Open Scope async_scope.

(** [await fetch(url, options)]: a network failure rejects. *)
Definition fetch (rq : FetchRequest) : Async Response :=
  fun w => AwaitFetch rq w (fun r w' =>
    match r with
    | Responded resp => Done (Ok resp) w'
    | FetchFailed e => Done (Throw e) w'
    end).

(** [chrome.identity.launchWebAuthFlow(details, callback)], resumed with
    what the callback sees. *)
Definition launchWebAuthFlow (rq : AuthRequest) : Async AuthReply :=
  fun w => AwaitAuth rq w (fun r w' => Done (Ok r) w').

(** A call of an [async] function whose promise is dropped. *)
Definition spawn (child : Async unit) : Async unit :=
  fun w => Spawn (child w) (fun w' => Done (Ok tt) w').

Definition when (b : bool) (m : Async unit) : Async unit :=
  if b then m else ret tt.

(** [for (const x of xs) { body x }]. *)
Fixpoint forOf {X} (xs : list X) (body : X -> Async unit) : Async unit :=
  match xs with
  | [] => ret tt
  | x :: xs' => body x ;; forOf xs' body
  end.

(** *** Running one call to completion

    The replies of the network and of the identity provider are scripted in
    the order in which the call awaits them; a request with no reply left
    never completes.  The requests issued are recorded in order. *)

Record Script := { fetchReplies : list FetchReply; authReplies : list AuthReply }.

Inductive Issued :=
| IssuedFetch (rq : FetchRequest)
| IssuedAuth (rq : AuthRequest).

(** A spawned call up to its first suspension. *)
Fixpoint firstPhase {A : Type} (s : Step A) : World * list Issued :=
  match s with
  | Done _ w => (w, [])
  | AwaitFetch rq w _ => (w, [IssuedFetch rq])
  | AwaitAuth rq w _ => (w, [IssuedAuth rq])
  | Spawn c k =>
      let (w1, t1) := firstPhase c in
      let (w2, t2) := firstPhase (k w1) in
      (w2, (t1 ++ t2)%list)
  end.

Record Run (A : Type) := {
  outcome : Outcome A;
  final : World;
  rest : Script;
  issued : list Issued
}.
Arguments outcome {A} r.
Arguments final {A} r.
Arguments rest {A} r.
Arguments issued {A} r.

Definition sent {A} (i : Issued) (r : Run A) : Run A :=
  {| outcome := outcome r; final := final r; rest := rest r; issued := i :: issued r |}.

Fixpoint run {A : Type} (s : Step A) (sc : Script) : Run A :=
  match s with
  | Done o w => {| outcome := o; final := w; rest := sc; issued := [] |}
  | AwaitFetch rq w k =>
      match fetchReplies sc with
      | r :: rs =>
          sent (IssuedFetch rq)
            (run (k r w) {| fetchReplies := rs; authReplies := authReplies sc |})
      | [] => {| outcome := Hang; final := w; rest := sc; issued := [IssuedFetch rq] |}
      end
  | AwaitAuth rq w k =>
      match authReplies sc with
      | r :: rs =>
          sent (IssuedAuth rq)
            (run (k r w) {| fetchReplies := fetchReplies sc; authReplies := rs |})
      | [] => {| outcome := Hang; final := w; rest := sc; issued := [IssuedAuth rq] |}
      end
  | Spawn c k =>
      let (w1, t1) := firstPhase c in
      let r := run (k w1) sc in
      {| outcome := outcome r; final := final r; rest := rest r;
         issued := (t1 ++ issued r)%list |}
  end.

(** A promise built by [new Promise((resolve, reject) => ...)] around a
    callback: the callback resolves or rejects it; an exception that
    escapes the callback settles nothing. *)
Inductive Settled (A : Type) : Type :=
| Resolve (a : A)
| Reject (e : JsError).
Arguments Resolve {A} a.
Arguments Reject {A} e.

Definition settle {A} (m : Async (Settled A)) : Async A :=
  fun w =>
    bindStep (catchStep (m w) (fun _ => hang))
      (fun s => match s with
                | Resolve a => ret a
                | Reject e => throw e
                end).

(** ** Logging *)

Definition typeError_null : JsError :=
  mkError "Cannot read properties of null (reading 'value')".

(** [if (this.logArea) this.logArea.value += line]. *)
Definition addLine (l : LogLine) (area : option (list LogLine)) : option (list LogLine) :=
  option_map (fun ls => (ls ++ [l])%list) area.

Definition appendLine (l : LogLine) (w : World) : World :=
  upd_dom (fun d => set_logArea (addLine l (logArea d)) d) w.

(** [log]: guarded by its own [try] and by the test of [logArea]. *)
Definition log (message : string) : Async unit :=
  modify (appendLine (Line false message)).

(** [debugLog]: silent unless debug mode is on, and then it writes to
    [logArea] unguarded. *)
Definition debugLog (message : string) : Async unit :=
  fun w =>
    if debugMode (mgr w) then
      match logArea (dom w) with
      | Some _ => Done (Ok tt) (appendLine (Line true message) w)
      | None => Done (Throw typeError_null) w
      end
    else Done (Ok tt) w.

(** [error.message || error]. *)
Definition errorText (e : JsError) : string :=
  JsString.orElse (Some (message e)) "Error".

Definition logError (msg : string) (error : option JsError) : Async unit :=
  modify (appendLine (Line true
    ("ERROR: " ++ msg ++
     match error with
     | Some e => " - " ++ errorText e
     | None => ""
     end))).

Definition logSuccess (msg : string) : Async unit :=
  fun w =>
    match logArea (dom w) with
    | Some _ => Done (Ok tt) (appendLine (Line true ("SUCCESS: " ++ msg)) w)
    | None => Done (Throw typeError_null) w
    end.

Definition showLoading (show : bool) : Async unit :=
  modify (upd_dom (set_loadingIndicator_display (if show then "block" else "none"))).

(** ** Token lifecycle *)

(** [decodeJwtToken]; [JNull] is the [null] it returns. *)
Definition decodeJwtToken (token : string) : Async Json :=
  tryCatch
    (let parts := JsString.split "." token in
     if negb (List.length parts =? 3)%nat then
       debugLog "Invalid JWT token format" ;; ret JNull
     else
       let payload := nth 1 parts "" in
       let paddedPayload :=
         payload ++ JsString.repeat "=" ((4 - String.length payload mod 4) mod 4) in
       match Base64.atob
               (JsString.replaceAll "_" "/" (JsString.replaceAll "-" "+" paddedPayload)) with
       | None => throw (mkError "The string to be decoded is not correctly encoded.")
       | Some decodedPayload =>
           w <- get ;;
           match JSON_parse (browser w) decodedPayload with
           | Some j => ret j
           | None => throw (mkError "Unexpected token in JSON")
           end
       end)
    (fun error =>
       debugLog ("Failed to decode JWT token: " ++ message error) ;; ret JNull).

(** [generateState]: draws four 32-bit words. *)
Definition generateState : Async string :=
  fun w =>
    let pool := entropy (browser w) in
    let array := map (fun i => (nth i pool 0 mod 2 ^ 32)%N) [0; 1; 2; 3]%nat in
    Done (Ok (generateState_of array)) (upd_browser (set_entropy (skipn 4 pool)) w).

Definition showNumber (z : option Z) : string :=
  match z with
  | Some z => JsNumber.toString z
  | None => "NaN"
  end.

(** [getCachedToken] of src/popup.js: the whole body is the callback of
    [chrome.storage.local.get]. *)
Definition getCachedToken : Async (option string) :=
  settle
    (w <- get ;;
     match storage_lastError (browser w) with
     | Some msg => debugLog ("Failed to get cached token: " ++ msg) ;; ret (Resolve None)
     | None =>
         let st := storage (browser w) in
         let sessionInfo := st_sessionInfo st in
         match st_accessToken st, st_tokenExpiry st with
         | Some (String _ _ as accessToken), Some (String _ _ as tokenExpiry) =>
             let intact :=
               match sessionInfo with
               | Some si => String.eqb (tokenHash si) (generateTokenHash accessToken)
               | None => true
               end in
             if negb intact then
               debugLog "Cached token integrity check failed" ;; ret (Resolve None)
             else
               let now := now (browser w) in
               let expiryTime := JsNumber.parseInt tokenExpiry in
               let bufferTime := (2 * 60 * 1000)%Z in
               let timeUntilExpiryMinutes :=
                 option_map (fun e => ((e - now) / (60 * 1000))%Z) expiryTime in
               let expired :=
                 match expiryTime with
                 | Some e => (now >=? e - bufferTime)%Z
                 | None => false            (* a comparison with NaN *)
                 end in
               if expired then
                 debugLog ("Cached token is expired or will expire soon (" ++
                           showNumber timeUntilExpiryMinutes ++ " minutes remaining)") ;;
                 ret (Resolve None)
               else
                 debugLog
                   (match sessionInfo with
                    | Some si =>
                        "Found valid cached token (expires in " ++
                        showNumber timeUntilExpiryMinutes ++ " minutes, session age: " ++
                        JsNumber.toString ((now - cachedAt si) / (60 * 1000)) ++ " minutes)"
                    | None =>
                        "Found valid cached token (expires in " ++
                        showNumber timeUntilExpiryMinutes ++ " minutes)"
                    end) ;;
                 ret (Resolve (Some accessToken))
         | _, _ => debugLog "No cached token found" ;; ret (Resolve None)
         end
     end).

Module Legacy.

(** [getCachedToken] of the earlier revision (src/unnamed/part_002): no
    fingerprint, five-minute buffer. *)
Definition getCachedToken : Async (option string) :=
  settle
    (w <- get ;;
     match storage_lastError (browser w) with
     | Some msg => debugLog ("Failed to get cached token: " ++ msg) ;; ret (Resolve None)
     | None =>
         let st := storage (browser w) in
         match st_accessToken st, st_tokenExpiry st with
         | Some (String _ _ as accessToken), Some (String _ _ as tokenExpiry) =>
             let now := now (browser w) in
             let expiryTime := JsNumber.parseInt tokenExpiry in
             let bufferTime := (5 * 60 * 1000)%Z in
             let expired :=
               match expiryTime with
               | Some e => (now >=? e - bufferTime)%Z
               | None => false
               end in
             if expired then
               debugLog "Cached token is expired" ;; ret (Resolve None)
             else
               debugLog "Found valid cached token" ;; ret (Resolve (Some accessToken))
         | _, _ => debugLog "No cached token found" ;; ret (Resolve None)
         end
     end).

End Legacy.

Definition baseUrl : string := "https://management.azure.com".
Definition graphUrl : string := "https://graph.microsoft.com".
Definition subscriptionApiVersion : string := "2022-12-01".
Definition fabricApiVersion : string := "2023-11-01".
Definition scopes : list string :=
  ["https://management.core.windows.net/user_impersonation";
   "https://graph.microsoft.com/User.Read";
   "offline_access"].

Definition orStr (a b : option string) : option string :=
  if JsString.truthy a then a else b.

(** [clearCachedAuth]: the body is the callback of
    [chrome.storage.local.remove]. *)
Definition clearCachedAuth : Async unit :=
  settle
    (modify (fun w =>
       match storage_lastError (browser w) with
       | None =>
           upd_browser (set_storage
             {| st_accessToken := None; st_tokenExpiry := None; st_sessionInfo := None |}) w
       | Some _ => w
       end) ;;
     debugLog "Cached authentication data cleared" ;;
     modify (upd_dom (set_tenantInfo "none" "")) ;;
     ret (Resolve tt)).

(** [cacheToken]. *)
Definition cacheToken (token : string) (expiresInSeconds : option Z) : Async unit :=
  let expirySeconds :=
    match expiresInSeconds with
    | Some z => if (z =? 0)%Z then 3600%Z else z
    | None => 3600%Z
    end in
  w <- get ;;
  let expiryTime := (now (browser w) + expirySeconds * 1000)%Z in
  tokenData <- decodeJwtToken token ;;
  w <- get ;;
  let sessionInfo :=
    {| cachedAt := now (browser w);
       tenantId := JsValue.optField "tid" (Some tokenData);
       userPrincipalName :=
         JsValue.orElse (JsValue.optField "upn" (Some tokenData))
                        (JsValue.optField "unique_name" (Some tokenData));
       tokenHash := generateTokenHash token |} in
  debugLog ("Caching token with expiry in " ++ JsNumber.toString expirySeconds ++ " seconds") ;;
  settle
    (w <- get ;;
     match storage_lastError (browser w) with
     | Some msg => debugLog ("Failed to cache token: " ++ msg)
     | None =>
         modify (upd_browser (set_storage
           {| st_accessToken := Some token;
              st_tokenExpiry := Some (JsNumber.toString expiryTime);
              st_sessionInfo := Some sessionInfo |})) ;;
         debugLog "Token cached successfully with session info"
     end ;;
     ret (Resolve tt)).

Record TokenInfo := {
  ti_accessToken : string;
  ti_expiresIn : option Z;
  ti_tokenType : option string
}.

(** [params.get(key)]. *)
Definition paramsGet (key : string) (params : list (string * string)) : option string :=
  match find (fun kv => String.eqb (fst kv) key) params with
  | Some kv => Some (snd kv)
  | None => None
  end.

Definition sameString (a : option string) (b : string) : bool :=
  match a with
  | Some a => String.eqb a b
  | None => false
  end.

Definition csrfError : JsError :=
  mkError "State parameter mismatch - possible CSRF attack".

(** [extractTokenFromUrl]. *)
Definition extractTokenFromUrl (responseUrl : ResponseUrl) (expectedState : string)
    : Async TokenInfo :=
  match fragmentParams responseUrl with
  | None => throw (mkError "Invalid URL")
  | Some params =>
      let state := paramsGet "state" params in
      if negb (sameString state expectedState) then throw csrfError
      else
        match paramsGet "error" params with
        | Some (String _ _ as error) =>
            let errorDescription :=
              JsString.orElse (paramsGet "error_description" params) "Unknown error" in
            w <- get ;;
            match decodeURIComponent (browser w) errorDescription with
            | Some d => throw (mkError ("OAuth2 error: " ++ error ++ " - " ++ d))
            | None => throw (mkError "URI malformed")
            end
        | _ =>
            match paramsGet "access_token" params with
            | Some (String _ _ as accessToken) =>
                let expiresIn := paramsGet "expires_in" params in
                let tokenType := paramsGet "token_type" params in
                debugLog ("Token type: " ++ JsValue.show tokenType ++ ", expires in: " ++
                          JsValue.show expiresIn ++ " seconds") ;;
                ret {| ti_accessToken := accessToken;
                       ti_expiresIn :=
                         match expiresIn with
                         | Some (String _ _ as e) => JsNumber.parseInt e
                         | _ => Some 3600%Z
                         end;
                       ti_tokenType := tokenType |}
            | _ => throw (mkError "No access token found in OAuth2 response")
            end
        end
  end.

Definition authorizeUrl (w : World) (scopeString state prompt : string) : string :=
  "https://login.microsoftonline.com/common/oauth2/v2.0/authorize" ++
  "?client_id=b2f9922d-47b3-45de-be16-72911e143fa4" ++
  "&response_type=token" ++
  "&redirect_uri=" ++ encodeURIComponent (browser w) (redirectURL (browser w)) ++
  "&scope=" ++ encodeURIComponent (browser w) scopeString ++
  "&state=" ++ state ++
  "&response_mode=fragment" ++
  "&prompt=" ++ prompt.

(** [attemptOAuth2WithScope]. *)
Definition attemptOAuth2WithScope (scopeString : string) : Async TokenInfo :=
  state <- generateState ;;
  w <- get ;;
  let authUrl := authorizeUrl w scopeString state "select_account" in
  debugLog ("Attempting OAuth2 flow with scope: " ++ scopeString) ;;
  debugLog ("Auth URL: " ++ authUrl) ;;
  debugLog ("Redirect URI: " ++ redirectURL (browser w)) ;;
  reply <- launchWebAuthFlow {| auth_url := authUrl; auth_interactive := true |} ;;
  settle
    (match lastError reply with
     | Some e => logError "OAuth2 flow failed" (Some e) ;; ret (Reject e)
     | None =>
         match responseUrl reply with
         | None =>
             let error := mkError "No response URL received from OAuth2 flow" in
             logError "OAuth2 flow failed" (Some error) ;; ret (Reject error)
         | Some url =>
             debugLog ("OAuth2 response URL: " ++ href url) ;;
             tryCatch
               (tokenInfo <- extractTokenFromUrl url state ;; ret (Resolve tokenInfo))
               (fun error =>
                  logError "Failed to extract token from response" (Some error) ;;
                  ret (Reject error))
         end
     end).

(** [attemptSilentAuthWithScope]. *)
Definition attemptSilentAuthWithScope (scopeString : string) : Async TokenInfo :=
  state <- generateState ;;
  w <- get ;;
  let authUrl := authorizeUrl w scopeString state "none" in
  debugLog ("Attempting silent auth with scope: " ++ scopeString) ;;
  reply <- launchWebAuthFlow {| auth_url := authUrl; auth_interactive := false |} ;;
  settle
    (match lastError reply with
     | Some e =>
         debugLog ("Silent auth failed: " ++ message e) ;;
         ret (Reject (mkError (message e)))
     | None =>
         match responseUrl reply with
         | None =>
             debugLog "No response URL from silent auth" ;;
             ret (Reject (mkError "No response URL from silent auth"))
         | Some url =>
             tryCatch
               (tokenInfo <- extractTokenFromUrl url state ;; ret (Resolve tokenInfo))
               (fun error =>
                  debugLog ("Failed to extract token from silent auth response: " ++
                            message error) ;;
                  ret (Reject error))
         end
     end).

(** [performSilentAuth]; [None] is the [null] it returns. *)
Definition performSilentAuth : Async (option TokenInfo) :=
  tryCatch
    (tokenInfo <- attemptSilentAuthWithScope (nth 0 scopes "") ;; ret (Some tokenInfo))
    (fun primaryError =>
       debugLog ("Primary silent auth failed: " ++ message primaryError) ;;
       tryCatch
         (debugLog "Attempting fallback silent authentication with basic scopes..." ;;
          tokenInfo <- attemptSilentAuthWithScope "openid profile offline_access" ;;
          ret (Some tokenInfo))
         (fun fallbackError =>
            debugLog ("Fallback silent auth failed: " ++ message fallbackError) ;;
            ret None)).

(** [performOAuth2Flow]: the executor is an [async] function, so what it
    throws is lost and the outer promise stays unsettled. *)
Definition performOAuth2Flow : Async TokenInfo :=
  settle
    (tryCatch
       (tokenInfo <- attemptOAuth2WithScope (nth 0 scopes "") ;; ret (Resolve tokenInfo))
       (fun primaryError =>
          debugLog ("Authentication failed: " ++ message primaryError) ;;
          logError "Authentication failed. Please ensure you have the required permissions." None ;;
          ret (Reject primaryError))).

(** [handleTokenExpiry]. *)
Definition handleTokenExpiry : Async (option string) :=
  refreshed <-
    tryCatch
      (debugLog "Attempting silent token refresh..." ;;
       tokenInfo <- performSilentAuth ;;
       match tokenInfo with
       | Some tokenInfo =>
           modify (upd_mgr (set_accessToken (Some (ti_accessToken tokenInfo)))) ;;
           cacheToken (ti_accessToken tokenInfo) (ti_expiresIn tokenInfo) ;;
           debugLog "Silent token refresh successful" ;;
           ret (Some (ti_accessToken tokenInfo))
       | None => ret None
       end)
      (fun error =>
         debugLog ("Silent token refresh failed: " ++ message error) ;; ret None) ;;
  match refreshed with
  | Some token => ret (Some token)
  | None =>
      modify (upd_mgr (set_accessToken None)) ;;
      clearCachedAuth ;;
      ret None
  end.

Definition bearer (token : option string) : string :=
  "Bearer " ++ match token with Some t => t | None => "null" end.

(** [validateToken]. *)
Definition validateToken (token : string) : Async bool :=
  tryCatch
    (let testUrl :=
       baseUrl ++ "/subscriptions?api-version=" ++ subscriptionApiVersion ++ "&$top=1" in
     response <- fetch {| rq_url := testUrl; rq_method := "GET";
                          rq_authorization := bearer (Some token); rq_body := None |} ;;
     ret (ok response))
    (fun error => debugLog ("Token validation failed: " ++ message error) ;; ret false).

(** ** Tenant display *)

Definition strField (key : string) (j : Json) : option string :=
  JsValue.asString (JsValue.optField key (Some j)).

(** [userPrincipalName.split('@')[1]]. *)
Definition domainOf (userPrincipalName : string) : option string :=
  nth_error (JsString.split "@" userPrincipalName) 1.

Definition showTenant (textContent : string) : Async unit :=
  modify (upd_dom (set_tenantInfo "block" textContent)).

(** [updateTenantDisplayFromToken]. *)
Definition updateTenantDisplayFromToken (token : string) : Async unit :=
  tryCatch
    (tokenData <- decodeJwtToken token ;;
     if negb (JsValue.truthy (Some tokenData)) then
       debugLog "Could not decode token for tenant information"
     else
       let tenantId := strField "tid" tokenData in
       let tenantName :=
         orStr (strField "tenant_display_name" tokenData) (strField "tenant_name" tokenData) in
       let userPrincipalName :=
         orStr (strField "upn" tokenData) (strField "unique_name" tokenData) in
       debugLog "Token data:" ;;
       match tenantName, userPrincipalName, tenantId with
       | Some (String _ _ as tenantName), _, _ =>
           showTenant ("Tenant: " ++ tenantName) ;;
           debugLog ("Tenant display updated: " ++ tenantName)
       | _, Some (String _ _ as upn), _ =>
           match domainOf upn with
           | Some (String _ _ as domain) =>
               showTenant ("Tenant: " ++ domain) ;;
               debugLog ("Tenant display updated with domain: " ++ domain)
           | _ => ret tt
           end
       | _, _, Some (String _ _ as tenantId) =>
           showTenant ("Tenant ID: " ++ tenantId) ;;
           debugLog ("Tenant display updated with ID: " ++ tenantId)
       | _, _, _ => debugLog "No tenant information available in token"
       end)
    (fun error =>
       debugLog ("Failed to update tenant display from token: " ++ message error)).

(** [getUserInfo]; [JNull] is the [null] it returns. *)
Definition getUserInfo : Async Json :=
  tryCatch
    (w <- get ;;
     if negb (JsString.truthy (accessToken (mgr w))) then
       debugLog "No access token available for Graph API call" ;; ret JNull
     else
       response <- fetch {| rq_url := graphUrl ++ "/v1.0/me"; rq_method := "GET";
                            rq_authorization := bearer (accessToken (mgr w));
                            rq_body := None |} ;;
       if negb (ok response) then
         debugLog ("Graph API call failed: " ++ JsNumber.toString (status response) ++
                   " " ++ statusText response) ;;
         ret JNull
       else
         w <- get ;;
         match JSON_parse (browser w) (text response) with
         | None => throw (mkError "Unexpected token in JSON")
         | Some userInfo =>
             match userInfo with
             | JNull => throw (mkError "Cannot read properties of null (reading 'displayName')")
             | _ => debugLog "User info retrieved from Graph:" ;; ret userInfo
             end
         end)
    (fun error =>
       debugLog ("Failed to get user info from Graph: " ++ message error) ;; ret JNull).

Record Capabilities := { hasManagementAccess : bool; cap_message : string }.

(** [checkTokenCapabilities]. *)
Definition checkTokenCapabilities : Async Capabilities :=
  w <- get ;;
  if negb (JsString.truthy (accessToken (mgr w))) then
    ret {| hasManagementAccess := false; cap_message := "No authentication token available" |}
  else
    tryCatch
      (let testUrl :=
         baseUrl ++ "/subscriptions?api-version=" ++ subscriptionApiVersion ++ "&$top=1" in
       response <- fetch {| rq_url := testUrl; rq_method := "GET";
                            rq_authorization := bearer (accessToken (mgr w));
                            rq_body := None |} ;;
       if ok response then
         debugLog "Token has management API access" ;;
         ret {| hasManagementAccess := true;
                cap_message := "Full Azure Management API access available" |}
       else if (status response =? 403)%Z then
         debugLog "Token has limited permissions" ;;
         ret {| hasManagementAccess := false;
                cap_message :=
                  "Limited permissions - Admin consent may be required for full functionality" |}
       else
         debugLog ("Token validation failed: " ++ JsNumber.toString (status response)) ;;
         ret {| hasManagementAccess := false;
                cap_message := "Authentication issue: " ++ JsNumber.toString (status response) ++
                               " " ++ statusText response |})
      (fun error =>
         debugLog ("Token capability check failed: " ++ message error) ;;
         ret {| hasManagementAccess := false;
                cap_message := "Unable to verify token capabilities" |}).

(** [updateTenantAndUserDisplay]. *)
Definition updateTenantAndUserDisplay (token : string) : Async unit :=
  tryCatch
    (updateTenantDisplayFromToken token ;;
     userInfo <- getUserInfo ;;
     when (JsValue.truthy (Some userInfo))
       (tokenData <- decodeJwtToken token ;;
        let tenantName :=
          orStr (strField "tenant_display_name" tokenData) (strField "tenant_name" tokenData) in
        let userPrincipalName :=
          orStr (strField "upn" tokenData) (strField "unique_name" tokenData) in
        let displayText :=
          match strField "displayName" userInfo, tenantName, userPrincipalName with
          | Some (String _ _ as displayName), Some (String _ _ as tenantName), _ =>
              displayName ++ " (" ++ tenantName ++ ")"
          | Some (String _ _ as displayName), _, Some (String _ _ as upn) =>
              match domainOf upn with
              | Some (String _ _ as domain) => displayName ++ " (" ++ domain ++ ")"
              | _ => displayName
              end
          | Some (String _ _ as displayName), _, _ => displayName
          | _, Some (String _ _ as tenantName), _ => "Tenant: " ++ tenantName
          | _, _, Some (String _ _ as upn) =>
              match domainOf upn with
              | Some (String _ _ as domain) => "Tenant: " ++ domain
              | _ => upn
              end
          | _, _, _ => ""
          end in
        when (negb (String.eqb displayText ""))
          (showTenant displayText ;;
           debugLog ("User and tenant display updated: " ++ displayText))) ;;
     spawn
       (result <- checkTokenCapabilities ;;
        if negb (hasManagementAccess result) then
          log ("Warning: " ++ cap_message result) ;;
          modify (upd_dom (set_authWarning true))
        else modify (upd_dom (set_authWarning false))))
    (fun error =>
       debugLog ("Failed to update tenant and user display: " ++ message error) ;;
       updateTenantDisplayFromToken token).

Definition setTimeout (task : TimerTask) (delay : Z) : Async unit :=
  modify (upd_browser (fun b => set_timers (timers b ++ [(delay, task)])%list b)).

(** [authenticate]. *)
Definition authenticate : Async string :=
  tryFinally
    (tryCatch
       (log "Authenticating with Azure AD..." ;;
        showLoading true ;;
        cachedToken <- getCachedToken ;;
        valid <- match cachedToken with
                 | Some t => validateToken t
                 | None => ret false
                 end ;;
        match cachedToken, valid with
        | Some cachedToken, true =>
            modify (upd_mgr (set_accessToken (Some cachedToken))) ;;
            spawn (updateTenantAndUserDisplay cachedToken) ;;
            log "Using cached authentication token" ;;
            debugLog "Cached token is valid" ;;
            setTimeout (BackgroundTokenRefresh cachedToken) 1000 ;;
            ret cachedToken
        | _, _ =>
            tokenInfo <- performOAuth2Flow ;;
            modify (upd_mgr (set_accessToken (Some (ti_accessToken tokenInfo)))) ;;
            spawn (updateTenantAndUserDisplay (ti_accessToken tokenInfo)) ;;
            cacheToken (ti_accessToken tokenInfo) (ti_expiresIn tokenInfo) ;;
            log "Authentication successful" ;;
            debugLog "New access token obtained and cached" ;;
            ret (ti_accessToken tokenInfo)
        end)
       (fun error => logError "Authentication error" (Some error) ;; throw error))
    (showLoading false).

(** ** The API client *)

Definition successMarker : Json := JObj [("success", JBool true)].

Definition parseBody (responseText : string) : Async Json :=
  if String.eqb responseText "" then ret (JObj [])
  else
    w <- get ;;
    match JSON_parse (browser w) responseText with
    | Some j => ret j
    | None => throw (mkError "Unexpected token in JSON")
    end.

(** What both retry branches of [makeApiCall] do with the retried
    response; [label] is the word the branch puts in its messages. *)
Definition afterRetry (method debugLabel errorLabel : string) (retryResponse : Response)
    : Async Json :=
  if negb (ok retryResponse) then
    debugLog (debugLabel ++ " failed: " ++ JsNumber.toString (status retryResponse) ++ " " ++
              statusText retryResponse ++ " - " ++ text retryResponse) ;;
    if (status retryResponse =? 403)%Z then
      throw (mkError
        "Insufficient permissions. Admin consent may be required for full functionality.")
    else
      throw (mkError ("API call failed after " ++ errorLabel ++ ": " ++
                      JsNumber.toString (status retryResponse) ++ " " ++
                      statusText retryResponse))
  else if (String.eqb method "POST" && (status retryResponse =? 202)%Z)%bool then
    ret successMarker
  else if (String.eqb method "PATCH" &&
           ((status retryResponse =? 200)%Z || (status retryResponse =? 202)%Z))%bool then
    ret successMarker
  else parseBody (text retryResponse).

(** [makeApiCall]. *)
Definition makeApiCall (url method : string) (body : option Json) : Async Json :=
  w <- get ;;
  if negb (JsString.truthy (accessToken (mgr w))) then
    throw (mkError "No access token available")
  else
    debugLog ("Making " ++ method ++ " request to: " ++ url) ;;
    let options auth :=
      {| rq_url := url; rq_method := method; rq_authorization := auth; rq_body := body |} in
    response <- fetch (options (bearer (accessToken (mgr w)))) ;;
    if negb (ok response) then
      let errorText := text response in
      debugLog ("API call failed: " ++ JsNumber.toString (status response) ++ " " ++
                statusText response ++ " - " ++ errorText) ;;
      if (status response =? 401)%Z then
        debugLog "Token expired, attempting silent refresh" ;;
        refreshedToken <- handleTokenExpiry ;;
        if JsString.truthy refreshedToken then
          retryResponse <- fetch (options (bearer refreshedToken)) ;;
          afterRetry method "Retry" "retry" retryResponse
        else
          debugLog "Silent refresh failed, requiring interactive authentication" ;;
          authenticate ;;
          w <- get ;;
          retryResponse <- fetch (options (bearer (accessToken (mgr w)))) ;;
          afterRetry method "Final retry" "authentication retry" retryResponse
      else if (status response =? 403)%Z then
        let errorMessage := "Insufficient permissions to perform this operation." in
        let errorMessage :=
          if (JsString.includes "admin consent" errorText ||
              JsString.includes "consent" errorText)%bool then
            errorMessage ++
            " Admin consent may be required. Please contact your Azure administrator."
          else if (JsString.includes "RBAC" errorText ||
                   JsString.includes "role" errorText)%bool then
            errorMessage ++ " You may need additional Azure RBAC permissions."
          else errorMessage in
        throw (mkError errorMessage)
      else
        throw (mkError ("API call failed: " ++ JsNumber.toString (status response) ++ " " ++
                        statusText response))
    else if ((String.eqb method "POST" || String.eqb method "PATCH") &&
             ((status response =? 200)%Z || (status response =? 202)%Z))%bool then
      ret successMarker
    else parseBody (text response).

(** ** Drop-downs

    What the popup relies on from [HTMLSelectElement]: [value] is the value
    of the selected option or the empty string; removing or inserting
    options while none is selected selects the first option that is not
    disabled; assigning [value] selects the first option with that value,
    or none. *)

Module Select.

Definition value (s : SelectEl) : string :=
  match sel_selected s with
  | Some i =>
      match nth_error (sel_options s) i with
      | Some o => opt_value o
      | None => ""
      end
  | None => ""
  end.

Fixpoint findIndex {X} (p : X -> bool) (l : list X) : option nat :=
  match l with
  | [] => None
  | x :: l' => if p x then Some 0%nat else option_map S (findIndex p l')
  end.

Definition resetSelectedness (s : SelectEl) : SelectEl :=
  match sel_selected s with
  | Some _ => s
  | None =>
      {| sel_options := sel_options s;
         sel_selected := findIndex (fun o => negb (opt_disabled o)) (sel_options s);
         sel_disabled := sel_disabled s |}
  end.

(** [while (s.children.length > 1) s.removeChild(s.lastChild)]. *)
Definition removeAllButFirst (s : SelectEl) : SelectEl :=
  resetSelectedness
    {| sel_options := firstn 1 (sel_options s);
       sel_selected :=
         match sel_selected s, sel_options s with
         | Some O, _ :: _ => Some O
         | _, _ => None
         end;
       sel_disabled := sel_disabled s |}.

(** [s.appendChild(option)]. *)
Definition appendChild (o : OptionEl) (s : SelectEl) : SelectEl :=
  resetSelectedness
    {| sel_options := (sel_options s ++ [o])%list;
       sel_selected := sel_selected s;
       sel_disabled := sel_disabled s |}.

(** [s.value = v]. *)
Definition setValue (v : string) (s : SelectEl) : SelectEl :=
  {| sel_options := sel_options s;
     sel_selected := findIndex (fun o => String.eqb (opt_value o) v) (sel_options s);
     sel_disabled := sel_disabled s |}.

Definition setDisabled (b : bool) (s : SelectEl) : SelectEl :=
  {| sel_options := sel_options s; sel_selected := sel_selected s; sel_disabled := b |}.

End Select.

(** [this.capacities[parseInt(selectedIndex)]]. *)
Definition capacityAt (w : World) (selectedIndex : string) : option Capacity :=
  match JsNumber.parseInt selectedIndex with
  | Some z => if (z <? 0)%Z then None else nth_error (capacities (mgr w)) (Z.to_nat z)
  | None => None
  end.

Definition stateOf (capacity : Capacity) : string :=
  JsString.orElse (cap_state capacity) "Unknown".

Definition typeError_undefined (prop : string) : JsError :=
  mkError ("Cannot read properties of undefined (reading '" ++ prop ++ "')").

(** ** Discovery *)

(** [response.value || []], which the callers iterate as an array. *)
Definition valueArray (response : Json) : Async (list Json) :=
  match response with
  | JNull => throw (mkError "Cannot read properties of null (reading 'value')")
  | _ =>
      match JsValue.field "value" response with
      | Some (JArr items) => ret items
      | v => if JsValue.truthy v then throw (mkError "value is not iterable") else ret []
      end
  end.

(** [getSubscriptions]. *)
Definition getSubscriptions : Async (list Json) :=
  let url := baseUrl ++ "/subscriptions?api-version=" ++ subscriptionApiVersion in
  response <- makeApiCall url "GET" None ;;
  valueArray response.

(** One entry of the list, with the subscription context added. *)
Definition capacityOfJson (subscriptionId : string) (capacity : Json) : Async Capacity :=
  match capacity with
  | JNull => throw (mkError "Cannot read properties of null (reading 'name')")
  | _ =>
      let state := JsValue.asString
                     (JsValue.optField "state" (JsValue.field "properties" capacity)) in
      ret {| cap_id := strField "id" capacity;
             cap_name := strField "name" capacity;
             cap_state := state;
             cap_sku := JsValue.asString
                          (JsValue.optField "name" (JsValue.field "sku" capacity));
             cap_subscriptionId := subscriptionId;
             cap_displayName :=
               JsValue.show (strField "name" capacity) ++ " (" ++
               JsString.orElse state "Unknown" ++ ")" |}
  end.

Fixpoint mapM {X Y} (f : X -> Async Y) (l : list X) : Async (list Y) :=
  match l with
  | [] => ret []
  | x :: l' => y <- f x ;; ys <- mapM f l' ;; ret (y :: ys)
  end.

(** [getCapacitiesForSubscription]. *)
Definition getCapacitiesForSubscription (subscriptionId : string) : Async (list Capacity) :=
  let url := baseUrl ++ "/subscriptions/" ++ subscriptionId ++
             "/providers/Microsoft.Fabric/capacities?api-version=" ++ fabricApiVersion in
  tryCatch
    (response <- makeApiCall url "GET" None ;;
     items <- valueArray response ;;
     mapM (capacityOfJson subscriptionId) items)
    (fun error =>
       if (JsString.includes "404" (message error) ||
           JsString.includes "ResourceProviderNotRegistered" (message error))%bool then
         debugLog ("Fabric provider not registered in subscription " ++ subscriptionId) ;;
         ret []
       else throw error).

Definition capacityOption (index : nat) (capacity : Capacity) : OptionEl :=
  let state := stateOf capacity in
  let stateDisplay :=
    if String.eqb state "Active" then "(Running)"
    else if String.eqb state "Paused" then "(Stopped)"
    else "(" ++ state ++ ")" in
  let sku := JsString.orElse (cap_sku capacity) "Unknown SKU" in
  {| opt_value := JsNumber.toString (Z.of_nat index);
     opt_text := JsValue.show (cap_name capacity) ++ " - " ++ sku ++ " " ++ stateDisplay;
     opt_disabled := false;
     opt_className :=
       if String.eqb state "Active" then "status-running"
       else if String.eqb state "Paused" then "status-stopped"
       else "" |}.

Definition updCapacitySelect (f : SelectEl -> SelectEl) : Async unit :=
  modify (upd_dom (fun d => set_capacitySelect (f (capacitySelect d)) d)).

Definition updSkuSelect (f : SelectEl -> SelectEl) : Async unit :=
  modify (upd_dom (fun d => set_skuSelect (f (skuSelect d)) d)).

Definition indexed {X} (l : list X) : list (nat * X) := combine (seq 0 (List.length l)) l.

(** [populateCapacityDropdown]. *)
Definition populateCapacityDropdown : Async unit :=
  tryCatch
    (w <- get ;;
     debugLog ("Populating dropdown with " ++
               JsNumber.toString (Z.of_nat (List.length (capacities (mgr w)))) ++
               " capacities") ;;
     updCapacitySelect Select.removeAllButFirst ;;
     if (List.length (capacities (mgr w)) =? 0)%nat then
       updCapacitySelect
         (Select.appendChild
            {| opt_value := ""; opt_text := "No capacities found";
               opt_disabled := true; opt_className := "" |}) ;;
       debugLog "Added 'No capacities found' option"
     else
       forOf (indexed (capacities (mgr w)))
         (fun ic =>
            let option := capacityOption (fst ic) (snd ic) in
            updCapacitySelect (Select.appendChild option) ;;
            debugLog ("Added capacity option: " ++ opt_text option)) ;;
       w <- get ;;
       debugLog ("Dropdown population complete. Total options: " ++
                 JsNumber.toString
                   (Z.of_nat (List.length (sel_options (capacitySelect (dom w)))))))
    (fun error => logError "Failed to populate dropdown" (Some error)).

Definition sku (n d t : string) : Sku :=
  {| sku_name := n; sku_displayName := d; sku_description := t |}.

(** [loadAvailableSkus]. *)
Definition loadAvailableSkus (capacity : Capacity) : Async unit :=
  tryCatch
    (debugLog "Loading available SKUs..." ;;
     modify (upd_mgr (set_availableSkus
       [sku "F2" "F2 (2 vCores, 4 GB RAM)" "Small workloads";
        sku "F4" "F4 (4 vCores, 8 GB RAM)" "Development and testing";
        sku "F8" "F8 (8 vCores, 16 GB RAM)" "Light production workloads";
        sku "F16" "F16 (16 vCores, 32 GB RAM)" "Medium production workloads";
        sku "F32" "F32 (32 vCores, 64 GB RAM)" "Heavy production workloads";
        sku "F64" "F64 (64 vCores, 128 GB RAM)" "Enterprise workloads";
        sku "F128" "F128 (128 vCores, 256 GB RAM)" "Large enterprise workloads";
        sku "F256" "F256 (256 vCores, 512 GB RAM)" "Very large enterprise workloads";
        sku "F512" "F512 (512 vCores, 1024 GB RAM)" "Maximum capacity workloads"])) ;;
     w <- get ;;
     debugLog ("Loaded " ++ JsNumber.toString (Z.of_nat (List.length (availableSkus (mgr w)))) ++
               " available SKUs"))
    (fun error =>
       logError "Failed to load available SKUs" (Some error) ;;
       modify (upd_mgr (set_availableSkus
         [sku "F2" "F2" "Small"; sku "F4" "F4" "Medium"; sku "F8" "F8" "Large"]))).

Definition currentSkuOf (capacity : Capacity) : string :=
  JsString.orElse (cap_sku capacity) "Unknown".

(** [populateSkuDropdown]. *)
Definition populateSkuDropdown (capacity : Capacity) : Async unit :=
  tryCatch
    (let currentSku := currentSkuOf capacity in
     w <- get ;;
     let currentOption :=
       {| opt_value := currentSku; opt_text := "Current: " ++ currentSku;
          opt_disabled := false; opt_className := "" |} in
     let separator :=
       {| opt_value := "-----------------"; opt_text := "-----------------";
          opt_disabled := true; opt_className := "" |} in
     let others :=
       map (fun s =>
              {| opt_value := sku_name s;
                 opt_text := JsString.orElse (Some (sku_displayName s)) (sku_name s);
                 opt_disabled := false; opt_className := "" |})
           (filter (fun s => negb (String.eqb (sku_name s) currentSku))
                   (availableSkus (mgr w))) in
     updSkuSelect (fun s =>
       {| sel_options := currentOption :: separator :: others;
          sel_selected := Some 0%nat;
          sel_disabled := sel_disabled s |}) ;;
     modify (upd_dom (set_updateSkuButton_disabled true)) ;;
     debugLog ("Populated SKU dropdown with current SKU: " ++ currentSku))
    (fun error => logError "Failed to populate SKU dropdown" (Some error)).

(** [onCapacitySelectionChange]. *)
Definition onCapacitySelectionChange : Async unit :=
  w <- get ;;
  let selectedIndex := Select.value (capacitySelect (dom w)) in
  if String.eqb selectedIndex "" then
    modify (upd_dom (set_startButton_disabled true)) ;;
    modify (upd_dom (set_stopButton_disabled true)) ;;
    modify (upd_dom (set_skuContainer_display "none"))
  else
    match capacityAt w selectedIndex with
    | None => throw (typeError_undefined "properties")
    | Some capacity =>
        let state := stateOf capacity in
        modify (upd_dom (set_startButton_disabled (String.eqb state "Active"))) ;;
        modify (upd_dom (set_stopButton_disabled (String.eqb state "Paused"))) ;;
        modify (upd_dom (set_skuContainer_display "block")) ;;
        loadAvailableSkus capacity ;;
        populateSkuDropdown capacity ;;
        log ("Selected capacity: " ++ JsValue.show (cap_name capacity) ++ " (" ++ state ++
             ") - SKU: " ++ currentSkuOf capacity) ;;
        debugLog ("Capacity details: " ++ cap_displayName capacity)
    end.

(** The body of the loop of [loadCapacities] over the subscriptions. *)
Definition loadSubscription (subscription : Json) : Async unit :=
  match subscription with
  | JNull => throw (mkError "Cannot read properties of null (reading 'subscriptionId')")
  | _ =>
      let subscriptionId := JsValue.show (strField "subscriptionId" subscription) in
      tryCatch
        (found <- getCapacitiesForSubscription subscriptionId ;;
         modify (upd_mgr (fun m => set_capacities (capacities m ++ found)%list m)) ;;
         debugLog ("Found " ++ JsNumber.toString (Z.of_nat (List.length found)) ++
                   " capacities in subscription " ++
                   JsValue.show (strField "displayName" subscription)))
        (fun error =>
           debugLog ("Failed to get capacities for subscription " ++ subscriptionId ++
                     ": " ++ message error))
  end.

(** [loadCapacities]. *)
Definition loadCapacities : Async unit :=
  tryFinally
    (tryCatch
       (log "Loading Fabric capacities..." ;;
        showLoading true ;;
        modify (upd_mgr (set_capacities [])) ;;
        w <- get ;;
        when (negb (JsString.truthy (accessToken (mgr w))))
          (log "No authentication token available. Please authenticate first." ;;
           authenticate ;; ret tt) ;;
        subscriptions <- getSubscriptions ;;
        debugLog ("Found " ++ JsNumber.toString (Z.of_nat (List.length subscriptions)) ++
                  " subscriptions") ;;
        forOf subscriptions loadSubscription ;;
        populateCapacityDropdown ;;
        w <- get ;;
        log ("Loaded " ++ JsNumber.toString (Z.of_nat (List.length (capacities (mgr w)))) ++
             " Fabric capacities") ;;
        modify (upd_mgr (set_initialLoadComplete true)))
       (fun error => logError "Failed to load capacities" (Some error)))
    (showLoading false).

(** [[...new Set(ids)]]: first occurrences, in order. *)
Fixpoint unique (seen ids : list string) : list string :=
  match ids with
  | [] => []
  | x :: ids' =>
      if existsb (String.eqb x) seen then unique seen ids'
      else x :: unique (x :: seen) ids'
  end.

(** The loop of [refreshCapacities] over the known subscriptions, with its
    local [refreshedCapacities]. *)
Fixpoint refreshLoop (subscriptionIds : list string) (refreshedCapacities : list Capacity)
    : Async (list Capacity) :=
  match subscriptionIds with
  | [] => ret refreshedCapacities
  | subscriptionId :: ids' =>
      refreshed <-
        tryCatch
          (found <- getCapacitiesForSubscription subscriptionId ;;
           ret (refreshedCapacities ++ found)%list)
          (fun error =>
             debugLog ("Failed to refresh capacities for subscription " ++ subscriptionId ++
                       ": " ++ message error) ;;
             ret refreshedCapacities) ;;
      refreshLoop ids' refreshed
  end.

Definition hasId (selectedCapacityId : string) (c : Capacity) : bool :=
  sameString (cap_id c) selectedCapacityId.

(** [refreshCapacities]. *)
Definition refreshCapacities : Async unit :=
  w <- get ;;
  if negb (JsString.truthy (accessToken (mgr w))) then
    debugLog "No authentication token available, triggering full load with authentication" ;;
    loadCapacities
  else if String.eqb (loadingIndicator_display (dom w)) "block" then
    debugLog "Refresh skipped - already loading"
  else
    tryFinally
      (tryCatch
         (debugLog "Refreshing capacity status..." ;;
          w <- get ;;
          let selectedIndex := Select.value (capacitySelect (dom w)) in
          let selectedCapacityId :=
            if String.eqb selectedIndex "" then None
            else match capacityAt w selectedIndex with
                 | Some c => cap_id c
                 | None => None
                 end in
          updCapacitySelect (Select.setDisabled true) ;;
          modify (upd_dom (set_refreshButton_disabled true)) ;;
          modify (upd_dom (set_skuContainer_display "none")) ;;
          let subscriptionIds := unique [] (map cap_subscriptionId (capacities (mgr w))) in
          if (List.length subscriptionIds =? 0)%nat then
            debugLog "No subscription IDs found, performing full load" ;;
            loadCapacities
          else
            refreshedCapacities <- refreshLoop subscriptionIds [] ;;
            modify (upd_mgr (set_capacities refreshedCapacities)) ;;
            populateCapacityDropdown ;;
            match selectedCapacityId with
            | Some (String _ _ as selectedCapacityId) =>
                w <- get ;;
                match Select.findIndex (hasId selectedCapacityId) (capacities (mgr w)) with
                | Some newIndex =>
                    updCapacitySelect
                      (Select.setValue (JsNumber.toString (Z.of_nat newIndex))) ;;
                    onCapacitySelectionChange
                | None => ret tt
                end
            | _ => ret tt
            end ;;
            w <- get ;;
            debugLog ("Refreshed " ++
                      JsNumber.toString (Z.of_nat (List.length (capacities (mgr w)))) ++
                      " capacities"))
         (fun error => logError "Failed to refresh capacities" (Some error)))
      (updCapacitySelect (Select.setDisabled false) ;;
       modify (upd_dom (set_refreshButton_disabled false))).

(** ** Start, stop, resize *)

(** [setButtonsEnabled]. *)
Definition setButtonsEnabled (enabled : bool) : Async unit :=
  if enabled then
    onCapacitySelectionChange ;;
    modify (upd_dom (set_refreshButton_disabled false))
  else
    modify (upd_dom (set_startButton_disabled true)) ;;
    modify (upd_dom (set_stopButton_disabled true)) ;;
    modify (upd_dom (set_refreshButton_disabled true)).

(** [performCapacityOperation]. *)
Definition performCapacityOperation (operation operationName : string) : Async unit :=
  w <- get ;;
  let selectedIndex := Select.value (capacitySelect (dom w)) in
  if String.eqb selectedIndex "" then ret tt
  else
    match capacityAt w selectedIndex with
    | None =>
        tryFinally (throw (typeError_undefined "name")) (setButtonsEnabled true)
    | Some capacity =>
        tryFinally
          (tryCatch
             (log (operationName ++ " capacity " ++ JsValue.show (cap_name capacity) ++ "...") ;;
              setButtonsEnabled false ;;
              let url := baseUrl ++ JsValue.show (cap_id capacity) ++ "/" ++ operation ++
                         "?api-version=" ++ fabricApiVersion in
              makeApiCall url "POST" None ;;
              logSuccess (operationName ++ " operation initiated for " ++
                          JsValue.show (cap_name capacity)) ;;
              setTimeout RefreshAfterOperation 2000)
             (fun error =>
                logError ("Failed to " ++ operation ++ " capacity " ++
                          JsValue.show (cap_name capacity)) (Some error)))
          (setButtonsEnabled true)
    end.

(** [startCapacity] and [stopCapacity]. *)
Definition startCapacity : Async unit := performCapacityOperation "resume" "Starting".
Definition stopCapacity : Async unit := performCapacityOperation "suspend" "Stopping".

(** [confirm(message)]: the next answer of the user. *)
Definition confirm : Async bool :=
  fun w =>
    Done (Ok (hd false (confirms (browser w))))
         (upd_browser (fun b => set_confirms (tl (confirms b)) b) w).

(** [updateCapacitySku]. *)
Definition updateCapacitySku : Async unit :=
  w <- get ;;
  let selectedIndex := Select.value (capacitySelect (dom w)) in
  let selectedSku := Select.value (skuSelect (dom w)) in
  if (String.eqb selectedIndex "" || String.eqb selectedSku "")%bool then ret tt
  else
    match capacityAt w selectedIndex with
    | None => throw (typeError_undefined "sku")
    | Some capacity =>
        let currentSku := currentSkuOf capacity in
        if (String.eqb selectedSku currentSku ||
            JsString.startsWith "Current:" selectedSku)%bool then
          log "No SKU change required"
        else
          let state := stateOf capacity in
          proceed <- (if String.eqb state "Active" then confirm else ret true) ;;
          if negb proceed then ret tt
          else
            tryFinally
              (tryCatch
                 (log ("Updating capacity " ++ JsValue.show (cap_name capacity) ++
                       " SKU from " ++ currentSku ++ " to " ++ selectedSku ++ "...") ;;
                  setButtonsEnabled false ;;
                  modify (upd_dom (set_updateSkuButton_disabled true)) ;;
                  updSkuSelect (Select.setDisabled true) ;;
                  let updatePayload := JObj [("sku", JObj [("name", JStr selectedSku)])] in
                  let url := baseUrl ++ JsValue.show (cap_id capacity) ++
                             "?api-version=" ++ fabricApiVersion in
                  makeApiCall url "PATCH" (Some updatePayload) ;;
                  logSuccess ("SKU update initiated for " ++
                              JsValue.show (cap_name capacity) ++ ": " ++ currentSku ++
                              " -> " ++ selectedSku) ;;
                  setTimeout RefreshAfterSkuUpdate 3000)
                 (fun error =>
                    logError ("Failed to update SKU for capacity " ++
                              JsValue.show (cap_name capacity)) (Some error)))
              (setButtonsEnabled true ;;
               updSkuSelect (Select.setDisabled false))
    end.

(** ** Sign-out and the SKU drop-down *)


(** [onSkuSelectionChange]. *)
Definition onSkuSelectionChange : Async unit :=
  w <- get ;;
  let selectedSku := Select.value (skuSelect (dom w)) in
  let selectedIndex := Select.value (capacitySelect (dom w)) in
  if String.eqb selectedIndex "" then ret tt
  else
    match capacityAt w selectedIndex with
    | None => throw (typeError_undefined "sku")
    | Some capacity =>
        let currentSku := currentSkuOf capacity in
        let unchanged :=
          (String.eqb selectedSku currentSku ||
           JsString.startsWith "Current:" selectedSku)%bool in
        modify (upd_dom (set_updateSkuButton_disabled unchanged)) ;;
        when (negb unchanged)
          (debugLog ("SKU change selected: " ++ currentSku ++ " -> " ++ selectedSku))
    end.

(** The callbacks behind [TimerTask]. *)
Definition timerBody (task : TimerTask) : Async unit :=
  match task with
  | RefreshAfterOperation => refreshCapacities
  | RefreshAfterSkuUpdate =>
      refreshCapacities ;;
      w <- get ;;
      when (negb (String.eqb (Select.value (capacitySelect (dom w))) ""))
        onCapacitySelectionChange
  | BackgroundTokenRefresh cachedToken =>
      tryCatch
        (refreshedTokenInfo <- performSilentAuth ;;
         match refreshedTokenInfo with
         | Some info =>
             when (negb (String.eqb (ti_accessToken info) cachedToken))
               (modify (upd_mgr (set_accessToken (Some (ti_accessToken info)))) ;;
                cacheToken (ti_accessToken info) (ti_expiresIn info) ;;
                debugLog "Background token refresh successful")
         | None => ret tt
         end)
        (fun error => debugLog ("Background token refresh failed: " ++ message error))
  end.

(** ** The popup as an event loop

    Between two suspensions a handler runs alone.  A click reaches its
    listener only while the button is enabled, a choice in a drop-down only
    while the drop-down is enabled; a reply resumes the call that waits for
    it. *)

Inductive Suspended :=
| WaitingFetch (rq : FetchRequest) (k : FetchReply -> World -> Step unit)
| WaitingAuth (rq : AuthRequest) (k : AuthReply -> World -> Step unit).

Record Popup := {
  world : World;
  pending : list Suspended;        (* calls in flight, oldest first *)
  sentSoFar : list Issued          (* every request sent so far, in order *)
}.

(** Runs a call on the popup up to its suspension. *)
Fixpoint advance (s : Step unit) (waiting : list Suspended) (outbound : list Issued) : Popup :=
  match s with
  | Done _ w => {| world := w; pending := waiting; sentSoFar := outbound |}
  | AwaitFetch rq w k =>
      {| world := w; pending := (waiting ++ [WaitingFetch rq k])%list;
         sentSoFar := (outbound ++ [IssuedFetch rq])%list |}
  | AwaitAuth rq w k =>
      {| world := w; pending := (waiting ++ [WaitingAuth rq k])%list;
         sentSoFar := (outbound ++ [IssuedAuth rq])%list |}
  | Spawn c k =>
      let p := advance c waiting outbound in
      advance (k (world p)) (pending p) (sentSoFar p)
  end.

(** A call of [h] from the event loop. *)
Definition invoke (h : Async unit) (p : Popup) : Popup :=
  advance (h (world p)) (pending p) (sentSoFar p).

Inductive Event :=
| ClickStart
| ClickStop
| ClickRefresh
| ClickUpdateSku
| ChooseCapacity (value : string)
| FetchReplied (i : nat) (r : FetchReply)
| AuthReplied (i : nat) (r : AuthReply)
| TimerFired (i : nat).

Definition removeNth {X} (i : nat) (l : list X) : list X :=
  (firstn i l ++ skipn (S i) l)%list.

(** The listeners of [setupEventListeners] and the resumption of waiting
    calls. *)
Definition dispatch (e : Event) (p : Popup) : Popup :=
  let d := dom (world p) in
  match e with
  | ClickStart => if startButton_disabled d then p else invoke startCapacity p
  | ClickStop => if stopButton_disabled d then p else invoke stopCapacity p
  | ClickRefresh =>
      if refreshButton_disabled d then p
      else invoke (log "Manual refresh requested" ;; refreshCapacities) p
  | ClickUpdateSku =>
      if updateSkuButton_disabled d then p else invoke updateCapacitySku p
  | ChooseCapacity v =>
      if (sel_disabled (capacitySelect d) ||
          String.eqb v (Select.value (capacitySelect d)))%bool then p
      else invoke (updCapacitySelect (Select.setValue v) ;; onCapacitySelectionChange) p
  | FetchReplied i r =>
      match nth_error (pending p) i with
      | Some (WaitingFetch _ k) =>
          advance (k r (world p)) (removeNth i (pending p)) (sentSoFar p)
      | _ => p
      end
  | AuthReplied i r =>
      match nth_error (pending p) i with
      | Some (WaitingAuth _ k) =>
          advance (k r (world p)) (removeNth i (pending p)) (sentSoFar p)
      | _ => p
      end
  | TimerFired i =>
      match nth_error (timers (browser (world p))) i with
      | Some (_, task) =>
          invoke (timerBody task)
            {| world := upd_browser (fun b => set_timers (removeNth i (timers b)) b) (world p);
               pending := pending p; sentSoFar := sentSoFar p |}
      | None => p
      end
  end.



Definition isFetch (i : Issued) : bool :=
  match i with
  | IssuedFetch _ => true
  | IssuedAuth _ => false
  end.

Definition isInteractive (i : Issued) : bool :=
  match i with
  | IssuedFetch _ => false
  | IssuedAuth rq => auth_interactive rq
  end.

Definition count (p : Issued -> bool) (l : list Issued) : nat := List.length (filter p l).

(** The elements are bound: whenever debug logging is on there is a log
    area to write to ([initializeElements] reads the debug preference only
    after it has found every element). *)
Definition log_ready (w : World) : Prop :=
  debugMode (mgr w) = true -> logArea (dom w) <> None.

(** * Vocabulary of the properties *)

(** The run of [bindStep s f], from the run [r] of [s] and the runs [g] of
    the continuation. *)
Definition andThen {A B} (r : Run A) (g : A -> World -> Script -> Run B) : Run B :=
  match outcome r with
  | Ok a =>
      let r' := g a (final r) (rest r) in
      {| outcome := outcome r'; final := final r'; rest := rest r';
         issued := (issued r ++ issued r')%list |}
  | Throw e => {| outcome := Throw e; final := final r; rest := rest r; issued := issued r |}
  | Hang => {| outcome := Hang; final := final r; rest := rest r; issued := issued r |}
  end.

(** The run of [catchStep s h], from the run [r] of [s] and the runs of the
    handler. *)
Definition orCatch {A} (r : Run A) (h : JsError -> World -> Script -> Run A) : Run A :=
  match outcome r with
  | Throw e =>
      let r' := h e (final r) (rest r) in
      {| outcome := outcome r'; final := final r'; rest := rest r';
         issued := (issued r ++ issued r')%list |}
  | _ => r
  end.

(** [obeys P Q s]: every world that [s] leaves behind, at a suspension or
    at its end, satisfies [P], provided it is resumed in worlds that do;
    and every request that [s] sends satisfies [Q]. *)
Fixpoint obeys {A : Type} (P : World -> Prop) (Q : Issued -> Prop) (s : Step A) : Prop :=
  match s with
  | Done _ w => P w
  | AwaitFetch rq w k => P w /\ Q (IssuedFetch rq) /\ forall r w', P w' -> obeys P Q (k r w')
  | AwaitAuth rq w k => P w /\ Q (IssuedAuth rq) /\ forall r w', P w' -> obeys P Q (k r w')
  | Spawn c k => obeys P Q c /\ forall w', P w' -> obeys P Q (k w')
  end.

(** [Obeys P Q m]: the call [m] obeys [P] and [Q] from every world that
    satisfies [P]. *)
Definition Obeys {A : Type} (P : World -> Prop) (Q : Issued -> Prop) (m : Async A) : Prop :=
  forall w, P w -> obeys P Q (m w).

(** [ends s sc post]: run against the script [sc], the call [s] ends with an
    outcome, a world and a remaining script that satisfy [post]. *)
Definition ends {A : Type} (s : Step A) (sc : Script)
    (post : Outcome A -> World -> Script -> Prop) : Prop :=
  post (outcome (run s sc)) (final (run s sc)) (rest (run s sc)).

(** An element that was found: [document.getElementById] did not return
    null. *)
Definition present {X} (o : option X) : bool :=
  match o with Some _ => true | None => false end.

(** [frame w0 w]: [w] differs from [w0] at most in the token, the
    credential store, the log text, the loading indicator, the tenant
    display, the randomness consumed and the timers set. *)
Definition frame (w0 w : World) : Prop :=
  capacities (mgr w) = capacities (mgr w0) /\
  debugMode (mgr w) = debugMode (mgr w0) /\
  initialLoadComplete (mgr w) = initialLoadComplete (mgr w0) /\
  availableSkus (mgr w) = availableSkus (mgr w0) /\
  present (logArea (dom w)) = present (logArea (dom w0)) /\
  capacitySelect (dom w) = capacitySelect (dom w0) /\
  skuSelect (dom w) = skuSelect (dom w0) /\
  startButton_disabled (dom w) = startButton_disabled (dom w0) /\
  stopButton_disabled (dom w) = stopButton_disabled (dom w0) /\
  refreshButton_disabled (dom w) = refreshButton_disabled (dom w0) /\
  updateSkuButton_disabled (dom w) = updateSkuButton_disabled (dom w0) /\
  skuContainer_display (dom w) = skuContainer_display (dom w0) /\
  storage_lastError (browser w) = storage_lastError (browser w0) /\
  now (browser w) = now (browser w0) /\
  confirms (browser w) = confirms (browser w0) /\
  redirectURL (browser w) = redirectURL (browser w0) /\
  JSON_parse (browser w) = JSON_parse (browser w0) /\
  encodeURIComponent (browser w) = encodeURIComponent (browser w0) /\
  decodeURIComponent (browser w) = decodeURIComponent (browser w0).

(** The world after a [debugLog] that did not throw. *)
Definition debugged (msg : string) (w : World) : World :=
  upd_dom (fun d =>
    set_logArea (if debugMode (mgr w) then addLine (Line true msg) (logArea d)
                 else logArea d) d) w.

(** The decoded middle segment of [token], as [decodeJwtToken] computes it
    ([None]: [atob] throws). *)
Definition decodedPayload (token : string) : option string :=
  let payload := nth 1 (JsString.split "." token) "" in
  Base64.atob
    (JsString.replaceAll "_" "/"
       (JsString.replaceAll "-" "+"
          (payload ++ JsString.repeat "=" ((4 - String.length payload mod 4) mod 4)))).

(** What [decodeJwtToken] returns, as a function of the token and of the
    engine's parser. *)
Definition claimsOf (parse : string -> option Json) (token : string) : Json :=
  if negb (List.length (JsString.split "." token) =? 3)%nat then JNull
  else match decodedPayload token with
       | None => JNull
       | Some text =>
           match parse text with
           | Some j => j
           | None => JNull
           end
       end.

(** The state that the next call of [generateState] produces. *)
Definition nextState (w : World) : string :=
  generateState_of
    (map (fun i => (nth i (entropy (browser w)) 0 mod 2 ^ 32)%N) [0; 1; 2; 3]%nat).

(** The world after [generateState] has drawn its four words. *)
Definition drawn (w : World) : World :=
  upd_browser (set_entropy (skipn 4 (entropy (browser w)))) w.

(** What a silent renewal may send: nothing to the network, nothing
    interactive. *)
Definition silentOnly (i : Issued) : Prop := isFetch i = false /\ isInteractive i = false.

(** The request that [makeApiCall] sends with the token [token]. *)
Definition apiRequest (url method : string) (body : option Json) (token : option string)
    : FetchRequest :=
  {| rq_url := url; rq_method := method; rq_authorization := bearer token; rq_body := body |}.

(** The world in which [makeApiCall], answered with [response], calls
    [handleTokenExpiry]: three debug lines later. *)
Definition atExpiry (url method : string) (response : Response) (w : World) : World :=
  debugged "Token expired, attempting silent refresh"
    (debugged ("API call failed: " ++ JsNumber.toString (status response) ++ " " ++
               statusText response ++ " - " ++ text response)
       (debugged ("Making " ++ method ++ " request to: " ++ url) w)).

(** [text ? JSON.parse(text) : {}] yields [j]. *)
Definition parsesTo (w : World) (text : string) (j : Json) : Prop :=
  (text = "" /\ j = JObj []) \/ (text <> "" /\ JSON_parse (browser w) text = Some j).

(** The result of a retried call that succeeded: the accepted-but-empty
    statuses of a state change yield the success marker, every other
    response its parsed body. *)
Definition retriedResult (method : string) (retryResponse : Response) (parsed : Json) : Json :=
  if (String.eqb method "POST" && (status retryResponse =? 202)%Z)%bool then successMarker
  else if (String.eqb method "PATCH" &&
           ((status retryResponse =? 200)%Z || (status retryResponse =? 202)%Z))%bool
       then successMarker
       else parsed.

(** The error of a request that fails again after the interactive
    sign-in. *)
Definition retryError (retryResponse : Response) : JsError :=
  if (status retryResponse =? 403)%Z then
    mkError "Insufficient permissions. Admin consent may be required for full functionality."
  else
    mkError ("API call failed after authentication retry: " ++
             JsNumber.toString (status retryResponse) ++ " " ++ statusText retryResponse).

(** After a renewal that failed the credential store holds no token (or
    cannot be read at all). *)
Definition cleared (w : World) : Prop :=
  storage_lastError (browser w) <> None \/
  st_accessToken (storage (browser w)) = None.

(** [subscription.subscriptionId], as the loop of [loadCapacities] passes it
    on. *)
Definition scopeId (subscription : Json) : string :=
  JsValue.show (strField "subscriptionId" subscription).

(** The outcomes of [getCapacitiesForSubscription] for the scopes, in the
    order and in the worlds in which the loop of [loadCapacities] reaches
    them. *)
Fixpoint scopeOutcomes (subscriptions : list Json) (w : World) (sc : Script)
    : list (Outcome (list Capacity)) :=
  match subscriptions with
  | [] => []
  | s :: more =>
      outcome (run (getCapacitiesForSubscription (scopeId s) w) sc) ::
      scopeOutcomes more (final (run (loadSubscription s w) sc))
                         (rest (run (loadSubscription s w) sc))
  end.

(** What a scope adds to the aggregate: its resources, or nothing when the
    query failed. *)
Definition contribution (o : Outcome (list Capacity)) : list Capacity :=
  match o with
  | Ok found => found
  | _ => []
  end.

(** The call was answered: it returned or threw. *)
Definition completed {A} (o : Outcome A) : Prop := o <> Hang.

(** One turn of the loop of [populateCapacityDropdown] on the drop-down. *)
Definition addCapacityOption (s : SelectEl) (ic : nat * Capacity) : SelectEl :=
  Select.appendChild (capacityOption (fst ic) (snd ic)) s.

(** The drop-down as [populateCapacityDropdown] leaves it. *)
Definition rebuilt (caps : list Capacity) (s : SelectEl) : SelectEl :=
  if (List.length caps =? 0)%nat then
    Select.appendChild
      {| opt_value := ""; opt_text := "No capacities found";
         opt_disabled := true; opt_className := "" |}
      (Select.removeAllButFirst s)
  else fold_left addCapacityOption (indexed caps) (Select.removeAllButFirst s).

(** The world in which [loadCapacities] lists the subscriptions, when a
    token is at hand. *)
Definition discoveryStart (w : World) : World :=
  upd_mgr (set_capacities [])
    (upd_dom (set_loadingIndicator_display "block")
       (appendLine (Line false "Loading Fabric capacities...") w)).

(** The debug line of [loadCapacities] after the listing. *)
Definition foundSubscriptions (subscriptions : list Json) : string :=
  "Found " ++ JsNumber.toString (Z.of_nat (List.length subscriptions)) ++ " subscriptions".

(** The characters [0] to [9], and the strings made of them. *)
Definition isDecimal (c : ascii) : Prop := exists d, (d < 10)%N /\ c = JsNumber.digitChar d.

Fixpoint allDecimal (s : string) : Prop :=
  match s with
  | EmptyString => True
  | String c s' => isDecimal c /\ allDecimal s'
  end.

(** The options that [populateCapacityDropdown] appends for [caps], the
    first of them with index [start]. *)
Definition optionsFor (start : nat) (caps : list Capacity) : list OptionEl :=
  map (fun ic => capacityOption (fst ic) (snd ic)) (combine (seq start (List.length caps)) caps).

(** The page ships the drop-down with one enabled option of empty value,
    "Select a capacity...", in first place. *)
Definition hasPlaceholder (s : SelectEl) : Prop :=
  exists p others,
    sel_options s = p :: others /\ opt_value p = "" /\ opt_disabled p = false.

(** The list of capacities, the options of the drop-down and the option
    selected in it. *)
Definition selection (caps : list Capacity) (opts : list OptionEl) (sel : option nat)
    (w : World) : Prop :=
  capacities (mgr w) = caps /\
  sel_options (capacitySelect (dom w)) = opts /\
  sel_selected (capacitySelect (dom w)) = sel.

(** The world in which [refreshCapacities] starts to query the known
    subscriptions. *)
Definition refreshStart (w : World) : World :=
  upd_dom (set_skuContainer_display "none")
    (upd_dom (set_refreshButton_disabled true)
       (upd_dom (fun d => set_capacitySelect (Select.setDisabled true (capacitySelect d)) d)
          (debugged "Refreshing capacity status..." w))).

(** The subscriptions of the capacities in memory, each once. *)
Definition knownScopes (w : World) : list string :=
  unique [] (map cap_subscriptionId (capacities (mgr w))).

(** The capacity that the drop-down designates, if any. *)
Definition selectedCapacity (w : World) : option Capacity :=
  if String.eqb (Select.value (capacitySelect (dom w))) "" then None
  else capacityAt w (Select.value (capacitySelect (dom w))).

(** The URL of the operation [operation] on the capacity [c]. *)
Definition operationUrl (operation : string) (c : Capacity) : string :=
  baseUrl ++ JsValue.show (cap_id c) ++ "/" ++ operation ++ "?api-version=" ++
  fabricApiVersion.

(** The state-changing request of [performCapacityOperation]. *)
Definition operationRequest (operation : string) (c : Capacity) (w : World) : FetchRequest :=
  {| rq_url := operationUrl operation c; rq_method := "POST";
     rq_authorization := bearer (accessToken (mgr w)); rq_body := None |}.

(** ** Sample data

    A popup with three capacities of one subscription, the second of them
    selected, and a toy [JSON.parse] that knows the bodies of the sample
    responses. *)

Module Sample.

Definition capacityJson (name state skuName : string) : Json :=
  JObj [("id", JStr ("/subscriptions/s1/providers/Microsoft.Fabric/capacities/" ++ name));
        ("name", JStr name);
        ("properties", JObj [("state", JStr state)]);
        ("sku", JObj [("name", JStr skuName)])].

Definition capacity (name state skuName : string) : Capacity :=
  {| cap_id := Some ("/subscriptions/s1/providers/Microsoft.Fabric/capacities/" ++ name);
     cap_name := Some name;
     cap_state := Some state;
     cap_sku := Some skuName;
     cap_subscriptionId := "s1";
     cap_displayName := name ++ " (" ++ state ++ ")" |}.

Definition capA : Capacity := capacity "A" "Active" "F2".
Definition capB : Capacity := capacity "B" "Paused" "F4".
Definition capC : Capacity := capacity "C" "Active" "F8".

Definition subscriptionsJson : Json :=
  JObj [("value", JArr [JObj [("subscriptionId", JStr "s1"); ("displayName", JStr "One")];
                        JObj [("subscriptionId", JStr "s2"); ("displayName", JStr "Two")]])].

Definition listJson (items : list Json) : Json := JObj [("value", JArr items)].

(** The toy parser: the body [subs] is the list of subscriptions, [CAB] the
    capacities C, A, B in that order, [AC] the capacities A and C, [B] the
    capacity B alone, [claims] the payload of a token. *)
Definition parse (s : string) : option Json :=
  if String.eqb s "subs" then Some subscriptionsJson
  else if String.eqb s "CAB" then
    Some (listJson [capacityJson "C" "Active" "F8"; capacityJson "A" "Active" "F2";
                    capacityJson "B" "Paused" "F4"])
  else if String.eqb s "AC" then
    Some (listJson [capacityJson "A" "Active" "F2"; capacityJson "C" "Active" "F8"])
  else if String.eqb s "B" then Some (listJson [capacityJson "B" "Paused" "F4"])
  else if String.eqb s "{}" then Some (JObj [])
  else if String.eqb s "claims" then Some (JObj [("tid", JStr "t1"); ("upn", JStr "u@contoso.com")])
  else None.

Definition placeholder : OptionEl :=
  {| opt_value := ""; opt_text := "Select a capacity..."; opt_disabled := false;
     opt_className := "" |}.

(** The drop-down of popup.html. *)
Definition emptySelect : SelectEl :=
  {| sel_options := [placeholder]; sel_selected := Some 0%nat; sel_disabled := false |}.

(** The popup as [initializeElements] leaves it, signed in, nothing loaded. *)
Definition fresh : World :=
  {| mgr := {| accessToken := Some "tok0"; capacities := []; debugMode := true;
               initialLoadComplete := false; availableSkus := [] |};
     dom := {| logArea := Some []; capacitySelect := emptySelect;
               skuSelect := {| sel_options := []; sel_selected := None;
                               sel_disabled := false |};
               startButton_disabled := true; stopButton_disabled := true;
               refreshButton_disabled := false; updateSkuButton_disabled := true;
               loadingIndicator_display := "none"; skuContainer_display := "none";
               tenantInfo_display := "none"; tenantInfo_textContent := "";
               authWarning := false |};
     browser := {| storage := {| st_accessToken := None; st_tokenExpiry := None;
                                 st_sessionInfo := None |};
                   storage_lastError := None; now := 1700000000000;
                   entropy := [1; 2; 3; 4; 5; 6; 7; 8; 9; 10; 11; 12; 13; 14; 15; 16]%N;
                   confirms := []; timers := [];
                   redirectURL := "https://ext.chromiumapp.org/";
                   JSON_parse := parse;
                   encodeURIComponent := fun s => s;
                   decodeURIComponent := fun s => Some s |} |}.

(** The capacities A, B, C loaded and B chosen in the drop-down. *)
Definition loaded : World :=
  upd_dom (fun d =>
             set_startButton_disabled false
               (set_capacitySelect
                  (Select.setValue "1"
                     (fold_left
                        (fun s ic => Select.appendChild (capacityOption (fst ic) (snd ic)) s)
                        (indexed [capA; capB; capC]) emptySelect)) d))
    (upd_mgr (set_capacities [capA; capB; capC]) fresh).

Definition respond (status : Z) (text : string) : FetchReply :=
  Responded {| status := status; statusText := "-"; text := text |}.

(** The provider's answer that echoes [state] and carries a token. *)
Definition granted (state token : string) : AuthReply :=
  {| lastError := None;
     responseUrl :=
       Some {| href := "https://ext.chromiumapp.org/#";
               fragmentParams := Some [("state", state); ("access_token", token);
                                       ("expires_in", "3599")] |} |}.

(** The provider's refusal. *)
Definition denied : AuthReply :=
  {| lastError := Some (mkError "User interaction required."); responseUrl := None |}.

Definition script (fetches : list FetchReply) (auths : list AuthReply) : Script :=
  {| fetchReplies := fetches; authReplies := auths |}.

(** The same popup after a start of B that was answered with 401 and a
    sign-in that the user gave up: the capacities and the selection are
    still there, the token is gone. *)
Definition signedOut : World :=
  final (run (startCapacity loaded)
             (script [respond 401 "expired"] [denied; denied; denied])).

(** Two tokens that agree on their first hundred characters. *)
Definition tokenA : string := JsString.repeat "a" 100 ++ ".first".
Definition tokenB : string := JsString.repeat "a" 100 ++ ".second".

(** The store with the token replaced and the rest left as it is. *)
Definition overwriteToken (token : string) (w : World) : World :=
  upd_browser (fun b =>
    set_storage {| st_accessToken := Some token;
                   st_tokenExpiry := st_tokenExpiry (storage b);
                   st_sessionInfo := st_sessionInfo (storage b) |} b) w.

(** The popup after [cacheToken] has stored [token] for an hour. *)
Definition cached (token : string) : World :=
  final (run (cacheToken token (Some 3600%Z) fresh) (script [] [])).

(** The popup with a token in the store that expires in [remaining]
    milliseconds. *)
Definition expiring (remaining : Z) : World :=
  upd_browser (fun b =>
    set_storage {| st_accessToken := Some "tok0";
                   st_tokenExpiry := Some (JsNumber.toString (now b + remaining));
                   st_sessionInfo := None |} b) fresh.

(** The popup once the handler of the choice of B has run. *)
Definition chosen : World := final (run (onCapacitySelectionChange loaded) (script [] [])).

Definition popupOf (w : World) : Popup := {| world := w; pending := []; sentSoFar := [] |}.

End Sample.

(** * Vocabulary of the further properties *)

(** [expiresInSeconds || 3600]. *)
Definition lifetimeSeconds (expiresInSeconds : option Z) : Z :=
  match expiresInSeconds with
  | Some z => if (z =? 0)%Z then 3600%Z else z
  | None => 3600%Z
  end.

(** The world when the clock shows [t]. *)
Definition atTime (t : Z) (w : World) : World :=
  upd_browser (fun b =>
    {| storage := storage b; storage_lastError := storage_lastError b; now := t;
       entropy := entropy b; confirms := confirms b; timers := timers b;
       redirectURL := redirectURL b; JSON_parse := JSON_parse b;
       encodeURIComponent := encodeURIComponent b;
       decodeURIComponent := decodeURIComponent b |}) w.

(** The integers that a JavaScript number holds exactly
    ([Number.isSafeInteger]).  On them the sums, the products, the
    comparisons, [toString] and [parseInt] of the source are those of the
    integers; beyond them the source rounds, and prints with an exponent
    from [1e21] on. *)
Definition safeInteger (z : Z) : Prop := (- 2 ^ 53 < z < 2 ^ 53)%Z.

(** The numbers that [cacheToken] computes from the lifetime
    [expiresInSeconds] at the time of [w], and that [getCachedToken]
    computes from them, are exact: the clock, the lifetime in milliseconds,
    the expiry and the expiry less the two minutes of reserve. *)
Definition exactExpiry (expiresInSeconds : option Z) (w : World) : Prop :=
  safeInteger (now (browser w)) /\
  safeInteger (lifetimeSeconds expiresInSeconds * 1000) /\
  safeInteger (now (browser w) + lifetimeSeconds expiresInSeconds * 1000) /\
  safeInteger (now (browser w) + lifetimeSeconds expiresInSeconds * 1000 - 2 * 60 * 1000).

(** The message of the error that [makeApiCall] throws for a refused
    request. *)
Definition refusal (response : Response) : JsError :=
  if (status response =? 403)%Z then
    mkError
      ("Insufficient permissions to perform this operation." ++
       (if (JsString.includes "admin consent" (text response) ||
            JsString.includes "consent" (text response))%bool
        then " Admin consent may be required. Please contact your Azure administrator."
        else if (JsString.includes "RBAC" (text response) ||
                 JsString.includes "role" (text response))%bool
             then " You may need additional Azure RBAC permissions."
             else ""))
  else
    mkError ("API call failed: " ++ JsNumber.toString (status response) ++ " " ++
             statusText response).

(** [yields R s]: whenever the call [s] returns a value, whatever the
    replies and the worlds it is resumed in, the value satisfies [R]. *)
Fixpoint yields {A : Type} (R : A -> Prop) (s : Step A) : Prop :=
  match s with
  | Done (Ok a) _ => R a
  | Done _ _ => True
  | AwaitFetch _ _ k => forall r w', yields R (k r w')
  | AwaitAuth _ _ k => forall r w', yields R (k r w')
  | Spawn _ k => forall w', yields R (k w')
  end.

(** What [getCapacitiesForSubscription] adds to an entry of the list. *)
Definition tagged (subscriptionId : string) (c : Capacity) : Prop :=
  cap_subscriptionId c = subscriptionId /\
  cap_displayName c = JsValue.show (cap_name c) ++ " (" ++ stateOf c ++ ")".

Definition capacitiesUrl (subscriptionId : string) : string :=
  baseUrl ++ "/subscriptions/" ++ subscriptionId ++
  "/providers/Microsoft.Fabric/capacities?api-version=" ++ fabricApiVersion.

Definition validationRequest (token : string) : FetchRequest :=
  {| rq_url := baseUrl ++ "/subscriptions?api-version=" ++ subscriptionApiVersion ++ "&$top=1";
     rq_method := "GET"; rq_authorization := bearer (Some token); rq_body := None |}.

(** [capacitySelect.value = v], as the user's choice or an assignment makes
    it. *)
Definition choose (v : string) (w : World) : World :=
  upd_dom (fun d => set_capacitySelect (Select.setValue v (capacitySelect d)) d) w.

(** The list of [loadAvailableSkus]. *)
Definition fabricSkus : list Sku :=
  [sku "F2" "F2 (2 vCores, 4 GB RAM)" "Small workloads";
   sku "F4" "F4 (4 vCores, 8 GB RAM)" "Development and testing";
   sku "F8" "F8 (8 vCores, 16 GB RAM)" "Light production workloads";
   sku "F16" "F16 (16 vCores, 32 GB RAM)" "Medium production workloads";
   sku "F32" "F32 (32 vCores, 64 GB RAM)" "Heavy production workloads";
   sku "F64" "F64 (64 vCores, 128 GB RAM)" "Enterprise workloads";
   sku "F128" "F128 (128 vCores, 256 GB RAM)" "Large enterprise workloads";
   sku "F256" "F256 (256 vCores, 512 GB RAM)" "Very large enterprise workloads";
   sku "F512" "F512 (512 vCores, 1024 GB RAM)" "Maximum capacity workloads"].

(** The SKU drop-down that [populateSkuDropdown] builds for [c]. *)
Definition skuOptions (c : Capacity) (skus : list Sku) (s : SelectEl) : SelectEl :=
  {| sel_options :=
       {| opt_value := currentSkuOf c; opt_text := "Current: " ++ currentSkuOf c;
          opt_disabled := false; opt_className := "" |} ::
       {| opt_value := "-----------------"; opt_text := "-----------------";
          opt_disabled := true; opt_className := "" |} ::
       map (fun s =>
              {| opt_value := sku_name s;
                 opt_text := JsString.orElse (Some (sku_displayName s)) (sku_name s);
                 opt_disabled := false; opt_className := "" |})
           (filter (fun s => negb (String.eqb (sku_name s) (currentSkuOf c))) skus);
     sel_selected := Some 0%nat;
     sel_disabled := sel_disabled s |}.

(** The world after the handler of a choice of [c]. *)
Definition afterChoice (c : Capacity) (w : World) : World :=
  debugged ("Capacity details: " ++ cap_displayName c)
    (appendLine
       (Line false ("Selected capacity: " ++ JsValue.show (cap_name c) ++ " (" ++
                    stateOf c ++ ") - SKU: " ++ currentSkuOf c))
       (debugged ("Populated SKU dropdown with current SKU: " ++ currentSkuOf c)
          (upd_dom (set_updateSkuButton_disabled true)
             (upd_dom (fun d => set_skuSelect (skuOptions c fabricSkus (skuSelect d)) d)
                (debugged "Loaded 9 available SKUs"
                   (upd_mgr (set_availableSkus fabricSkus)
                      (debugged "Loading available SKUs..."
                         (upd_dom (set_skuContainer_display "block")
                            (upd_dom (set_stopButton_disabled
                                        (String.eqb (stateOf c) "Paused"))
                               (upd_dom (set_startButton_disabled
                                           (String.eqb (stateOf c) "Active")) w)))))))))).

(** The request of [updateCapacitySku] for the SKU [selectedSku]. *)
Definition resizeRequest (c : Capacity) (selectedSku : string) (w : World) : FetchRequest :=
  {| rq_url := baseUrl ++ JsValue.show (cap_id c) ++ "?api-version=" ++ fabricApiVersion;
     rq_method := "PATCH";
     rq_authorization := bearer (accessToken (mgr w));
     rq_body := Some (JObj [("sku", JObj [("name", JStr selectedSku)])]) |}.

(** The popup once the handler of a start, a stop or a resize has restored
    the buttons for the capacity [c]. *)
Definition restored (c : Capacity) (w : World) : World :=
  upd_dom (set_refreshButton_disabled false) (afterChoice c w).

(** The URL of the subscription listing. *)
Definition subscriptionsUrl : string :=
  baseUrl ++ "/subscriptions?api-version=" ++ subscriptionApiVersion.




(** The world after the question of [updateCapacitySku], which is asked
    for an Active capacity only. *)
Definition asked (c : Capacity) (w : World) : World :=
  if String.eqb (stateOf c) "Active"
  then upd_browser (fun b => set_confirms (tl (confirms b)) b) w
  else w.

(** What [extractTokenFromUrl] makes of a fragment that carries [token]. *)
Definition grant (params : list (string * string)) (token : string) : TokenInfo :=
  {| ti_accessToken := token;
     ti_expiresIn :=
       match paramsGet "expires_in" params with
       | Some (String _ _ as e) => JsNumber.parseInt e
       | _ => Some 3600%Z
       end;
     ti_tokenType := paramsGet "token_type" params |}.

(** ** Further sample data *)

Module Scene.

(** The fragment of a redirect that echoes the state [abc] and carries a
    token without a lifetime. *)
Definition answer : ResponseUrl :=
  {| href := "https://ext.chromiumapp.org/#state=abc&access_token=tok1";
     fragmentParams := Some [("state", "abc"); ("access_token", "tok1")] |}.

(** The sample popup with B chosen and the SKU F8 picked for it. *)
Definition resizing : World :=
  upd_dom (fun d => set_skuSelect (Select.setValue "F8" (skuSelect d)) d) Sample.chosen.

(** The sample popup while a load is in progress. *)
Definition loading : World :=
  upd_dom (set_loadingIndicator_display "block") Sample.loaded.

(** The popup with no token in memory and an empty store. *)
Definition signedOff : World := upd_mgr (set_accessToken None) Sample.fresh.

(** The popup with [tok1] in the store, fingerprinted, for an hour. *)
Definition fingerprinted : World :=
  upd_browser
    (set_storage
       {| st_accessToken := Some "tok1";
          st_tokenExpiry := Some "1700003600000";
          st_sessionInfo :=
            Some {| cachedAt := 1700000000000; tenantId := None;
                    userPrincipalName := None;
                    tokenHash := generateTokenHash "tok1" |} |})
    Sample.signedOut.

(** The sample popup with a store that fails. *)
Definition unwritable : World :=
  upd_browser (fun b =>
    {| storage := storage b; storage_lastError := Some "QUOTA_BYTES quota exceeded";
       now := now b; entropy := entropy b; confirms := confirms b; timers := timers b;
       redirectURL := redirectURL b; JSON_parse := JSON_parse b;
       encodeURIComponent := encodeURIComponent b;
       decodeURIComponent := decodeURIComponent b |}) Sample.fresh.

End Scene.

(** * Properties *)

(** ** Runs of composed calls *)

Lemma run_eta {A} (r : Run A) :
  {| outcome := outcome r; final := final r; rest := rest r; issued := issued r |} = r.
Proof. destruct r; reflexivity. Qed.

Lemma andThen_sent {A B} i (r : Run A) (g : A -> World -> Script -> Run B) :
  andThen (sent i r) g = sent i (andThen r g).
Proof. destruct r as [[a | e |] w sc t]; reflexivity. Qed.

Lemma orCatch_sent {A} i (r : Run A) h : orCatch (sent i r) h = sent i (orCatch r h).
Proof. destruct r as [[a | e |] w sc t]; reflexivity. Qed.

Lemma run_bindStep {A B} (s : Step A) (f : A -> Async B) sc :
  run (bindStep s f) sc = andThen (run s sc) (fun a w sc' => run (f a w) sc').
Proof.
  revert B f sc. induction s as [A o w | A rq w k IH | A rq w k IH | A c _ k IH]; intros B f sc.
  - destruct o; simpl; unfold andThen; simpl; auto. symmetry; apply run_eta.
  - simpl. destruct (fetchReplies sc); [reflexivity|].
    rewrite IH, andThen_sent. reflexivity.
  - simpl. destruct (authReplies sc); [reflexivity|].
    rewrite IH, andThen_sent. reflexivity.
  - simpl. destruct (firstPhase c) as [w1 t1]. rewrite IH.
    destruct (run (k w1) sc) as [[a | e |] w' sc' t]; unfold andThen; simpl; auto.
    now rewrite app_assoc.
Qed.

Lemma run_bind {A B} (m : Async A) (f : A -> Async B) w sc :
  run (bind m f w) sc = andThen (run (m w) sc) (fun a w' sc' => run (f a w') sc').
Proof. apply run_bindStep. Qed.

Lemma run_catchStep {A} (s : Step A) (h : JsError -> Async A) sc :
  run (catchStep s h) sc = orCatch (run s sc) (fun e w sc' => run (h e w) sc').
Proof.
  revert h sc. induction s as [A o w | A rq w k IH | A rq w k IH | A c _ k IH]; intros h sc.
  - destruct o; simpl; unfold orCatch; simpl; auto. symmetry; apply run_eta.
  - simpl. destruct (fetchReplies sc); [reflexivity|].
    rewrite IH, orCatch_sent. reflexivity.
  - simpl. destruct (authReplies sc); [reflexivity|].
    rewrite IH, orCatch_sent. reflexivity.
  - simpl. destruct (firstPhase c) as [w1 t1]. rewrite IH.
    destruct (run (k w1) sc) as [[a | e |] w' sc' t]; unfold orCatch; simpl; auto.
    now rewrite app_assoc.
Qed.

Lemma run_tryCatch {A} (m : Async A) h w sc :
  run (tryCatch m h w) sc = orCatch (run (m w) sc) (fun e w' sc' => run (h e w') sc').
Proof. apply run_catchStep. Qed.

Lemma run_finallyStep {A} (s : Step A) (fin : Async unit) sc :
  run (finallyStep s fin) sc =
  let r := run s sc in
  match outcome r with
  | Hang => r
  | o =>
      let f := run (fin (final r)) (rest r) in
      {| outcome := match outcome f with
                    | Ok _ => o
                    | Throw e => Throw e
                    | Hang => Hang
                    end;
         final := final f; rest := rest f; issued := (issued r ++ issued f)%list |}
  end.
Proof.
  revert sc. induction s as [A o w | A rq w k IH | A rq w k IH | A c _ k IH]; intros sc.
  - destruct o as [a | e |]; simpl; auto.
    + rewrite run_bindStep. unfold andThen.
      destruct (run (fin w) sc) as [[[] | e |] w' sc' t]; simpl;
        rewrite ?app_nil_r; reflexivity.
    + rewrite run_bindStep. unfold andThen.
      destruct (run (fin w) sc) as [[[] | e' |] w' sc' t]; simpl;
        rewrite ?app_nil_r; reflexivity.
  - simpl. destruct (fetchReplies sc); [reflexivity|]. rewrite IH.
    destruct (run (k f w) _) as [[a | e |] w' sc' t]; reflexivity.
  - simpl. destruct (authReplies sc); [reflexivity|]. rewrite IH.
    destruct (run (k a w) _) as [[x | e |] w' sc' t]; reflexivity.
  - simpl. destruct (firstPhase c) as [w1 t1]. rewrite IH.
    destruct (run (k w1) sc) as [[x | e |] w' sc' t]; simpl; auto;
      now rewrite app_assoc.
Qed.

(** ** Invariants of a call *)

Section Obeys.
Variable P : World -> Prop.
Variable Q : Issued -> Prop.

Lemma obeys_bindStep {A B} (s : Step A) (f : A -> Async B) :
  obeys P Q s -> (forall a, Obeys P Q (f a)) -> obeys P Q (bindStep s f).
Proof.
  revert B f. induction s as [A o w | A rq w k IH | A rq w k IH | A c _ k IH];
    intros B f Hs Hf; simpl in *.
  - destruct o; simpl; auto. now apply Hf.
  - destruct Hs as (? & ? & ?); repeat split; auto.
  - destruct Hs as (? & ? & ?); repeat split; auto.
  - destruct Hs; split; auto.
Qed.

Lemma obeys_catchStep {A} (s : Step A) (h : JsError -> Async A) :
  obeys P Q s -> (forall e, Obeys P Q (h e)) -> obeys P Q (catchStep s h).
Proof.
  revert h. induction s as [A o w | A rq w k IH | A rq w k IH | A c _ k IH];
    intros h Hs Hh; simpl in *.
  - destruct o; simpl; auto. now apply Hh.
  - destruct Hs as (? & ? & ?); repeat split; auto.
  - destruct Hs as (? & ? & ?); repeat split; auto.
  - destruct Hs; split; auto.
Qed.

Lemma obeys_finallyStep {A} (s : Step A) (fin : Async unit) :
  obeys P Q s -> Obeys P Q fin -> obeys P Q (finallyStep s fin).
Proof.
  induction s as [A o w | A rq w k IH | A rq w k IH | A c _ k IH];
    intros Hs Hf; simpl in *.
  - destruct o; simpl; auto; apply obeys_bindStep; auto; intros ? ? ?; assumption.
  - destruct Hs as (? & ? & ?); repeat split; auto.
  - destruct Hs as (? & ? & ?); repeat split; auto.
  - destruct Hs; split; auto.
Qed.

Lemma Obeys_ret {A} (a : A) : Obeys P Q (ret a).
Proof. intros w Hw; exact Hw. Qed.

Lemma Obeys_throw {A} e : Obeys P Q (@throw A e).
Proof. intros w Hw; exact Hw. Qed.

Lemma Obeys_hang {A} : Obeys P Q (@hang A).
Proof. intros w Hw; exact Hw. Qed.

Lemma Obeys_get : Obeys P Q get.
Proof. intros w Hw; exact Hw. Qed.

Lemma Obeys_bind {A B} (m : Async A) (f : A -> Async B) :
  Obeys P Q m -> (forall a, Obeys P Q (f a)) -> Obeys P Q (bind m f).
Proof. intros Hm Hf w Hw. apply obeys_bindStep; auto. Qed.

Lemma Obeys_tryCatch {A} (m : Async A) h :
  Obeys P Q m -> (forall e, Obeys P Q (h e)) -> Obeys P Q (tryCatch m h).
Proof. intros Hm Hh w Hw. apply obeys_catchStep; auto. Qed.

Lemma Obeys_tryFinally {A} (m : Async A) fin :
  Obeys P Q m -> Obeys P Q fin -> Obeys P Q (tryFinally m fin).
Proof. intros Hm Hf w Hw. apply obeys_finallyStep; auto. Qed.

Lemma Obeys_settle {A} (m : Async (Settled A)) : Obeys P Q m -> Obeys P Q (settle m).
Proof.
  intros Hm w Hw. unfold settle. apply obeys_bindStep.
  - apply obeys_catchStep; auto. intros e; apply Obeys_hang.
  - intros [a | e]; [apply Obeys_ret | apply Obeys_throw].
Qed.

Lemma Obeys_fetch rq : Q (IssuedFetch rq) -> Obeys P Q (fetch rq).
Proof. intros Hq w Hw; simpl; repeat split; auto. intros [r | e] w' Hw'; exact Hw'. Qed.

Lemma Obeys_launchWebAuthFlow rq : Q (IssuedAuth rq) -> Obeys P Q (launchWebAuthFlow rq).
Proof. intros Hq w Hw; simpl; repeat split; auto. Qed.

Lemma Obeys_spawn (c : Async unit) : Obeys P Q c -> Obeys P Q (spawn c).
Proof. intros Hc w Hw; simpl; split; auto. Qed.

Lemma Obeys_when b (m : Async unit) : Obeys P Q m -> Obeys P Q (when b m).
Proof. destruct b; simpl; auto using Obeys_ret. Qed.

Lemma Obeys_forOf {X} (xs : list X) body :
  (forall x, Obeys P Q (body x)) -> Obeys P Q (forOf xs body).
Proof.
  intros Hb. induction xs; simpl; [apply Obeys_ret|].
  apply Obeys_bind; auto.
Qed.

Lemma Obeys_mapM {X Y} (f : X -> Async Y) l :
  (forall x, Obeys P Q (f x)) -> Obeys P Q (mapM f l).
Proof.
  intros Hf. induction l; simpl; [apply Obeys_ret|].
  apply Obeys_bind; auto. intros y. apply Obeys_bind; auto. intros ys. apply Obeys_ret.
Qed.

Lemma Obeys_modify f : (forall w, P w -> P (f w)) -> Obeys P Q (modify f).
Proof. intros Hf w Hw. simpl. auto. Qed.

Lemma obeys_firstPhase {A} (s : Step A) :
  obeys P Q s -> P (fst (firstPhase s)) /\ Forall Q (snd (firstPhase s)).
Proof.
  induction s as [A o w | A rq w k IH | A rq w k IH | A c IHc k IH]; simpl; intros Hs.
  - auto.
  - destruct Hs as (? & ? & ?); auto.
  - destruct Hs as (? & ? & ?); auto.
  - destruct Hs as [Hc Hk]. specialize (IHc Hc).
    destruct (firstPhase c) as [w1 t1]; simpl in *. destruct IHc as [P1 Q1].
    specialize (IH w1 (Hk w1 P1)).
    destruct (firstPhase (k w1)) as [w2 t2]; simpl in *. destruct IH as [P2 Q2].
    split; auto. apply Forall_app; auto.
Qed.

Lemma obeys_run {A} (s : Step A) sc :
  obeys P Q s -> P (final (run s sc)) /\ Forall Q (issued (run s sc)).
Proof.
  revert sc. induction s as [A o w | A rq w k IH | A rq w k IH | A c IHc k IH];
    simpl; intros sc Hs.
  - auto.
  - destruct Hs as (Hw & Hq & Hk). destruct (fetchReplies sc); simpl; auto.
    destruct (IH f w {| fetchReplies := l; authReplies := authReplies sc |} (Hk f w Hw)); auto.
  - destruct Hs as (Hw & Hq & Hk). destruct (authReplies sc); simpl; auto.
    destruct (IH a w {| fetchReplies := fetchReplies sc; authReplies := l |} (Hk a w Hw));
      auto.
  - destruct Hs as [Hc Hk]. destruct (obeys_firstPhase c Hc) as [P1 Q1].
    destruct (firstPhase c) as [w1 t1]; simpl in *.
    destruct (IH w1 sc (Hk w1 P1)). split; auto. apply Forall_app; auto.
Qed.

End Obeys.

(** A call that sends nothing to the network leaves the scripted replies of
    the network where they are. *)
Lemma obeys_run_fetchReplies {A} P (s : Step A) sc :
  obeys P (fun i => isFetch i = false) s ->
  fetchReplies (rest (run s sc)) = fetchReplies sc.
Proof.
  revert sc. induction s as [A o w | A rq w k IH | A rq w k IH | A c IHc k IH];
    simpl; intros sc Hs.
  - reflexivity.
  - destruct Hs as (_ & Hq & _). discriminate.
  - destruct Hs as (Hw & _ & Hk). destruct (authReplies sc); simpl; auto.
    now rewrite IH by auto.
  - destruct Hs as [Hc Hk]. destruct (obeys_firstPhase P _ c Hc) as [P1 _].
    destruct (firstPhase c) as [w1 t1]; simpl in *. apply IH; auto.
Qed.

(** ** Where a call ends *)

Lemma ends_bindStep {A B} (s : Step A) (f : A -> Async B) sc post :
  match outcome (run s sc) with
  | Ok a => ends (f a (final (run s sc))) (rest (run s sc)) post
  | Throw e => post (Throw e) (final (run s sc)) (rest (run s sc))
  | Hang => post Hang (final (run s sc)) (rest (run s sc))
  end ->
  ends (bindStep s f) sc post.
Proof.
  unfold ends. rewrite run_bindStep. unfold andThen.
  destruct (run s sc) as [[a | e |] w1 sc1 t1]; simpl; auto.
Qed.

Lemma ends_catchStep {A} (s : Step A) (h : JsError -> Async A) sc post :
  match outcome (run s sc) with
  | Throw e => ends (h e (final (run s sc))) (rest (run s sc)) post
  | o => post o (final (run s sc)) (rest (run s sc))
  end ->
  ends (catchStep s h) sc post.
Proof.
  unfold ends. rewrite run_catchStep. unfold orCatch.
  destruct (run s sc) as [[a | e |] w1 sc1 t1]; simpl; auto.
Qed.

Lemma ends_finallyStep {A} (s : Step A) (fin : Async unit) sc post :
  match outcome (run s sc) with
  | Hang => post Hang (final (run s sc)) (rest (run s sc))
  | o =>
      ends (fin (final (run s sc))) (rest (run s sc))
        (fun o' w' sc' =>
           post match o' with
                | Ok _ => o
                | Throw e => Throw e
                | Hang => Hang
                end w' sc')
  end ->
  ends (finallyStep s fin) sc post.
Proof.
  unfold ends. rewrite run_finallyStep.
  destruct (run s sc) as [[a | e |] w1 sc1 t1]; simpl; auto.
Qed.

Lemma ends_Done {A} (o : Outcome A) w sc (post : Outcome A -> World -> Script -> Prop) :
  post o w sc -> ends (Done o w) sc post.
Proof. exact (fun H => H). Qed.

(** A step that ends at once. *)
Lemma ends_bind_Done {A B} (m : Async A) (f : A -> Async B) w a w' sc post :
  m w = Done (Ok a) w' -> ends (f a w') sc post -> ends (bind m f w) sc post.
Proof. intros E H. unfold bind. rewrite E. exact H. Qed.

(** ** What a call to the network layer leaves alone *)

Lemma frame_refl w : frame w w.
Proof. unfold frame; repeat split. Qed.

Lemma frame_log_ready w0 w : frame w0 w -> log_ready w0 -> log_ready w.
Proof.
  unfold frame, log_ready. intros (_ & Hd & _ & _ & Hl & _) H0 Hdm.
  rewrite Hd in Hdm. specialize (H0 Hdm).
  destruct (logArea (dom w)), (logArea (dom w0)); simpl in *; congruence.
Qed.

Ltac frame_modify :=
  let w := fresh "w" in
  let H := fresh "H" in
  let E := fresh "E" in
  intros w H; unfold frame in *; unfold appendLine, addLine;
  destruct (logArea (dom w)) eqn:E;
  repeat match goal with
         | |- context [match ?x with _ => _ end] => destruct x eqn:?
         end;
  simpl in *; rewrite ?E; simpl; intuition congruence.

Ltac keeps_step :=
  cbv beta zeta;
  match goal with
  | |- forall _, _ => intro
  | |- Obeys _ _ (bind _ _) => apply Obeys_bind
  | |- Obeys _ _ (tryCatch _ _) => apply Obeys_tryCatch
  | |- Obeys _ _ (tryFinally _ _) => apply Obeys_tryFinally
  | |- Obeys _ _ (settle _) => apply Obeys_settle
  | |- Obeys _ _ (ret _) => apply Obeys_ret
  | |- Obeys _ _ (throw _) => apply Obeys_throw
  | |- Obeys _ _ hang => apply Obeys_hang
  | |- Obeys _ _ get => apply Obeys_get
  | |- Obeys _ _ (fetch _) => apply Obeys_fetch; solve [exact I | reflexivity]
  | |- Obeys _ _ (launchWebAuthFlow _) => apply Obeys_launchWebAuthFlow; solve [exact I | split; reflexivity]
  | |- Obeys _ _ (spawn _) => apply Obeys_spawn
  | |- Obeys _ _ (when _ _) => apply Obeys_when
  | |- Obeys _ _ (forOf _ _) => apply Obeys_forOf
  | |- Obeys _ _ (mapM _ _) => apply Obeys_mapM
  | |- Obeys _ _ (modify _) => apply Obeys_modify; first [exact (fun _ _ => I) | frame_modify]
  | |- Obeys _ _ (match ?x with _ => _ end) => destruct x
  | |- Obeys _ _ _ => solve [auto with keeps]
  end.

Ltac keeps_auto := repeat keeps_step.

Create HintDb keeps.

Section Frame.
Variable w0 : World.

Lemma debugLog_keeps msg : Obeys (frame w0) (fun _ => True) (debugLog msg).
Proof.
  intros w H. unfold debugLog. destruct (debugMode (mgr w)); [|exact H].
  destruct (logArea (dom w)) eqn:E; [|exact H].
  simpl. unfold frame, appendLine, addLine in *. simpl.
  rewrite E in *. simpl in *. intuition.
Qed.
Hint Resolve debugLog_keeps : keeps.

Lemma log_keeps msg : Obeys (frame w0) (fun _ => True) (log msg).
Proof. unfold log. keeps_auto. Qed.

Lemma logError_keeps msg e : Obeys (frame w0) (fun _ => True) (logError msg e).
Proof. unfold logError. keeps_auto. Qed.

Lemma logSuccess_keeps msg : Obeys (frame w0) (fun _ => True) (logSuccess msg).
Proof.
  intros w H. unfold logSuccess.
  destruct (logArea (dom w)) eqn:E; [|exact H].
  simpl. unfold frame, appendLine, addLine in *. simpl.
  rewrite E in *. simpl in *. intuition.
Qed.

Lemma showLoading_keeps b : Obeys (frame w0) (fun _ => True) (showLoading b).
Proof. unfold showLoading. keeps_auto. Qed.
Hint Resolve log_keeps logError_keeps logSuccess_keeps showLoading_keeps : keeps.

Lemma decodeJwtToken_keeps token : Obeys (frame w0) (fun _ => True) (decodeJwtToken token).
Proof. unfold decodeJwtToken. keeps_auto. Qed.
Hint Resolve decodeJwtToken_keeps : keeps.

Lemma generateState_keeps : Obeys (frame w0) (fun _ => True) generateState.
Proof. intros w H. unfold generateState; simpl. revert H; unfold frame; simpl; intuition. Qed.
Hint Resolve generateState_keeps : keeps.

Lemma getCachedToken_keeps : Obeys (frame w0) (fun _ => True) getCachedToken.
Proof. unfold getCachedToken. keeps_auto. Qed.

Lemma clearCachedAuth_keeps : Obeys (frame w0) (fun _ => True) clearCachedAuth.
Proof. unfold clearCachedAuth. keeps_auto. Qed.

Lemma cacheToken_keeps token e : Obeys (frame w0) (fun _ => True) (cacheToken token e).
Proof. unfold cacheToken. keeps_auto. Qed.
Hint Resolve getCachedToken_keeps clearCachedAuth_keeps cacheToken_keeps : keeps.

Lemma extractTokenFromUrl_keeps u st : Obeys (frame w0) (fun _ => True) (extractTokenFromUrl u st).
Proof. unfold extractTokenFromUrl. keeps_auto. Qed.
Hint Resolve extractTokenFromUrl_keeps : keeps.

Lemma attemptOAuth2WithScope_keeps s : Obeys (frame w0) (fun _ => True) (attemptOAuth2WithScope s).
Proof. unfold attemptOAuth2WithScope. keeps_auto. Qed.

Lemma attemptSilentAuthWithScope_keeps s : Obeys (frame w0) (fun _ => True) (attemptSilentAuthWithScope s).
Proof. unfold attemptSilentAuthWithScope. keeps_auto. Qed.
Hint Resolve attemptOAuth2WithScope_keeps attemptSilentAuthWithScope_keeps : keeps.

Lemma performSilentAuth_keeps : Obeys (frame w0) (fun _ => True) performSilentAuth.
Proof. unfold performSilentAuth. keeps_auto. Qed.

Lemma performOAuth2Flow_keeps : Obeys (frame w0) (fun _ => True) performOAuth2Flow.
Proof. unfold performOAuth2Flow. keeps_auto. Qed.
Hint Resolve performSilentAuth_keeps performOAuth2Flow_keeps : keeps.

Lemma handleTokenExpiry_keeps : Obeys (frame w0) (fun _ => True) handleTokenExpiry.
Proof. unfold handleTokenExpiry. keeps_auto. Qed.

Lemma validateToken_keeps t : Obeys (frame w0) (fun _ => True) (validateToken t).
Proof. unfold validateToken. keeps_auto. Qed.

Lemma showTenant_keeps t : Obeys (frame w0) (fun _ => True) (showTenant t).
Proof. unfold showTenant. keeps_auto. Qed.
Hint Resolve handleTokenExpiry_keeps validateToken_keeps showTenant_keeps : keeps.

Lemma updateTenantDisplayFromToken_keeps t : Obeys (frame w0) (fun _ => True) (updateTenantDisplayFromToken t).
Proof. unfold updateTenantDisplayFromToken. keeps_auto. Qed.

Lemma getUserInfo_keeps : Obeys (frame w0) (fun _ => True) getUserInfo.
Proof. unfold getUserInfo. keeps_auto. Qed.

Lemma checkTokenCapabilities_keeps : Obeys (frame w0) (fun _ => True) checkTokenCapabilities.
Proof. unfold checkTokenCapabilities. keeps_auto. Qed.
Hint Resolve updateTenantDisplayFromToken_keeps getUserInfo_keeps
  checkTokenCapabilities_keeps : keeps.

Lemma updateTenantAndUserDisplay_keeps t : Obeys (frame w0) (fun _ => True) (updateTenantAndUserDisplay t).
Proof. unfold updateTenantAndUserDisplay. keeps_auto. Qed.

Lemma setTimeout_keeps task d : Obeys (frame w0) (fun _ => True) (setTimeout task d).
Proof. unfold setTimeout. keeps_auto. Qed.
Hint Resolve updateTenantAndUserDisplay_keeps setTimeout_keeps : keeps.

Lemma authenticate_keeps : Obeys (frame w0) (fun _ => True) authenticate.
Proof. unfold authenticate. keeps_auto. Qed.

Lemma parseBody_keeps t : Obeys (frame w0) (fun _ => True) (parseBody t).
Proof. unfold parseBody. keeps_auto. Qed.
Hint Resolve authenticate_keeps parseBody_keeps : keeps.

Lemma afterRetry_keeps m a b r : Obeys (frame w0) (fun _ => True) (afterRetry m a b r).
Proof. unfold afterRetry. keeps_auto. Qed.
Hint Resolve afterRetry_keeps : keeps.

Lemma makeApiCall_keeps url m b : Obeys (frame w0) (fun _ => True) (makeApiCall url m b).
Proof. unfold makeApiCall. keeps_auto. Qed.
Hint Resolve makeApiCall_keeps : keeps.

Lemma valueArray_keeps j : Obeys (frame w0) (fun _ => True) (valueArray j).
Proof. unfold valueArray. keeps_auto. Qed.

Lemma capacityOfJson_keeps s j : Obeys (frame w0) (fun _ => True) (capacityOfJson s j).
Proof. unfold capacityOfJson. keeps_auto. Qed.
Hint Resolve valueArray_keeps capacityOfJson_keeps : keeps.

Lemma getSubscriptions_keeps : Obeys (frame w0) (fun _ => True) getSubscriptions.
Proof. unfold getSubscriptions. keeps_auto. Qed.

Lemma getCapacitiesForSubscription_keeps s : Obeys (frame w0) (fun _ => True) (getCapacitiesForSubscription s).
Proof. unfold getCapacitiesForSubscription. keeps_auto. Qed.

End Frame.

#[global] Hint Resolve
  debugLog_keeps
  log_keeps
  logError_keeps
  logSuccess_keeps
  showLoading_keeps
  decodeJwtToken_keeps
  generateState_keeps
  getCachedToken_keeps
  clearCachedAuth_keeps
  cacheToken_keeps
  extractTokenFromUrl_keeps
  attemptOAuth2WithScope_keeps
  attemptSilentAuthWithScope_keeps
  performSilentAuth_keeps
  performOAuth2Flow_keeps
  handleTokenExpiry_keeps
  validateToken_keeps
  showTenant_keeps
  updateTenantDisplayFromToken_keeps
  getUserInfo_keeps
  checkTokenCapabilities_keeps
  updateTenantAndUserDisplay_keeps
  setTimeout_keeps
  authenticate_keeps
  parseBody_keeps
  afterRetry_keeps
  makeApiCall_keeps
  valueArray_keeps
  capacityOfJson_keeps
  getSubscriptions_keeps
  getCapacitiesForSubscription_keeps : keeps.

(** ** Numerals *)

Lemma append_assoc' (a b c : string) : ((a ++ b) ++ c = a ++ (b ++ c))%string.
Proof. induction a; simpl; congruence. Qed.

Lemma toDigits_app fuel radix n acc :
  JsNumber.toDigits fuel radix n acc = (JsNumber.toDigits fuel radix n "" ++ acc)%string.
Proof.
  revert n acc. induction fuel as [|f IH]; intros n acc; simpl; [reflexivity|].
  destruct (n <? radix)%N; [reflexivity|].
  rewrite IH. rewrite (IH _ (String _ "")). now rewrite append_assoc'.
Qed.

Lemma substr_last_two p a b :
  JsString.substr_last 2 (p ++ String a (String b "")) = String a (String b "").
Proof.
  unfold JsString.substr_last.
  assert (L : (String.length (p ++ String a (String b "")) - 2 = String.length p)%nat).
  { induction p; simpl in *; [reflexivity|]. rewrite <- IHp.
    assert (2 <= String.length (p ++ String a (String b "")))%nat
      by (clear; induction p; simpl; lia).
    lia. }
  rewrite L. clear L. induction p; simpl; auto.
Qed.

Ltac N_div_mod := zify; Z.to_euclidean_division_equations; lia.

Lemma toDigits_S f radix n acc :
  JsNumber.toDigits (S f) radix n acc =
  if (n <? radix)%N then String (JsNumber.digitChar (n mod radix)) acc
  else JsNumber.toDigits f radix (n / radix) (String (JsNumber.digitChar (n mod radix)) acc).
Proof. reflexivity. Qed.

(** The two characters that a word contributes are the hexadecimal digits
    of its low byte. *)
Lemma stateChunk_low_byte dec :
  stateChunk dec =
  String (JsNumber.digitChar ((dec / 16) mod 16)) (String (JsNumber.digitChar (dec mod 16)) "").
Proof.
  unfold stateChunk, JsNumber.N_toString.
  destruct (N.ltb_spec dec 16) as [Hlt | Hge].
  - rewrite toDigits_S. apply N.ltb_lt in Hlt as Hb. rewrite Hb.
    rewrite (N.div_small dec 16 Hlt). reflexivity.
  - assert (Hlog : (4 <= N.log2 dec)%N) by (apply (N.log2_le_mono 16 dec); exact Hge).
    destruct (N.to_nat (N.log2 dec)) as [|f] eqn:Ef; [lia|].
    assert (Hb : (dec <? 16)%N = false) by (apply N.ltb_ge; exact Hge).
    rewrite toDigits_S, Hb, toDigits_S.
    assert (exists pre,
      (if (dec / 16 <? 16)%N
       then String (JsNumber.digitChar ((dec / 16) mod 16))
              (String (JsNumber.digitChar (dec mod 16)) "")
       else JsNumber.toDigits f 16 (dec / 16 / 16)
              (String (JsNumber.digitChar ((dec / 16) mod 16))
                 (String (JsNumber.digitChar (dec mod 16)) ""))) =
      (pre ++ String (JsNumber.digitChar ((dec / 16) mod 16))
                (String (JsNumber.digitChar (dec mod 16)) ""))%string) as [pre Hpre].
    { destruct (dec / 16 <? 16)%N.
      - exists ""%string. reflexivity.
      - rewrite toDigits_app. eexists. reflexivity. }
    rewrite Hpre.
    change ("0" ++ pre ++ ?x)%string with ((String "0" pre) ++ x)%string.
    apply substr_last_two.
Qed.

Lemma stateChunk_length dec : String.length (stateChunk dec) = 2%nat.
Proof. rewrite stateChunk_low_byte. reflexivity. Qed.

Lemma stateChunk_mod_256 dec : stateChunk (dec mod 256) = stateChunk dec.
Proof.
  rewrite !stateChunk_low_byte.
  assert (E1 : ((dec mod 256) mod 16 = dec mod 16)%N).
  { N_div_mod. }
  assert (E2 : (((dec mod 256) / 16) mod 16 = (dec / 16) mod 16)%N).
  { N_div_mod. }
  now rewrite E1, E2.
Qed.

Lemma length_append (a b : string) :
  String.length (a ++ b) = (String.length a + String.length b)%nat.
Proof. induction a; simpl; auto. Qed.

(** C10: whatever four words the random source hands out, [generateState]
    consumes exactly those four words and returns the state built from
    them: for each word, taken as a 32-bit value, the last two characters
    of its hexadecimal representation with a zero in front, joined in
    order.  That state has exactly eight characters and is the one built
    from the low bytes of the four words alone; hence two draws whose words
    agree in their low bytes give the same state, which so carries 32 of
    the 128 bits drawn. *)
Theorem generateState_thirty_two_bits :
  forall (w : World),
    let pool := entropy (browser w) in
    let word := fun i : nat => (nth i pool 0 mod 2 ^ 32)%N in
    let digits := fun dec : N =>
      JsString.substr_last 2 ("0" ++ JsNumber.N_toString 16 dec) in
    exists state : string,
      generateState w =
        Done (Ok state) (upd_browser (set_entropy (skipn 4 pool)) w) /\
      state = generateState_of [word 0; word 1; word 2; word 3]%nat /\
      state =
        (digits (word 0%nat) ++ digits (word 1%nat) ++
         digits (word 2%nat) ++ digits (word 3%nat))%string /\
      String.length state = 8%nat /\
      state =
        (digits (word 0%nat mod 256) ++ digits (word 1%nat mod 256) ++
         digits (word 2%nat mod 256) ++ digits (word 3%nat mod 256))%string%N /\
      (forall w2 : World,
          (forall i : nat, (i < 4)%nat ->
             (nth i (entropy (browser w2)) 0 mod 256 = nth i pool 0 mod 256)%N) ->
          exists w2', generateState w2 = Done (Ok state) w2').
Proof.
  intros w pool word digits.
  assert (Low : forall x y : N,
             (x mod 256 = y mod 256)%N ->
             stateChunk (x mod 2 ^ 32) = stateChunk (y mod 2 ^ 32)).
  { intros x y H.
    rewrite <- (stateChunk_mod_256 (x mod 2 ^ 32)), <- (stateChunk_mod_256 (y mod 2 ^ 32)).
    replace ((x mod 2 ^ 32) mod 256)%N with (x mod 256)%N by N_div_mod.
    replace ((y mod 2 ^ 32) mod 256)%N with (y mod 256)%N by N_div_mod.
    now rewrite H. }
  exists (generateState_of [word 0; word 1; word 2; word 3]%nat).
  split; [reflexivity|]. split; [reflexivity|].
  split; [reflexivity|].
  split; [unfold generateState_of; simpl;
          rewrite !length_append, !stateChunk_length; reflexivity|].
  split.
  - unfold generateState_of; simpl.
    change (digits ?x) with (stateChunk x).
    now rewrite !stateChunk_mod_256.
  - intros w2 H. eexists. unfold generateState. cbv zeta.
    unfold generateState_of.
    change [word 0; word 1; word 2; word 3]%nat with (map word [0; 1; 2; 3]%nat).
    rewrite !map_map.
    rewrite (map_ext_in _ (fun i => stateChunk (word i))); [reflexivity|].
    intros i Hi. apply Low, H. simpl in Hi. lia.
Qed.

(** ** Logging when the elements are bound *)

Lemma world_eta w :
  upd_dom (fun d => set_logArea (logArea d) d) w = w.
Proof. destruct w as [m d b]; destruct d; reflexivity. Qed.

Lemma debugLog_ready msg w :
  log_ready w -> debugLog msg w = Done (Ok tt) (debugged msg w).
Proof.
  unfold log_ready, debugLog, debugged, appendLine. intros H.
  destruct (debugMode (mgr w)); [|now rewrite world_eta].
  destruct (logArea (dom w)); [reflexivity|]. now elim H.
Qed.

Lemma present_addLine l area : present (addLine l area) = present area.
Proof. destruct area; reflexivity. Qed.

Lemma present_if_addLine (b : bool) l area :
  present (if b then addLine l area else area) = present area.
Proof. destruct b; [apply present_addLine | reflexivity]. Qed.

Lemma log_ready_present w :
  log_ready w <-> (debugMode (mgr w) = true -> present (logArea (dom w)) = true).
Proof.
  unfold log_ready. destruct (logArea (dom w)); simpl; split; intros H E;
    specialize (H E); congruence.
Qed.

(** Proves [log_ready] of a world built from one that is ready. *)
Ltac ready_simpl H :=
  repeat match goal with
         | x := _ : World |- _ => progress (unfold x in H |- *)
         end;
  unfold debugged, appendLine, upd_dom, upd_mgr, upd_browser in H |- *;
  simpl in H |- *;
  repeat first [rewrite present_addLine in H | rewrite present_if_addLine in H];
  repeat first [rewrite present_addLine | rewrite present_if_addLine].

Ltac ready :=
  match goal with
  | H : log_ready ?w0 |- log_ready _ =>
      let H' := fresh in
      pose proof (proj1 (log_ready_present w0) H) as H';
      apply log_ready_present;
      ready_simpl H';
      repeat (match goal with
              | E : present ?x = _ |- context [present ?x] => rewrite E
              end; ready_simpl H');
      exact H'
  end.

Lemma debugged_frame msg w : frame w (debugged msg w).
Proof.
  unfold debugged, frame; simpl. rewrite present_if_addLine. repeat split.
Qed.

Lemma debugged_ready msg w : log_ready w -> log_ready (debugged msg w).
Proof. intros H. ready. Qed.

Arguments debugLog : simpl never.
Arguments debugged : simpl never.
Arguments generateTokenHash : simpl never.
Arguments JsNumber.toString : simpl never.
Arguments JsNumber.parseInt : simpl never.
Arguments generateState_of : simpl never.

(** Evaluates a call symbolically: computes, follows the equations in the
    context, and steps over [debugLog]. *)
Ltac step_debugLog :=
  match goal with
  | |- context [debugLog ?m ?w] =>
      rewrite (debugLog_ready m w) by (solve [assumption | ready])
  end.

Ltac asimpl :=
  repeat (progress (simpl;
                    unfold ret, throw, hang, modify, get, bind, tryCatch, tryFinally,
                      settle, when)).

Ltac by_cases :=
  match goal with
  | |- context [match ?x with _ => _ end] => destruct x eqn:?
  end.

(** ** Cache reads *)

Lemma getCachedToken_expired w tokenExpiry expiresAt :
  log_ready w ->
  st_tokenExpiry (storage (browser w)) = Some tokenExpiry ->
  JsNumber.parseInt tokenExpiry = Some expiresAt ->
  (expiresAt - now (browser w) < 2 * 60 * 1000)%Z ->
  exists msg, getCachedToken w = Done (Ok None) (debugged msg w).
Proof.
  intros Hready Hexp Hparse Hlt.
  unfold getCachedToken, settle, bind, get. simpl.
  destruct (storage_lastError (browser w)); simpl.
  { step_debugLog. asimpl. eauto. }
  rewrite Hexp.
  destruct (st_accessToken (storage (browser w))) as [[|a0 a']|]; simpl;
    try (step_debugLog; asimpl; eauto; fail).
  destruct tokenExpiry as [|e0 e']; simpl;
    try (step_debugLog; asimpl; eauto; fail).
  destruct (st_sessionInfo (storage (browser w))) as [si|]; simpl.
  + destruct (String.eqb (tokenHash si) (generateTokenHash (String a0 a'))); simpl;
      try (step_debugLog; asimpl; eauto; fail).
    rewrite Hparse. simpl.
    replace (now (browser w) >=? expiresAt - 120000)%Z with true by lia.
    step_debugLog. asimpl. eauto.
  + rewrite Hparse. simpl.
    replace (now (browser w) >=? expiresAt - 120000)%Z with true by lia.
    step_debugLog. asimpl. eauto.
Qed.

Lemma Legacy_getCachedToken_expired w tokenExpiry expiresAt :
  log_ready w ->
  st_tokenExpiry (storage (browser w)) = Some tokenExpiry ->
  JsNumber.parseInt tokenExpiry = Some expiresAt ->
  (expiresAt - now (browser w) < 5 * 60 * 1000)%Z ->
  exists msg, Legacy.getCachedToken w = Done (Ok None) (debugged msg w).
Proof.
  intros Hready Hexp Hparse Hlt.
  unfold Legacy.getCachedToken, settle, bind, get. simpl.
  destruct (storage_lastError (browser w)); simpl.
  { step_debugLog. asimpl. eauto. }
  rewrite Hexp.
  destruct (st_accessToken (storage (browser w))) as [[|a0 a']|]; simpl;
    try (step_debugLog; asimpl; eauto; fail).
  destruct tokenExpiry as [|e0 e']; simpl;
    try (step_debugLog; asimpl; eauto; fail).
  rewrite Hparse. simpl.
  replace (now (browser w) >=? expiresAt - 300000)%Z with true by lia.
  step_debugLog. asimpl. eauto.
Qed.

(** C2 (for a mutation that the fingerprint sees): in a popup whose elements
    are bound, when a session record is stored and the fingerprint computed
    from the stored token differs from the one in the record,
    [getCachedToken] resolves null. *)
Theorem getCachedToken_fingerprint_guard :
  forall (w : World) (si : SessionInfo) (token : string),
    log_ready w ->
    st_sessionInfo (storage (browser w)) = Some si ->
    st_accessToken (storage (browser w)) = Some token ->
    generateTokenHash token <> tokenHash si ->
    exists msg, getCachedToken w = Done (Ok None) (debugged msg w).
Proof.
  intros w si token Hready Hsi Htok Hneq.
  unfold getCachedToken, settle, bind, get. simpl.
  destruct (storage_lastError (browser w)); simpl.
  { step_debugLog. asimpl. eauto. }
  rewrite Htok, Hsi.
  destruct token as [|a0 a']; simpl; try (step_debugLog; asimpl; eauto; fail).
  destruct (st_tokenExpiry (storage (browser w))) as [[|e0 e']|]; simpl;
    try (step_debugLog; asimpl; eauto; fail).
  destruct (String.eqb_spec (tokenHash si) (generateTokenHash (String a0 a'))) as [E|E];
    [now elim Hneq|].
  simpl. step_debugLog. asimpl. eauto.
Qed.

Arguments getCachedToken : simpl never.

(** An expired cache entry sends [authenticate] to the interactive flow:
    the first thing it waits for is the provider's window. *)
Lemma authenticate_acquires w tokenExpiry expiresAt :
  log_ready w ->
  st_tokenExpiry (storage (browser w)) = Some tokenExpiry ->
  JsNumber.parseInt tokenExpiry = Some expiresAt ->
  (expiresAt - now (browser w) < 2 * 60 * 1000)%Z ->
  exists rq w' k, authenticate w = AwaitAuth rq w' k /\ auth_interactive rq = true.
Proof.
  intros Hready Hexp Hparse Hlt.
  unfold authenticate. asimpl.
  set (w1 := upd_dom _ (appendLine _ w)).
  assert (R1 : log_ready w1) by (unfold w1; ready).
  destruct (getCachedToken_expired w1 tokenExpiry expiresAt R1 Hexp Hparse Hlt)
    as [msg Hmiss].
  rewrite Hmiss. asimpl.
  unfold performOAuth2Flow, attemptOAuth2WithScope, generateState, launchWebAuthFlow. asimpl.
  repeat (step_debugLog; asimpl).
  eexists; eexists; eexists; split; reflexivity.
Qed.

(** C3: in a popup whose elements are bound, a stored token whose expiry
    time is less than two minutes away is not returned: [getCachedToken]
    resolves null, and [authenticate], left without a cached token, opens
    the interactive sign-in window.  The earlier revision of
    [getCachedToken] resolves null from five minutes before the expiry. *)
Theorem getCachedToken_expiry_buffer :
  forall (w : World) (tokenExpiry : string) (expiresAt : Z),
    log_ready w ->
    st_tokenExpiry (storage (browser w)) = Some tokenExpiry ->
    JsNumber.parseInt tokenExpiry = Some expiresAt ->
    ((expiresAt - now (browser w) < 2 * 60 * 1000)%Z ->
     (exists msg, getCachedToken w = Done (Ok None) (debugged msg w)) /\
     (exists rq w' k, authenticate w = AwaitAuth rq w' k /\ auth_interactive rq = true)) /\
    ((expiresAt - now (browser w) < 5 * 60 * 1000)%Z ->
     exists msg, Legacy.getCachedToken w = Done (Ok None) (debugged msg w)).
Proof.
  intros w tokenExpiry expiresAt Hready Hexp Hparse. split; intros Hlt.
  - split.
    + exact (getCachedToken_expired w tokenExpiry expiresAt Hready Hexp Hparse Hlt).
    + exact (authenticate_acquires w tokenExpiry expiresAt Hready Hexp Hparse Hlt).
  - exact (Legacy_getCachedToken_expired w tokenExpiry expiresAt Hready Hexp Hparse Hlt).
Qed.

(** ** Decoding the claims of a token *)

Lemma decodeJwtToken_returns token w :
  log_ready w ->
  exists w', decodeJwtToken token w = Done (Ok (claimsOf (JSON_parse (browser w)) token)) w' /\
             frame w w' /\ mgr w' = mgr w /\ browser w' = browser w /\
             (debugMode (mgr w) = false -> w' = w).
Proof.
  intros Hready. unfold decodeJwtToken, claimsOf, decodedPayload. asimpl.
  destruct (negb (List.length (JsString.split "." token) =? 3)%nat).
  - asimpl. step_debugLog. asimpl. eexists; split; [reflexivity|].
    split; [apply debugged_frame|]. repeat split.
    intros E. unfold debugged. rewrite E. apply world_eta.
  - destruct (Base64.atob _) as [text|]; asimpl.
    + destruct (JSON_parse (browser w) text) as [j|]; asimpl.
      * exists w. repeat split; auto using frame_refl.
      * step_debugLog. asimpl. eexists; split; [reflexivity|].
        split; [apply debugged_frame|]. repeat split.
        intros E. unfold debugged. rewrite E. apply world_eta.
    + step_debugLog. asimpl. eexists; split; [reflexivity|].
      split; [apply debugged_frame|]. repeat split.
      intros E. unfold debugged. rewrite E. apply world_eta.
Qed.

(** C9: in a popup whose elements are bound, [decodeJwtToken] returns on
    every input: it does not throw and does not stay pending.  It returns
    null when the token does not have three parts, when the payload is not
    valid base64 and when the decoded text does not parse; it returns the
    parsed claims otherwise. *)
Theorem decodeJwtToken_never_throws :
  forall (token : string) (w : World),
    log_ready w ->
    exists (claims : Json) (w' : World),
      decodeJwtToken token w = Done (Ok claims) w' /\
      (List.length (JsString.split "." token) <> 3%nat -> claims = JNull) /\
      (decodedPayload token = None -> claims = JNull) /\
      (forall text, decodedPayload token = Some text ->
                    JSON_parse (browser w) text = None -> claims = JNull) /\
      (forall text j, List.length (JsString.split "." token) = 3%nat ->
                      decodedPayload token = Some text ->
                      JSON_parse (browser w) text = Some j -> claims = j).
Proof.
  intros token w Hready.
  destruct (decodeJwtToken_returns token w Hready) as (w' & H & _).
  exists (claimsOf (JSON_parse (browser w)) token), w'. split; [exact H|].
  unfold claimsOf. repeat split.
  - intros Hn. apply Nat.eqb_neq in Hn. now rewrite Hn.
  - intros Hd. rewrite Hd. now destruct (negb _).
  - intros text Hd Hp. rewrite Hd, Hp. now destruct (negb _).
  - intros text j Hl Hd Hp. rewrite Hl, Hd, Hp. reflexivity.
Qed.

(** ** The anti-forgery check *)

Lemma generateState_next w : generateState w = Done (Ok (nextState w)) (drawn w).
Proof. reflexivity. Qed.

Opaque generateState.
Arguments nextState : simpl never.
Arguments drawn : simpl never.

Lemma sameString_false a b : a <> Some b -> sameString a b = false.
Proof.
  destruct a as [a|]; simpl; auto. intros H.
  destruct (String.eqb_spec a b); auto. subst. now elim H.
Qed.

Lemma extractTokenFromUrl_mismatch url params expectedState w :
  fragmentParams url = Some params ->
  paramsGet "state" params <> Some expectedState ->
  extractTokenFromUrl url expectedState w = Done (Throw csrfError) w.
Proof.
  intros Hp Hs. unfold extractTokenFromUrl. rewrite Hp.
  rewrite (sameString_false _ _ Hs). reflexivity.
Qed.

(** C8: [extractTokenFromUrl] rejects with the CSRF error every response
    whose [state] parameter is not the expected state, and leaves the world
    as it is.  In the two flows that call it, [attemptOAuth2WithScope] and
    [attemptSilentAuthWithScope], a response whose state is not the one
    generated for the request makes the flow throw that error, and neither
    the token in memory nor the stored credential changes. *)
Theorem extractTokenFromUrl_rejects_forged_state :
  forall (url : ResponseUrl) (params : list (string * string)) (w : World),
    log_ready w ->
    fragmentParams url = Some params ->
    (forall expectedState w1,
        paramsGet "state" params <> Some expectedState ->
        extractTokenFromUrl url expectedState w1 = Done (Throw csrfError) w1) /\
    (paramsGet "state" params <> Some (nextState w) ->
     forall scopeString reply more fetches,
       lastError reply = None ->
       responseUrl reply = Some url ->
       let sc := {| fetchReplies := fetches; authReplies := reply :: more |} in
       let interactive := run (attemptOAuth2WithScope scopeString w) sc in
       let silent := run (attemptSilentAuthWithScope scopeString w) sc in
       outcome interactive = Throw csrfError /\
       outcome silent = Throw csrfError /\
       accessToken (mgr (final interactive)) = accessToken (mgr w) /\
       accessToken (mgr (final silent)) = accessToken (mgr w) /\
       storage (browser (final interactive)) = storage (browser w) /\
       storage (browser (final silent)) = storage (browser w)).
Proof.
  intros url params w Hready Hp. split.
  - intros expectedState w1 Hs. now apply extractTokenFromUrl_mismatch with params.
  - intros Hs scopeString reply more fetches He Hu sc interactive silent.
    unfold interactive, silent, sc, attemptOAuth2WithScope, attemptSilentAuthWithScope,
      launchWebAuthFlow.
    asimpl. rewrite !generateState_next. asimpl.
    repeat (step_debugLog; asimpl).
    rewrite He, Hu. asimpl.
    repeat (step_debugLog; asimpl).
    rewrite !(extractTokenFromUrl_mismatch url params) by assumption.
    asimpl. unfold logError. asimpl.
    repeat (step_debugLog; asimpl).
    repeat split.
Qed.

(** ** The no-op guard of a resize *)

Lemma currentSkuOf_nonempty c : currentSkuOf c <> "".
Proof. unfold currentSkuOf, JsString.orElse. destruct (cap_sku c) as [[|]|]; discriminate. Qed.

(** C7: when the SKU chosen in the drop-down is the current SKU of the
    selected capacity, [updateCapacitySku] logs that no change is required
    and returns; it sends no request, whether it is run against a script of
    replies or invoked from the event loop. *)
Theorem updateCapacitySku_same_sku_no_call :
  forall (w : World) (capacity : Capacity),
    Select.value (capacitySelect (dom w)) <> "" ->
    capacityAt w (Select.value (capacitySelect (dom w))) = Some capacity ->
    Select.value (skuSelect (dom w)) = currentSkuOf capacity ->
    updateCapacitySku w = Done (Ok tt) (appendLine (Line false "No SKU change required") w) /\
    (forall sc, issued (run (updateCapacitySku w) sc) = []) /\
    (forall p, world p = w -> sentSoFar (invoke updateCapacitySku p) = sentSoFar p).
Proof.
  intros w capacity Hsel Hcap Hsku.
  assert (E : updateCapacitySku w =
              Done (Ok tt) (appendLine (Line false "No SKU change required") w)).
  { unfold updateCapacitySku. asimpl.
    apply String.eqb_neq in Hsel. rewrite Hsel, Hsku.
    pose proof (currentSkuOf_nonempty capacity) as Hne.
    apply String.eqb_neq in Hne. rewrite Hne. simpl.
    rewrite Hcap. rewrite String.eqb_refl. reflexivity. }
  split; [exact E|]. split.
  - intros sc. rewrite E. reflexivity.
  - intros p Hp. unfold invoke. rewrite Hp, E. reflexivity.
Qed.

(** ** The 401 path of the API client *)

Lemma obeys_weaken {A} (P : World -> Prop) (Q Q' : Issued -> Prop) (s : Step A) :
  (forall i, Q i -> Q' i) -> obeys P Q s -> obeys P Q' s.
Proof.
  intros HQ. induction s as [A o w | A rq w k IH | A rq w k IH | A c IHc k IH]; simpl.
  - auto.
  - intros (? & ? & ?); repeat split; auto.
  - intros (? & ? & ?); repeat split; auto.
  - intros (? & ?); split; auto.
Qed.

Section Silent.
Let T := fun _ : World => True.

Ltac quiet := unfold T; repeat keeps_step.

Lemma debugLog_silent msg : Obeys T silentOnly (debugLog msg).
Proof.
  intros w _. unfold debugLog. destruct (debugMode (mgr w)); [|exact I].
  destruct (logArea (dom w)); exact I.
Qed.
Hint Resolve debugLog_silent : keeps.

Lemma decodeJwtToken_silent token : Obeys T silentOnly (decodeJwtToken token).
Proof. unfold decodeJwtToken. quiet. Qed.

Lemma generateState_silent : Obeys T silentOnly generateState.
Proof. intros w _. exact I. Qed.
Hint Resolve decodeJwtToken_silent generateState_silent : keeps.

Lemma clearCachedAuth_silent : Obeys T silentOnly clearCachedAuth.
Proof. unfold clearCachedAuth. quiet. Qed.

Lemma cacheToken_silent token e : Obeys T silentOnly (cacheToken token e).
Proof. unfold cacheToken. quiet. Qed.

Lemma extractTokenFromUrl_silent u st : Obeys T silentOnly (extractTokenFromUrl u st).
Proof. unfold extractTokenFromUrl. quiet. Qed.
Hint Resolve clearCachedAuth_silent cacheToken_silent extractTokenFromUrl_silent : keeps.

Lemma attemptSilentAuthWithScope_silent s : Obeys T silentOnly (attemptSilentAuthWithScope s).
Proof. unfold attemptSilentAuthWithScope. quiet. Qed.
Hint Resolve attemptSilentAuthWithScope_silent : keeps.

Lemma performSilentAuth_silent : Obeys T silentOnly performSilentAuth.
Proof. unfold performSilentAuth. quiet. Qed.
Hint Resolve performSilentAuth_silent : keeps.

Lemma handleTokenExpiry_silent : Obeys T silentOnly handleTokenExpiry.
Proof. unfold handleTokenExpiry. quiet. Qed.

End Silent.

#[global] Hint Resolve
  debugLog_silent
  decodeJwtToken_silent
  generateState_silent
  clearCachedAuth_silent
  cacheToken_silent
  extractTokenFromUrl_silent
  attemptSilentAuthWithScope_silent
  performSilentAuth_silent
  handleTokenExpiry_silent : keeps.

Lemma atExpiry_frame url method r w : frame w (atExpiry url method r w).
Proof.
  unfold atExpiry, debugged, frame; simpl.
  rewrite !present_if_addLine. repeat split.
Qed.

Lemma frame_trans w0 w1 w2 : frame w0 w1 -> frame w1 w2 -> frame w0 w2.
Proof. unfold frame. intuition congruence. Qed.

Lemma parseBody_parses w text j :
  parsesTo w text j -> parseBody text w = Done (Ok j) w.
Proof.
  unfold parsesTo, parseBody. intros [[-> ->] | [Hne Hp]]; [reflexivity|].
  apply String.eqb_neq in Hne. rewrite Hne. asimpl. now rewrite Hp.
Qed.

Lemma afterRetry_ok method a b r j w :
  ok r = true -> parsesTo w (text r) j ->
  afterRetry method a b r w = Done (Ok (retriedResult method r j)) w.
Proof.
  intros Hok Hp. unfold afterRetry, retriedResult. rewrite Hok. simpl.
  destruct (String.eqb method "POST" && (status r =? 202)%Z)%bool; [reflexivity|].
  destruct (String.eqb method "PATCH" && ((status r =? 200)%Z || (status r =? 202)%Z))%bool;
    [reflexivity|].
  now apply parseBody_parses.
Qed.

Lemma afterRetry_fails method r w :
  log_ready w -> ok r = false ->
  exists w', afterRetry method "Final retry" "authentication retry" r w =
             Done (Throw (retryError r)) w'.
Proof.
  intros Hready Hok. unfold afterRetry, retryError. rewrite Hok. asimpl.
  step_debugLog. asimpl. destruct (status r =? 403)%Z; eauto.
Qed.

Lemma run_final_frame {A} (m : Async A) w sc :
  Obeys (frame w) (fun _ => True) m -> frame w (final (run (m w) sc)).
Proof. intros H. exact (proj1 (obeys_run _ _ (m w) sc (H w (frame_refl w)))). Qed.

Lemma handleTokenExpiry_null_clears w sc :
  log_ready w ->
  outcome (run (handleTokenExpiry w) sc) = Ok None ->
  cleared (final (run (handleTokenExpiry w) sc)).
Proof.
  intros Hready. unfold handleTokenExpiry. rewrite run_bind.
  match goal with |- context [run (tryCatch ?a ?h w) sc] =>
    assert (Hf : frame w (final (run (tryCatch a h w) sc)))
      by (apply run_final_frame; keeps_auto);
    destruct (run (tryCatch a h w) sc) as [[[tok|]|e|] w1 sc1 t1]
  end; unfold andThen; simpl in *; try discriminate.
  assert (R1 : log_ready w1) by (eapply frame_log_ready; eauto).
  intros _. unfold clearCachedAuth, cleared. asimpl.
  destruct (storage_lastError (browser w1)) eqn:E; step_debugLog; asimpl;
    [left; rewrite E; discriminate | right; reflexivity].
Qed.

Lemma getCachedToken_cleared w :
  log_ready w -> cleared w ->
  exists msg, getCachedToken w = Done (Ok None) (debugged msg w).
Proof.
  intros Hready Hc. unfold getCachedToken. asimpl.
  destruct (storage_lastError (browser w)) eqn:E; asimpl.
  - step_debugLog. asimpl. eauto.
  - destruct Hc as [Hc | Hc]; [now elim Hc|]. rewrite Hc. asimpl.
    destruct (st_tokenExpiry (storage (browser w))) as [[|]|]; asimpl;
      step_debugLog; asimpl; eauto.
Qed.

Lemma authenticate_interactive w :
  log_ready w ->
  (exists msg w1, w1 = upd_dom (set_loadingIndicator_display "block")
                       (appendLine (Line false "Authenticating with Azure AD...") w) /\
                  getCachedToken w1 = Done (Ok None) (debugged msg w1)) ->
  exists rq w' k, authenticate w = AwaitAuth rq w' k /\ auth_interactive rq = true.
Proof.
  intros Hready (msg & w1 & Hw1 & Hmiss). subst w1.
  unfold authenticate. asimpl. rewrite Hmiss. asimpl.
  unfold performOAuth2Flow, attemptOAuth2WithScope, launchWebAuthFlow. asimpl.
  rewrite generateState_next. asimpl.
  repeat (step_debugLog; asimpl).
  eexists; eexists; eexists; split; reflexivity.
Qed.

Lemma authenticate_after_clear w :
  log_ready w -> cleared w ->
  exists rq w' k, authenticate w = AwaitAuth rq w' k /\ auth_interactive rq = true.
Proof.
  intros Hready Hc. apply authenticate_interactive; auto.
  set (w1 := upd_dom _ (appendLine _ w)).
  assert (R1 : log_ready w1) by (unfold w1; ready).
  destruct (getCachedToken_cleared w1 R1 Hc) as [msg H]. eauto.
Qed.

Opaque handleTokenExpiry authenticate afterRetry.

Lemma makeApiCall_on_401 url method body w sc r1 replies :
  log_ready w ->
  JsString.truthy (accessToken (mgr w)) = true ->
  fetchReplies sc = Responded r1 :: replies ->
  status r1 = 401%Z ->
  run (makeApiCall url method body w) sc =
  sent (IssuedFetch (apiRequest url method body (accessToken (mgr w))))
    (andThen
       (run (handleTokenExpiry (atExpiry url method r1 w))
            {| fetchReplies := replies; authReplies := authReplies sc |})
       (fun refreshedToken w1 sc1 =>
          run ((if JsString.truthy refreshedToken then
                  bind (fetch (apiRequest url method body refreshedToken))
                       (fun retryResponse => afterRetry method "Retry" "retry" retryResponse)
                else
                  bind (debugLog "Silent refresh failed, requiring interactive authentication")
                    (fun _ => bind authenticate (fun _ => bind get (fun w2 =>
                       bind (fetch (apiRequest url method body (accessToken (mgr w2))))
                         (fun retryResponse =>
                            afterRetry method "Final retry" "authentication retry"
                                       retryResponse))))) w1)
              sc1)).
Proof.
  intros Hready Htok Hsc Hst.
  unfold makeApiCall. asimpl. rewrite Htok. asimpl.
  step_debugLog. asimpl. rewrite Hsc. asimpl.
  assert (Hok : ok r1 = false) by (unfold ok; rewrite Hst; reflexivity).
  rewrite Hok. asimpl. step_debugLog. asimpl. rewrite Hst. asimpl.
  step_debugLog. asimpl.
  rewrite run_bindStep. unfold atExpiry. rewrite Hst. reflexivity.
Qed.

Lemma run_fetch_next rq w sc r rs :
  fetchReplies sc = Responded r :: rs ->
  forall A (k : Response -> Async A),
    run (bind (fetch rq) k w) sc =
    sent (IssuedFetch rq) (run (k r w) {| fetchReplies := rs; authReplies := authReplies sc |}).
Proof. intros H A k. unfold bind, fetch. simpl. rewrite H. reflexivity. Qed.

Lemma run_interactive_retry url method body w1 sc1 token r3 more :
  log_ready w1 ->
  let w2 := debugged "Silent refresh failed, requiring interactive authentication" w1 in
  let acquisition := run (authenticate w2) sc1 in
  outcome acquisition = Ok token ->
  fetchReplies (rest acquisition) = Responded r3 :: more ->
  ok r3 = false ->
  let r :=
    run (bind (debugLog "Silent refresh failed, requiring interactive authentication")
           (fun _ => bind authenticate (fun _ => bind get (fun w2 =>
              bind (fetch (apiRequest url method body (accessToken (mgr w2))))
                (fun retryResponse =>
                   afterRetry method "Final retry" "authentication retry"
                              retryResponse)))) w1) sc1 in
  outcome r = Throw (retryError r3) /\
  issued r =
    (issued acquisition ++
     [IssuedFetch (apiRequest url method body (accessToken (mgr (final acquisition))))])%list.
Proof.
  intros R1 w2 acquisition Hacq Hfr Hok r.
  assert (R4 : log_ready (final acquisition)).
  { assert (R2 : log_ready w2) by now apply debugged_ready.
    eapply frame_log_ready; [|exact R2]. apply run_final_frame.
    intros w0; apply authenticate_keeps. }
  destruct (afterRetry_fails method r3 _ R4 Hok) as [w' Hw'].
  assert (E : r = andThen acquisition (fun _ w3 sc3 =>
                 run (bind (fetch (apiRequest url method body (accessToken (mgr w3))))
                        (fun retryResponse =>
                           afterRetry method "Final retry" "authentication retry"
                                      retryResponse) w3) sc3)).
  { unfold r. unfold bind at 1. rewrite (debugLog_ready _ _ R1). simpl bindStep.
    fold w2. unfold bind at 1. rewrite run_bindStep. reflexivity. }
  rewrite E. unfold andThen. rewrite Hacq.
  rewrite (run_fetch_next _ _ _ r3 more) by exact Hfr.
  rewrite Hw'. simpl. split; reflexivity.
Qed.

(** C1: in a popup whose elements are bound, a call of [makeApiCall] whose
    first response has status 401 runs [handleTokenExpiry], and that renewal
    sends nothing to the API and opens no interactive window.  If the
    renewal yields a new token and the next response is a success whose body
    parses, the call returns the result of that retried request (its parsed
    body, or the success marker for an accepted state change) and has called
    [fetch] exactly twice: the request, and the same request with the new
    token.  If the renewal yields null, the call runs [authenticate], which
    opens the interactive window first; once it has produced a token the
    request is sent once more, and if that response is a failure again the
    call throws the final authorization error, having sent exactly these
    requests. *)
Theorem makeApiCall_renews_once_on_401 :
  forall (w : World) (url method : string) (body : option Json) (sc : Script)
         (r1 : Response) (replies : list FetchReply),
    log_ready w ->
    JsString.truthy (accessToken (mgr w)) = true ->
    fetchReplies sc = Responded r1 :: replies ->
    status r1 = 401%Z ->
    let renewal :=
      run (handleTokenExpiry (atExpiry url method r1 w))
          {| fetchReplies := replies; authReplies := authReplies sc |} in
    let call := run (makeApiCall url method body w) sc in
    let first := IssuedFetch (apiRequest url method body (accessToken (mgr w))) in
    Forall silentOnly (issued renewal) /\
    (forall newToken r2 more parsed,
        outcome renewal = Ok (Some newToken) ->
        newToken <> "" ->
        replies = Responded r2 :: more ->
        ok r2 = true ->
        parsesTo w (text r2) parsed ->
        outcome call = Ok (retriedResult method r2 parsed) /\
        count isFetch (issued call) = 2%nat /\
        filter isFetch (issued call) =
          [first; IssuedFetch (apiRequest url method body (Some newToken))]) /\
    (outcome renewal = Ok None ->
     let acquisition :=
       run (authenticate
              (debugged "Silent refresh failed, requiring interactive authentication"
                        (final renewal)))
           (rest renewal) in
     (exists rq others,
         issued acquisition = IssuedAuth rq :: others /\ auth_interactive rq = true) /\
     forall token r3 more,
       outcome acquisition = Ok token ->
       fetchReplies (rest acquisition) = Responded r3 :: more ->
       ok r3 = false ->
       outcome call = Throw (retryError r3) /\
       issued call =
         (first :: issued renewal ++ issued acquisition ++
          [IssuedFetch (apiRequest url method body
                          (accessToken (mgr (final acquisition))))])%list).
Proof.
  intros w url method body sc r1 replies Hready Htok Hsc Hst renewal call first.
  assert (Rx : log_ready (atExpiry url method r1 w))
    by (eapply frame_log_ready; [apply atExpiry_frame | exact Hready]).
  assert (Hf : frame w (final renewal)).
  { eapply frame_trans; [apply atExpiry_frame|].
    apply run_final_frame. intros w0; apply handleTokenExpiry_keeps. }
  assert (Hq : Forall silentOnly (issued renewal)).
  { exact (proj2 (obeys_run (fun _ => True) silentOnly _ _
                      (handleTokenExpiry_silent _ I))). }
  assert (Hrest : fetchReplies (rest renewal) = replies).
  { unfold renewal. rewrite (obeys_run_fetchReplies (fun _ => True)); [reflexivity|].
    eapply obeys_weaken; [|now apply handleTokenExpiry_silent].
    intros i [H _]; exact H. }
  assert (Hcall : call = _) by (apply makeApiCall_on_401; eassumption).
  fold renewal in Hcall.
  split; [exact Hq|]. split.
  - intros newToken r2 more parsed Hren Hne Hrep Hok Hparse.
    rewrite Hcall. unfold andThen. rewrite Hren.
    assert (Ht : JsString.truthy (Some newToken) = true) by (destruct newToken; [congruence | reflexivity]).
    rewrite Ht.
    rewrite (run_fetch_next _ _ _ r2 more) by congruence.
    assert (Hp' : parsesTo (final renewal) (text r2) parsed).
    { destruct Hparse as [H | [H1 H2]]; [left; exact H | right; split; auto].
      destruct Hf as (_ & _ & _ & _ & _ & _ & _ & _ & _ & _ & _ & _ & _ & _ & _ & _ & Hj & _).
      now rewrite Hj. }
    rewrite (afterRetry_ok _ _ _ _ parsed _ Hok Hp').
    simpl. split; [reflexivity|].
    assert (Hnone : filter isFetch (issued renewal) = []).
    { clear - Hq. induction Hq as [|i l [Hi _] _ IH]; simpl; [reflexivity|].
      now rewrite Hi. }
    unfold count. rewrite !filter_app, !Hnone. simpl. rewrite ?filter_app, ?Hnone.
    split; reflexivity.
  - intros Hren acquisition.
    assert (R2 : log_ready (final renewal)) by (eapply frame_log_ready; eauto).
    assert (R3 : log_ready
                   (debugged "Silent refresh failed, requiring interactive authentication"
                             (final renewal))) by now apply debugged_ready.
    split.
    + destruct (authenticate_after_clear _ R3) as (rq & w' & k & Ha & Hi).
      { pose proof (handleTokenExpiry_null_clears _ _ Rx Hren) as Hc.
        unfold cleared in *. exact Hc. }
      unfold acquisition. rewrite Ha. simpl.
      destruct (authReplies (rest renewal)); simpl; eauto.
    + intros token r3 more Hacq Hfr Hok.
      destruct (run_interactive_retry url method body _ _ token r3 more R2 Hacq Hfr Hok)
        as [Ho Hi].
      rewrite Hcall. unfold andThen. rewrite Hren.
      change (JsString.truthy None) with false. cbv iota.
      unfold sent. simpl outcome. simpl issued.
      fold acquisition in Ho, Hi. rewrite Ho, Hi. split; reflexivity.
Qed.

(** ** Discovery across scopes *)

Lemma loadSubscription_run s w sc :
  log_ready w -> s <> JNull ->
  let q := run (getCapacitiesForSubscription (scopeId s) w) sc in
  let r := run (loadSubscription s w) sc in
  completed (outcome q) ->
  outcome r = Ok tt /\
  capacities (mgr (final r)) = (capacities (mgr w) ++ contribution (outcome q))%list /\
  log_ready (final r).
Proof.
  intros Hready Hs q r Hq.
  assert (Hf : frame w (final q)).
  { apply run_final_frame. intros w0. apply getCapacitiesForSubscription_keeps. }
  assert (R1 : log_ready (final q)) by (eapply frame_log_ready; eauto).
  assert (E : r = orCatch (andThen q (fun found w1 sc1 =>
                  run (bind (modify (upd_mgr (fun m =>
                               set_capacities (capacities m ++ found)%list m)))
                         (fun _ => debugLog
                            ("Found " ++ JsNumber.toString (Z.of_nat (List.length found)) ++
                             " capacities in subscription " ++
                             JsValue.show (strField "displayName" s))) w1) sc1))
                (fun error w1 sc1 =>
                   run (debugLog ("Failed to get capacities for subscription " ++
                                  scopeId s ++ ": " ++ message error) w1) sc1)).
  { unfold r, loadSubscription. destruct s; try (now elim Hs);
      rewrite run_tryCatch, run_bind; reflexivity. }
  rewrite E. clear E.
  destruct Hf as (Hcaps & _).
  destruct q as [[found | e |] w1 sc1 t1]; simpl in *.
  - unfold andThen, orCatch; simpl. unfold bind, modify. simpl bindStep.
    rewrite debugLog_ready by ready. simpl. rewrite Hcaps.
    repeat split. ready.
  - unfold andThen, orCatch; simpl. rewrite debugLog_ready by assumption. simpl.
    rewrite Hcaps, app_nil_r. repeat split. now apply debugged_ready.
  - now elim Hq.
Qed.

(** The loop absorbs the failure of a scope. *)
Lemma scope_loop subscriptions :
  forall w sc,
    log_ready w ->
    Forall (fun s => s <> JNull) subscriptions ->
    Forall completed (scopeOutcomes subscriptions w sc) ->
    let r := run (forOf subscriptions loadSubscription w) sc in
    outcome r = Ok tt /\
    capacities (mgr (final r)) =
      (capacities (mgr w) ++
       List.concat (map contribution (scopeOutcomes subscriptions w sc)))%list /\
    log_ready (final r).
Proof.
  induction subscriptions as [|s more IH]; intros w sc Hready Hnn Hdone; simpl.
  - split; [reflexivity | split; [now rewrite app_nil_r | exact Hready]].
  - inversion Hnn as [|? ? Hs Hmore]; subst.
    simpl in Hdone. inversion Hdone as [|? ? Hq Hrest]; subst.
    destruct (loadSubscription_run s w sc Hready Hs Hq) as (Ho & Hc & Hr).
    rewrite run_bind. unfold andThen. rewrite Ho.
    destruct (IH _ _ Hr Hmore Hrest) as (Ho' & Hc' & Hr').
    cbv zeta in Ho', Hc', Hr'. simpl. split; [exact Ho'|]. split; [|exact Hr'].
    rewrite Hc', Hc. now rewrite app_assoc.
Qed.

Lemma in_concat_nth {X} (ls : list (list X)) i l :
  nth_error ls i = Some l -> incl l (List.concat ls).
Proof.
  revert i. induction ls as [|l0 ls IH]; intros [|i] H; simpl in *; try discriminate.
  - injection H as ->. apply incl_appl, incl_refl.
  - apply incl_appr. eapply IH; eauto.
Qed.

(** ** Rebuilding the drop-down *)

Lemma populate_loop (f : nat * Capacity -> Async unit) (msg : nat * Capacity -> string) :
  (forall ic w, log_ready w ->
                f ic w = Done (Ok tt)
                           (debugged (msg ic)
                              (upd_dom (fun d =>
                                 set_capacitySelect (addCapacityOption (capacitySelect d) ic) d)
                                 w))) ->
  forall items w,
    log_ready w ->
    exists la,
      present la = present (logArea (dom w)) /\
      forOf items f w =
      Done (Ok tt)
        (upd_dom (fun d =>
           set_capacitySelect (fold_left addCapacityOption items (capacitySelect d))
                              (set_logArea la d)) w).
Proof.
  intros Hf. induction items as [|ic items IH]; intros w Hready.
  - exists (logArea (dom w)). split; [reflexivity|]. simpl. unfold ret.
    destruct w as [m d b]; destruct d; reflexivity.
  - simpl forOf. unfold bind. rewrite Hf by assumption. simpl bindStep.
    match goal with |- context [forOf items f ?w1] =>
      destruct (IH w1) as (la & Hla & E); [ready|]; rewrite E
    end.
    exists la. split.
    + rewrite Hla. simpl. now rewrite present_if_addLine.
    + reflexivity.
Qed.

Lemma populateCapacityDropdown_returns w :
  log_ready w ->
  exists la,
    present la = present (logArea (dom w)) /\
    populateCapacityDropdown w =
    Done (Ok tt)
      (upd_dom (fun d =>
         set_capacitySelect (rebuilt (capacities (mgr w)) (capacitySelect d))
                            (set_logArea la d)) w).
Proof.
  intros Hready. unfold populateCapacityDropdown, rebuilt.
  unfold tryCatch, bind at 1, get. simpl bindStep.
  unfold bind at 1. rewrite debugLog_ready by assumption. simpl bindStep.
  unfold bind at 1. unfold updCapacitySelect at 1, modify. simpl bindStep.
  destruct (List.length (capacities (mgr w)) =? 0)%nat.
  - unfold bind at 1. unfold updCapacitySelect, modify. simpl bindStep.
    rewrite debugLog_ready by ready. simpl.
    eexists. split; [|reflexivity]. simpl. now rewrite !present_if_addLine.
  - unfold bind at 1.
    match goal with |- context [forOf ?l ?f ?w1] =>
      assert (Hbody : forall ic w2, log_ready w2 ->
                f ic w2 = Done (Ok tt)
                  (debugged ("Added capacity option: " ++
                             opt_text (capacityOption (fst ic) (snd ic)))
                     (upd_dom (fun d =>
                        set_capacitySelect (addCapacityOption (capacitySelect d) ic) d) w2)))
        by (intros ic w2 R2; unfold bind, updCapacitySelect, modify; simpl bindStep;
            rewrite debugLog_ready by ready; reflexivity);
      assert (R1 : log_ready w1) by ready;
      destruct (populate_loop f _ Hbody l w1 R1) as (la & Hla & E);
      rewrite E
    end.
    simpl bindStep. unfold bind, get. simpl bindStep.
    rewrite debugLog_ready by ready. simpl.
    eexists. split; [|reflexivity]. simpl.
    rewrite !present_if_addLine. rewrite Hla. simpl. now rewrite !present_if_addLine.
Qed.

Opaque getSubscriptions populateCapacityDropdown loadSubscription.

(** C5: in a popup whose elements are bound, [loadCapacities], called with a
    token in hand, once [getSubscriptions] has listed the subscriptions and
    every query of [getCapacitiesForSubscription] has been answered,
    completes normally whatever the number of queries that failed; the
    capacities it stores are those of the subscriptions whose query
    succeeded, in order, so that when the query of one subscription fails,
    every capacity returned for any other subscription is in the result. *)
Theorem loadCapacities_scope_isolation :
  forall (w : World) (sc : Script) (subscriptions : list Json),
    log_ready w ->
    JsString.truthy (accessToken (mgr w)) = true ->
    let listing := run (getSubscriptions (discoveryStart w)) sc in
    outcome listing = Ok subscriptions ->
    Forall (fun s => s <> JNull) subscriptions ->
    let outcomes :=
      scopeOutcomes subscriptions
        (debugged (foundSubscriptions subscriptions) (final listing)) (rest listing) in
    Forall completed outcomes ->
    let r := run (loadCapacities w) sc in
    outcome r = Ok tt /\
    capacities (mgr (final r)) = List.concat (map contribution outcomes) /\
    (forall failing e,
        nth_error outcomes failing = Some (Throw e) ->
        forall other found,
          other <> failing ->
          nth_error outcomes other = Some (Ok found) ->
          incl found (capacities (mgr (final r)))).
Proof.
  intros w sc subscriptions Hready Htok listing Hlist Hnn outcomes Hdone r.
  assert (Hf : frame (discoveryStart w) (final listing)).
  { apply run_final_frame. intros w0. apply getSubscriptions_keeps. }
  assert (R1 : log_ready (final listing)).
  { eapply frame_log_ready; [exact Hf|]. unfold discoveryStart. ready. }
  set (w2 := debugged (foundSubscriptions subscriptions) (final listing)) in *.
  assert (R2 : log_ready w2) by now apply debugged_ready.
  destruct (scope_loop subscriptions w2 (rest listing) R2 Hnn Hdone) as (Ho & Hc & R3).
  fold outcomes in Hc.
  assert (Hc0 : capacities (mgr w2) = []).
  { unfold w2. simpl. destruct Hf as (Hcaps & _). rewrite Hcaps. reflexivity. }
  rewrite Hc0 in Hc. simpl in Hc.
  set (loop := run (forOf subscriptions loadSubscription w2) (rest listing)) in *.
  destruct (populateCapacityDropdown_returns (final loop) R3) as (la & Hla & Hpop).
  assert (E : ends (loadCapacities w) sc
                (fun o w' _ => o = Ok tt /\
                               capacities (mgr w') = capacities (mgr (final loop)))).
  { unfold loadCapacities, tryFinally, tryCatch.
    apply ends_finallyStep.
    match goal with |- context [run (catchStep ?s ?h) sc] =>
      assert (B : ends s sc (fun o w' _ =>
                    o = Ok tt /\ capacities (mgr w') = capacities (mgr (final loop))))
    end.
    { unfold bind at 1, log at 1, modify at 1. simpl bindStep.
      unfold bind at 1, showLoading at 1, modify at 1. simpl bindStep.
      unfold bind at 1, modify at 1. simpl bindStep.
      unfold bind at 1, get at 1. simpl bindStep.
      simpl mgr. simpl accessToken. rewrite Htok. simpl negb. unfold when.
      unfold bind at 1, ret at 1. simpl bindStep.
      unfold bind at 1. apply ends_bindStep.
      change (run (getSubscriptions _) sc) with listing. rewrite Hlist.
      fold (foundSubscriptions subscriptions).
      apply (ends_bind_Done _ _ _ tt w2); [now apply debugLog_ready|].
      unfold bind at 1. apply ends_bindStep. fold loop. rewrite Ho.
      apply (ends_bind_Done _ _ _ tt _ _ _ Hpop).
      unfold bind, get, log, modify. simpl bindStep. apply ends_Done.
      split; reflexivity. }
    match goal with |- context [run (catchStep ?s ?h) sc] =>
      assert (C : ends (catchStep s h) sc (fun o w' _ =>
                    o = Ok tt /\ capacities (mgr w') = capacities (mgr (final loop))))
    end.
    { apply ends_catchStep. unfold ends in B. cbv beta in B. destruct B as (Bo & Bc).
      rewrite Bo. split; [reflexivity | exact Bc]. }
    clear B. unfold ends in C. cbv beta in C. destruct C as (Co & Cc).
    rewrite Co. unfold showLoading, modify, ends. simpl. split; [reflexivity | exact Cc]. }
  unfold ends in E. cbv beta in E. fold r in E. destruct E as (Eo & Ec).
  split; [exact Eo|]. rewrite Ec, Hc. split; [reflexivity|].
  intros failing e _ other found _ Hfound.
  apply (in_concat_nth _ other). rewrite nth_error_map, Hfound. reflexivity.
Qed.

(** ** Index numerals of the drop-down *)

Lemma digitValue_digitChar d : (d < 10)%N -> JsNumber.digitValue 10 (JsNumber.digitChar d) = Some d.
Proof.
  intros H.
  assert (C : (d = 0 \/ d = 1 \/ d = 2 \/ d = 3 \/ d = 4 \/ d = 5 \/ d = 6 \/ d = 7 \/
               d = 8 \/ d = 9)%N) by lia.
  destruct C as [-> | [-> | [-> | [-> | [-> | [-> | [-> | [-> | [-> | ->]]]]]]]]]; reflexivity.
Qed.

Lemma decimal_plain c :
  isDecimal c ->
  JsNumber.isWhite c = false /\ c <> "-"%char /\ c <> "+"%char /\
  Ascii.eqb c "x" = false /\ Ascii.eqb c "X" = false /\
  (exists d, JsNumber.digitValue 10 c = Some d).
Proof.
  intros (d & H & ->).
  assert (C : (d = 0 \/ d = 1 \/ d = 2 \/ d = 3 \/ d = 4 \/ d = 5 \/ d = 6 \/ d = 7 \/
               d = 8 \/ d = 9)%N) by lia.
  destruct C as [-> | [-> | [-> | [-> | [-> | [-> | [-> | [-> | [-> | ->]]]]]]]]];
    repeat split; try discriminate; eexists; reflexivity.
Qed.

Lemma toDigits_decimal fuel n acc :
  allDecimal acc -> allDecimal (JsNumber.toDigits fuel 10 n acc).
Proof.
  revert n acc. induction fuel as [|f IH]; intros n acc Hacc; simpl; auto.
  assert (Hd : isDecimal (JsNumber.digitChar (n mod 10))).
  { exists (n mod 10)%N. split; [apply N.mod_lt; lia | reflexivity]. }
  destruct (n <? 10)%N; [split; auto|]. apply IH. split; auto.
Qed.

Lemma toDigits_nonempty fuel n : JsNumber.toDigits (S fuel) 10 n "" <> "".
Proof.
  rewrite toDigits_S. destruct (n <? 10)%N; [discriminate|].
  rewrite toDigits_app. destruct (JsNumber.toDigits fuel 10 (n / 10) ""); discriminate.
Qed.

Lemma readDigits_toDigits fuel :
  forall n acc,
    (n < 2 ^ N.of_nat fuel)%N ->
    JsNumber.readDigits 10 (JsNumber.toDigits fuel 10 n acc) 0 = JsNumber.readDigits 10 acc n.
Proof.
  induction fuel as [|f IH]; intros n acc Hn.
  - simpl in Hn. assert (n = 0%N) by lia. subst. reflexivity.
  - rewrite toDigits_S. destruct (N.ltb_spec n 10) as [Hlt | Hge].
    + simpl. rewrite N.mod_small by exact Hlt.
      rewrite digitValue_digitChar by exact Hlt. reflexivity.
    + rewrite IH.
      * simpl. rewrite digitValue_digitChar by (apply N.mod_lt; lia).
        f_equal. N_div_mod.
      * rewrite Nat2N.inj_succ, N.pow_succ_r' in Hn.
        apply N.Div0.div_lt_upper_bound. lia.
Qed.

Lemma parseInt_decimal s :
  allDecimal s -> s <> "" ->
  JsNumber.parseInt s = Some (Z.of_N (JsNumber.readDigits 10 s 0)).
Proof.
  destruct s as [|c s]; [congruence|]. intros [Hc Hs] _.
  destruct (decimal_plain c Hc) as (Hw & Hm & Hp & Hx & HX & d & Hd).
  unfold JsNumber.parseInt. simpl JsNumber.skipWhite. rewrite Hw.
  assert (E : JsNumber.unsignedInt (String c s) =
              Some (Z.of_N (JsNumber.readDigits 10 (String c s) 0))).
  { unfold JsNumber.unsignedInt, JsNumber.startsWithDigit. rewrite Hd.
    destruct (Ascii.eqb_spec c "0") as [-> | Hne].
    - destruct s as [|x s']; [reflexivity|]. destruct Hs as [Hx' _].
      destruct (decimal_plain x Hx') as (_ & _ & _ & E1 & E2 & _).
      rewrite E1, E2. reflexivity.
    - destruct c as [[] [] [] [] [] [] [] []]; try reflexivity; now elim Hne. }
  destruct (Ascii.eqb_spec c "-") as [-> | Hm']; [now elim Hm|].
  destruct (Ascii.eqb_spec c "+") as [-> | Hp']; [now elim Hp|].
  rewrite <- E.
  destruct c as [[] [] [] [] [] [] [] []]; try reflexivity;
    solve [now elim Hm' | now elim Hp'].
Qed.

Lemma parseInt_toString n :
  JsNumber.parseInt (JsNumber.toString (Z.of_nat n)) = Some (Z.of_nat n).
Proof.
  unfold JsNumber.toString.
  assert (E : (Z.of_nat n <? 0)%Z = false) by (apply Z.ltb_ge; lia). rewrite E.
  unfold JsNumber.N_toString.
  rewrite parseInt_decimal.
  - rewrite readDigits_toDigits.
    + simpl. f_equal. lia.
    + rewrite Nat2N.inj_succ, N2Nat.id.
      destruct (N.eq_dec (Z.to_N (Z.of_nat n)) 0) as [-> | Hpos]; [reflexivity|].
      apply N.log2_spec. lia.
  - apply toDigits_decimal. exact I.
  - apply toDigits_nonempty.
Qed.

Lemma toString_inj a b :
  JsNumber.toString (Z.of_nat a) = JsNumber.toString (Z.of_nat b) -> a = b.
Proof.
  intros H. pose proof (parseInt_toString a) as Ha. rewrite H, parseInt_toString in Ha.
  injection Ha. lia.
Qed.

Lemma toString_nonempty n : JsNumber.toString (Z.of_nat n) <> "".
Proof.
  intros H. pose proof (parseInt_toString n) as Hn. rewrite H in Hn. discriminate.
Qed.

(** ** The rebuilt drop-down *)

Lemma findIndex_spec {X} (p : X -> bool) l i :
  Select.findIndex p l = Some i -> exists x, nth_error l i = Some x /\ p x = true.
Proof.
  revert i. induction l as [|x l IH]; intros i; simpl; [discriminate|].
  destruct (p x) eqn:E.
  - intros [= <-]. exists x. auto.
  - destruct (Select.findIndex p l) as [j|]; simpl; [|discriminate].
    intros [= <-]. apply IH. reflexivity.
Qed.

Lemma findIndex_none {X} (p : X -> bool) l :
  Select.findIndex p l = None <-> forall x, In x l -> p x = false.
Proof.
  induction l as [|x l IH]; simpl.
  - split; [intros _ y [] | reflexivity].
  - destruct (p x) eqn:E.
    + split; [discriminate|]. intros H. rewrite (H x) in E by auto. discriminate.
    + destruct (Select.findIndex p l) as [j|]; simpl.
      * split; [discriminate|]. intros H.
        assert (Some j = None) by (apply IH; intros y Hy; apply H; auto). discriminate.
      * split; [|reflexivity]. intros _ y [<- | Hy]; auto. apply IH; auto.
Qed.

Lemma optionsFor_nth start caps n c :
  nth_error caps n = Some c ->
  nth_error (optionsFor start caps) n = Some (capacityOption (start + n) c).
Proof.
  unfold optionsFor. revert start n.
  induction caps as [|c0 caps IH]; intros start [|n]; simpl; try discriminate.
  - intros [= ->]. now rewrite Nat.add_0_r.
  - intros H. rewrite (IH (S start) n H). f_equal. f_equal. lia.
Qed.

Lemma optionsFor_find start caps n :
  (n < List.length caps)%nat ->
  Select.findIndex
    (fun o => String.eqb (opt_value o) (JsNumber.toString (Z.of_nat (start + n))))
    (optionsFor start caps) = Some n.
Proof.
  unfold optionsFor. revert start n.
  induction caps as [|c0 caps IH]; intros start n Hn; simpl in *; [lia|].
  destruct n as [|n].
  - rewrite Nat.add_0_r, String.eqb_refl. reflexivity.
  - destruct (String.eqb_spec (JsNumber.toString (Z.of_nat start))
                              (JsNumber.toString (Z.of_nat (start + S n)))) as [E | _].
    + apply toString_inj in E. lia.
    + replace (start + S n)%nat with (S start + n)%nat by lia.
      rewrite IH by lia. reflexivity.
Qed.

Lemma fold_addCapacityOption items :
  forall s i,
    sel_selected s = Some i ->
    sel_options (fold_left addCapacityOption items s) =
      (sel_options s ++ map (fun ic => capacityOption (fst ic) (snd ic)) items)%list /\
    sel_selected (fold_left addCapacityOption items s) = Some i /\
    sel_disabled (fold_left addCapacityOption items s) = sel_disabled s.
Proof.
  induction items as [|ic items IH]; intros s i Hs; simpl.
  - now rewrite app_nil_r.
  - destruct (IH (addCapacityOption s ic) i) as (Ho & Hsel & Hd).
    + unfold addCapacityOption, Select.appendChild, Select.resetSelectedness. simpl.
      now rewrite Hs.
    + rewrite Ho, Hsel, Hd.
      unfold addCapacityOption, Select.appendChild, Select.resetSelectedness. simpl.
      rewrite Hs. simpl. rewrite <- app_assoc. auto.
Qed.

Lemma removeAllButFirst_placeholder s p others :
  sel_options s = p :: others -> opt_disabled p = false ->
  sel_options (Select.removeAllButFirst s) = [p] /\
  sel_selected (Select.removeAllButFirst s) = Some 0%nat.
Proof.
  intros Ho Hp. unfold Select.removeAllButFirst, Select.resetSelectedness. rewrite Ho. simpl.
  destruct (sel_selected s) as [[|i]|]; simpl; rewrite ?Hp; auto.
Qed.

Lemma rebuilt_placeholder caps s p others :
  sel_options s = p :: others -> opt_disabled p = false ->
  sel_selected (rebuilt caps s) = Some 0%nat /\
  exists tail,
    sel_options (rebuilt caps s) = p :: tail /\
    (caps <> [] -> tail = optionsFor 0 caps).
Proof.
  intros Ho Hp.
  destruct (removeAllButFirst_placeholder s p others Ho Hp) as (Ro & Rs).
  unfold rebuilt. destruct caps as [|c caps].
  - simpl. unfold Select.appendChild, Select.resetSelectedness. simpl.
    rewrite Rs, Ro. simpl. split; auto. eexists; split; [reflexivity|]. congruence.
  - change (List.length (c :: caps) =? 0)%nat with false. cbv iota.
    destruct (fold_addCapacityOption (indexed (c :: caps)) _ _ Rs) as (Fo & Fs & _).
    rewrite Fo, Fs, Ro. split; auto. eexists; split; [reflexivity|]. reflexivity.
Qed.

Arguments Select.value : simpl never.

Lemma value_selected s i o :
  sel_selected s = Some i -> nth_error (sel_options s) i = Some o ->
  Select.value s = opt_value o.
Proof. unfold Select.value. intros -> ->. reflexivity. Qed.

(** ** What the handlers of the selection leave alone *)

Ltac selection_modify :=
  let w := fresh "w" in
  let H := fresh "H" in
  intros w H; unfold selection in *; unfold appendLine; simpl in *; exact H.

Ltac sel_step :=
  cbv beta zeta;
  match goal with
  | |- forall _, _ => intro
  | |- Obeys _ _ (bind _ _) => apply Obeys_bind
  | |- Obeys _ _ (tryCatch _ _) => apply Obeys_tryCatch
  | |- Obeys _ _ (tryFinally _ _) => apply Obeys_tryFinally
  | |- Obeys _ _ (ret _) => apply Obeys_ret
  | |- Obeys _ _ (throw _) => apply Obeys_throw
  | |- Obeys _ _ get => apply Obeys_get
  | |- Obeys _ _ (when _ _) => apply Obeys_when
  | |- Obeys _ _ (modify _) => apply Obeys_modify; selection_modify
  | |- Obeys _ _ (match ?x with _ => _ end) => destruct x
  | |- Obeys _ _ _ => solve [auto with selection]
  end.

Create HintDb selection.

Section Selection.
Variables (caps : list Capacity) (opts : list OptionEl) (sel : option nat).
Let P := selection caps opts sel.
Let Q := fun _ : Issued => True.

Lemma debugLog_selection msg : Obeys P Q (debugLog msg).
Proof.
  intros w H. unfold debugLog. destruct (debugMode (mgr w)); [|exact H].
  destruct (logArea (dom w)); exact H.
Qed.

Lemma logSuccess_selection msg : Obeys P Q (logSuccess msg).
Proof. intros w H. unfold logSuccess. destruct (logArea (dom w)); exact H. Qed.
Hint Resolve debugLog_selection logSuccess_selection : selection.

Lemma log_selection msg : Obeys P Q (log msg).
Proof. unfold P, log. repeat sel_step. Qed.

Lemma logError_selection msg e : Obeys P Q (logError msg e).
Proof. unfold P, logError. repeat sel_step. Qed.
Hint Resolve log_selection logError_selection : selection.

Lemma loadAvailableSkus_selection c : Obeys P Q (loadAvailableSkus c).
Proof. unfold P, loadAvailableSkus. repeat sel_step. Qed.

Lemma populateSkuDropdown_selection c : Obeys P Q (populateSkuDropdown c).
Proof. unfold P, populateSkuDropdown, updSkuSelect. repeat sel_step. Qed.
Hint Resolve loadAvailableSkus_selection populateSkuDropdown_selection : selection.

Lemma onCapacitySelectionChange_selection : Obeys P Q onCapacitySelectionChange.
Proof. unfold P, onCapacitySelectionChange. repeat sel_step. Qed.

End Selection.

#[global] Hint Resolve debugLog_selection logSuccess_selection log_selection
  logError_selection loadAvailableSkus_selection populateSkuDropdown_selection
  onCapacitySelectionChange_selection : selection.

Lemma obeys_ends {A} P Q (s : Step A) sc :
  obeys P Q s -> ends s sc (fun _ w' _ => P w').
Proof. intros H. exact (proj1 (obeys_run P Q s sc H)). Qed.

Lemma refreshLoop_keeps w0 ids :
  forall acc, Obeys (frame w0) (fun _ => True) (refreshLoop ids acc).
Proof.
  induction ids as [|id ids IH]; intros acc; simpl.
  - apply Obeys_ret.
  - apply Obeys_bind; [|intros a; apply IH]. keeps_auto.
Qed.

Lemma unique_nonempty ids : ids <> [] -> unique [] ids <> [].
Proof. destruct ids; [congruence|]. simpl. discriminate. Qed.

(** ** Selection across a refresh *)

Arguments capacityAt : simpl never.

Lemma capacityAt_caps w w' i :
  capacities (mgr w') = capacities (mgr w) -> capacityAt w' i = capacityAt w i.
Proof. unfold capacityAt. now intros ->. Qed.

Lemma capacityAt_some w i c : capacityAt w i = Some c -> capacities (mgr w) <> [].
Proof.
  unfold capacityAt. destruct (JsNumber.parseInt i); [|discriminate].
  destruct (z <? 0)%Z; [discriminate|].
  destruct (capacities (mgr w)); [|discriminate]. now destruct (Z.to_nat z).
Qed.

Lemma capacityAt_index w n :
  capacityAt w (JsNumber.toString (Z.of_nat n)) = nth_error (capacities (mgr w)) n.
Proof.
  unfold capacityAt. rewrite parseInt_toString.
  assert (E : (Z.of_nat n <? 0)%Z = false) by (apply Z.ltb_ge; lia).
  rewrite E, Nat2Z.id. reflexivity.
Qed.

Lemma ends_catchStep_keeps {A} P Q (s : Step A) (h : JsError -> Async A) sc :
  ends s sc (fun _ w' _ => P w') ->
  (forall e, Obeys P Q (h e)) ->
  ends (catchStep s h) sc (fun _ w' _ => P w').
Proof.
  intros Hs Hh. apply ends_catchStep. unfold ends in Hs.
  destruct (outcome (run s sc)); try exact Hs.
  apply (obeys_ends P Q). apply Hh. exact Hs.
Qed.

Lemma ends_finallyStep_keeps {A} P Q (s : Step A) (fin : Async unit) sc :
  ends s sc (fun _ w' _ => P w') ->
  Obeys P Q fin ->
  ends (finallyStep s fin) sc (fun _ w' _ => P w').
Proof.
  intros Hs Hf. apply ends_finallyStep. unfold ends in Hs.
  destruct (outcome (run s sc)); try exact Hs.
  - apply (obeys_ends P Q (fin _)). apply Hf. exact Hs.
  - apply (obeys_ends P Q (fin _)). apply Hf. exact Hs.
Qed.

Opaque refreshLoop onCapacitySelectionChange.

Lemma refreshCapacities_ends w sc previous id refreshed :
  log_ready w ->
  JsString.truthy (accessToken (mgr w)) = true ->
  loadingIndicator_display (dom w) <> "block" ->
  selectedCapacity w = Some previous ->
  cap_id previous = Some id ->
  id <> "" ->
  outcome (run (refreshLoop (knownScopes w) [] (refreshStart w)) sc) = Ok refreshed ->
  let s0 := Select.setDisabled true (capacitySelect (dom w)) in
  let opts := sel_options (rebuilt refreshed s0) in
  let sel :=
    match Select.findIndex (hasId id) refreshed with
    | Some newIndex =>
        Select.findIndex
          (fun o => String.eqb (opt_value o) (JsNumber.toString (Z.of_nat newIndex))) opts
    | None => sel_selected (rebuilt refreshed s0)
    end in
  ends (refreshCapacities w) sc (fun _ w' _ => selection refreshed opts sel w').
Proof.
  intros Hready Htok Hload Hsel Hid Hne Hpass s0 opts sel.
  unfold selectedCapacity in Hsel.
  destruct (String.eqb (Select.value (capacitySelect (dom w))) "") eqn:Hval; [discriminate|].
  pose proof (capacityAt_some _ _ _ Hsel) as Hcaps.
  unfold refreshCapacities.
  unfold bind at 1, get at 1. simpl bindStep.
  rewrite Htok. cbv beta iota delta [negb].
  apply String.eqb_neq in Hload. rewrite Hload.
  unfold tryFinally, tryCatch.
  set (P := selection refreshed opts sel).
  match goal with |- ends (finallyStep (catchStep ?b ?h) ?f) sc _ =>
    assert (B : ends b sc (fun _ w' _ => P w'))
  end.
  { unfold bind at 1. rewrite (debugLog_ready _ _ Hready). simpl bindStep.
    unfold bind at 1, get at 1. simpl bindStep. cbv zeta.
    change (capacitySelect (dom (debugged "Refreshing capacity status..." w)))
      with (capacitySelect (dom w)).
    rewrite Hval.
    rewrite (capacityAt_caps w (debugged "Refreshing capacity status..." w)) by reflexivity.
    rewrite Hsel, Hid.
    unfold bind at 1, updCapacitySelect at 1, modify at 1. simpl bindStep.
    unfold bind at 1, modify at 1. simpl bindStep.
    unfold bind at 1, modify at 1. simpl bindStep.
    change (capacities (mgr (debugged "Refreshing capacity status..." w)))
      with (capacities (mgr w)).
    fold (knownScopes w).
    assert (Hk : (List.length (knownScopes w) =? 0)%nat = false).
    { apply Nat.eqb_neq. intros E. apply length_zero_iff_nil in E.
      revert E. apply unique_nonempty. destruct (capacities (mgr w)); [congruence|discriminate]. }
    rewrite Hk.
    unfold bind at 1. apply ends_bindStep.
    change (run (refreshLoop (knownScopes w) [] _) sc)
      with (run (refreshLoop (knownScopes w) [] (refreshStart w)) sc).
    set (pass := run (refreshLoop (knownScopes w) [] (refreshStart w)) sc) in *.
    rewrite Hpass.
    assert (Hf : frame (refreshStart w) (final pass)).
    { apply run_final_frame. intros w0. apply refreshLoop_keeps. }
    assert (R1 : log_ready (final pass)).
    { eapply frame_log_ready; [exact Hf|]. unfold refreshStart. ready. }
    unfold bind at 1, modify at 1. simpl bindStep.
    set (w3 := upd_mgr (set_capacities refreshed) (final pass)).
    assert (R3 : log_ready w3) by (unfold w3; ready).
    destruct (populateCapacityDropdown_returns w3 R3) as (la & Hla & Hpop).
    apply (ends_bind_Done _ _ _ tt _ _ _ Hpop).
    match goal with |- ends (_ ?x) _ _ => set (w4 := x) end.
    assert (H4c : capacities (mgr w4) = refreshed) by reflexivity.
    assert (H4s : capacitySelect (dom w4) = rebuilt refreshed s0).
    { unfold w4, w3. simpl. f_equal.
      destruct Hf as (_ & _ & _ & _ & _ & Hcs & _). rewrite Hcs. reflexivity. }
    clearbody w4.
    destruct id as [|i0 id']; [congruence|].
    unfold bind at 1. unfold bind at 1, get at 1. simpl bindStep.
    rewrite H4c.
    destruct (Select.findIndex (hasId (String i0 id')) refreshed) as [newIndex|] eqn:Hfind.
    - unfold bind at 1, updCapacitySelect at 1, modify at 1. simpl bindStep.
      apply (obeys_ends P (fun _ => True)).
      apply obeys_bindStep.
      + apply onCapacitySelectionChange_selection.
        unfold P, selection. simpl. rewrite H4s. repeat split; assumption.
      + intros _. unfold P. repeat sel_step.
    - unfold ret at 1. simpl bindStep. unfold bind at 1, get at 1. simpl bindStep.
      apply (obeys_ends P (fun _ => True)). apply debugLog_selection.
      unfold P, selection. rewrite H4s. repeat split; assumption. }
  apply (ends_finallyStep_keeps P (fun _ => True)).
  - apply (ends_catchStep_keeps P (fun _ => True)); [exact B|].
    intros e. apply logError_selection.
  - unfold P, updCapacitySelect. repeat sel_step.
Qed.

Lemma hasId_true id c : hasId id c = true <-> cap_id c = Some id.
Proof.
  unfold hasId, sameString. destruct (cap_id c) as [x|].
  - rewrite String.eqb_eq. split; congruence.
  - split; discriminate.
Qed.

Lemma hasId_false id c : hasId id c = false <-> cap_id c <> Some id.
Proof.
  rewrite <- hasId_true. destruct (hasId id c); split; congruence.
Qed.

Lemma selectedCapacity_index w n c p :
  sel_selected (capacitySelect (dom w)) = Some (S n) ->
  sel_options (capacitySelect (dom w)) = p :: optionsFor 0 (capacities (mgr w)) ->
  nth_error (capacities (mgr w)) n = Some c ->
  selectedCapacity w = Some c.
Proof.
  intros Hs Ho Hn. unfold selectedCapacity.
  assert (Hv : Select.value (capacitySelect (dom w)) = JsNumber.toString (Z.of_nat n)).
  { erewrite value_selected; [|exact Hs|rewrite Ho; simpl; apply optionsFor_nth; exact Hn].
    reflexivity. }
  rewrite Hv. destruct (String.eqb_spec (JsNumber.toString (Z.of_nat n)) "") as [E|_].
  - now apply toString_nonempty in E.
  - rewrite capacityAt_index. exact Hn.
Qed.

(** C6 (for a refresh that goes to the network): [refreshCapacities], called
    with an access token and no load in progress on a drop-down that
    designates a capacity with identifier [id], stores the capacities that
    its pass over the known subscriptions produced; if none of them has the
    identifier [id], the drop-down is back on its placeholder and designates
    no capacity; if one of them has it, at whatever index, the drop-down
    designates a capacity with that identifier. *)
Theorem refreshCapacities_selection_continuity w sc previous id refreshed :
  log_ready w ->
  JsString.truthy (accessToken (mgr w)) = true ->
  loadingIndicator_display (dom w) <> "block" ->
  hasPlaceholder (capacitySelect (dom w)) ->
  selectedCapacity w = Some previous ->
  cap_id previous = Some id ->
  id <> "" ->
  outcome (run (refreshLoop (knownScopes w) [] (refreshStart w)) sc) = Ok refreshed ->
  let after := final (run (refreshCapacities w) sc) in
  capacities (mgr after) = refreshed /\
  ((forall c, In c refreshed -> cap_id c <> Some id) ->
     Select.value (capacitySelect (dom after)) = "" /\ selectedCapacity after = None) /\
  (forall n c, nth_error refreshed n = Some c -> cap_id c = Some id ->
     exists c', selectedCapacity after = Some c' /\ cap_id c' = Some id /\ In c' refreshed).
Proof.
  intros Hready Htok Hload (p & others & Hopts & Hpv & Hpd) Hsel Hid Hne Hpass after.
  pose proof (refreshCapacities_ends w sc previous id refreshed
                Hready Htok Hload Hsel Hid Hne Hpass) as E.
  cbv zeta in E. unfold ends, selection in E. fold after in E.
  destruct E as (Hc & Ho & Hs).
  destruct (rebuilt_placeholder refreshed (Select.setDisabled true (capacitySelect (dom w)))
              p others Hopts Hpd) as (Hr0 & tail & Hrt & Htail).
  split; [exact Hc|]. split.
  - intros Hnone.
    assert (F : Select.findIndex (hasId id) refreshed = None).
    { apply findIndex_none. intros x Hx. apply hasId_false. auto. }
    rewrite F, Hr0 in Hs. rewrite Hrt in Ho.
    assert (V : Select.value (capacitySelect (dom after)) = "").
    { rewrite (value_selected _ 0%nat p Hs); [exact Hpv|]. rewrite Ho. reflexivity. }
    split; [exact V|]. unfold selectedCapacity. rewrite V. reflexivity.
  - intros n c Hn Hcid.
    destruct (Select.findIndex (hasId id) refreshed) as [newIndex|] eqn:F.
    + destruct (findIndex_spec _ _ _ F) as (c' & Hn' & Hc').
      apply hasId_true in Hc'.
      assert (Hne' : refreshed <> []) by (intros ->; destruct n; discriminate).
      rewrite Hrt, (Htail Hne') in Ho.
      assert (E0 : ("" =? JsNumber.toString (Z.of_nat newIndex)) = false).
      { apply String.eqb_neq. intros E0. symmetry in E0. now apply toString_nonempty in E0. }
      assert (OF : (newIndex < List.length refreshed)%nat) by (apply nth_error_Some; congruence).
      apply (optionsFor_find 0 refreshed newIndex) in OF.
      change (0 + newIndex)%nat with newIndex in OF.
      rewrite Hrt, (Htail Hne') in Hs. cbn [Select.findIndex] in Hs.
      rewrite Hpv, E0, OF in Hs. cbn [option_map] in Hs.
      exists c'. split; [|split; [exact Hc'|eapply nth_error_In; exact Hn']].
      apply (selectedCapacity_index after newIndex c' p); rewrite ?Hc; assumption.
    + exfalso. pose proof (proj1 (findIndex_none _ _) F c (nth_error_In _ _ Hn)) as Hf.
      apply hasId_false in Hf. contradiction.
Qed.

(** ** Clicks while an operation is in flight *)




(** ** The claims on the sample popup *)

(** C1 on the sample popup: a 401, a silent renewal that succeeds and a
    retried request that returns the subscriptions; then a 401, a silent
    renewal that is refused twice, an interactive sign-in and a retried
    request that fails. *)
Lemma makeApiCall_renews_once_on_401_witness :
  (outcome (run (makeApiCall "https://management.azure.com/subscriptions" "GET" None
                             Sample.fresh)
                (Sample.script [Sample.respond 401 "expired"; Sample.respond 200 "subs"]
                               [Sample.granted "01020304" "tok1"])) =
     Ok Sample.subscriptionsJson /\
   count isFetch
     (issued (run (makeApiCall "https://management.azure.com/subscriptions" "GET" None
                               Sample.fresh)
                  (Sample.script [Sample.respond 401 "expired"; Sample.respond 200 "subs"]
                                 [Sample.granted "01020304" "tok1"]))) = 2%nat) /\
  outcome (run (makeApiCall "https://management.azure.com/subscriptions" "GET" None
                            Sample.fresh)
               (Sample.script [Sample.respond 401 "expired"; Sample.respond 500 "down"]
                              [Sample.denied; Sample.denied;
                               Sample.granted "090a0b0c" "tok2"])) =
    Throw (mkError "API call failed after authentication retry: 500 -").
Proof.
  assert (Hready : log_ready Sample.fresh) by (intros _; discriminate).
  split.
  - destruct (makeApiCall_renews_once_on_401 Sample.fresh
                "https://management.azure.com/subscriptions" "GET" None
                (Sample.script [Sample.respond 401 "expired"; Sample.respond 200 "subs"]
                               [Sample.granted "01020304" "tok1"])
                {| status := 401; statusText := "-"; text := "expired" |}
                [Sample.respond 200 "subs"]
                Hready eq_refl eq_refl eq_refl) as (_ & Hrenewed & _).
    destruct (Hrenewed "tok1" {| status := 200; statusText := "-"; text := "subs" |} []
                       Sample.subscriptionsJson) as (Hout & Hcount & _).
    + vm_compute. reflexivity.
    + discriminate.
    + reflexivity.
    + reflexivity.
    + right. split; [discriminate | reflexivity].
    + split; [exact Hout | exact Hcount].
  - destruct (makeApiCall_renews_once_on_401 Sample.fresh
                "https://management.azure.com/subscriptions" "GET" None
                (Sample.script [Sample.respond 401 "expired"; Sample.respond 500 "down"]
                               [Sample.denied; Sample.denied;
                                Sample.granted "090a0b0c" "tok2"])
                {| status := 401; statusText := "-"; text := "expired" |}
                [Sample.respond 500 "down"]
                Hready eq_refl eq_refl eq_refl) as (_ & _ & Hfallback).
    destruct Hfallback as (_ & Hfails).
    + vm_compute. reflexivity.
    + destruct (Hfails "tok2" {| status := 500; statusText := "-"; text := "down" |} [])
        as (Hout & _).
      * vm_compute. reflexivity.
      * vm_compute. reflexivity.
      * reflexivity.
      * exact Hout.
Defined.

(** C2 (amended) on the sample popup: the stored token is changed in its
    second character. *)
Lemma getCachedToken_fingerprint_guard_witness :
  exists msg,
    getCachedToken (Sample.overwriteToken "Ab" (Sample.cached "Aa")) =
      Done (Ok None) (debugged msg (Sample.overwriteToken "Ab" (Sample.cached "Aa"))).
Proof.
  apply (getCachedToken_fingerprint_guard
           (Sample.overwriteToken "Ab" (Sample.cached "Aa"))
           {| cachedAt := 1700000000000; tenantId := None; userPrincipalName := None;
              tokenHash := "2112" |}
           "Ab").
  - intros _. vm_compute. discriminate.
  - vm_compute. reflexivity.
  - vm_compute. reflexivity.
  - vm_compute. discriminate.
Defined.

(** C2, as stated, fails: [cacheToken] stores a token and its fingerprint;
    the stored token is then replaced by one that differs from it after the
    hundredth character, the fingerprint left as it was; the next
    [getCachedToken] returns the replacement instead of null. *)
Lemma getCachedToken_accepts_mutated_token :
  st_accessToken (storage (browser (Sample.cached Sample.tokenA))) = Some Sample.tokenA /\
  String.eqb Sample.tokenA Sample.tokenB = false /\
  st_sessionInfo (storage (browser (Sample.overwriteToken Sample.tokenB
                                      (Sample.cached Sample.tokenA)))) =
    st_sessionInfo (storage (browser (Sample.cached Sample.tokenA))) /\
  option_map tokenHash (st_sessionInfo (storage (browser (Sample.cached Sample.tokenA)))) =
    Some (generateTokenHash Sample.tokenA) /\
  outcome (run (getCachedToken (Sample.overwriteToken Sample.tokenB
                                  (Sample.cached Sample.tokenA)))
               (Sample.script [] [])) = Ok (Some Sample.tokenB).
Proof. repeat split; vm_compute; reflexivity. Qed.

(** C3 on the sample popup: a token that expires in one minute, and for the
    earlier revision a token that expires in four minutes. *)
Lemma getCachedToken_expiry_buffer_witness :
  ((exists msg,
       getCachedToken (Sample.expiring 60000) =
         Done (Ok None) (debugged msg (Sample.expiring 60000))) /\
   (exists rq w' k,
       authenticate (Sample.expiring 60000) = AwaitAuth rq w' k /\
       auth_interactive rq = true)) /\
  (exists msg,
      Legacy.getCachedToken (Sample.expiring 240000) =
        Done (Ok None) (debugged msg (Sample.expiring 240000))).
Proof.
  split.
  - apply (getCachedToken_expiry_buffer (Sample.expiring 60000) "1700000060000"
             1700000060000%Z).
    + intros _. vm_compute. discriminate.
    + vm_compute. reflexivity.
    + vm_compute. reflexivity.
    + vm_compute. reflexivity.
  - apply (getCachedToken_expiry_buffer (Sample.expiring 240000) "1700000240000"
             1700000240000%Z).
    + intros _. vm_compute. discriminate.
    + vm_compute. reflexivity.
    + vm_compute. reflexivity.
    + vm_compute. reflexivity.
Defined.



(** C7 on the sample popup: B is chosen, and the SKU drop-down shows its
    current SKU. *)
Lemma updateCapacitySku_same_sku_no_call_witness :
  updateCapacitySku Sample.chosen =
    Done (Ok tt) (appendLine (Line false "No SKU change required") Sample.chosen) /\
  issued (run (updateCapacitySku Sample.chosen) (Sample.script [] [])) = [].
Proof.
  destruct (updateCapacitySku_same_sku_no_call Sample.chosen Sample.capB) as (Hret & Hrun & _).
  - vm_compute. discriminate.
  - vm_compute. reflexivity.
  - vm_compute. reflexivity.
  - split; [exact Hret | exact (Hrun (Sample.script [] []))].
Defined.

(** C8 on the sample popup: the response carries a state of its own. *)
Lemma extractTokenFromUrl_rejects_forged_state_witness :
  extractTokenFromUrl
    {| href := "https://ext.chromiumapp.org/#";
       fragmentParams := Some [("state", "forged"); ("access_token", "stolen");
                               ("expires_in", "3599")] |}
    "01020304" Sample.fresh = Done (Throw csrfError) Sample.fresh /\
  outcome (run (attemptOAuth2WithScope "scope" Sample.fresh)
               (Sample.script [] [Sample.granted "forged" "stolen"])) = Throw csrfError /\
  accessToken (mgr (final (run (attemptOAuth2WithScope "scope" Sample.fresh)
                               (Sample.script [] [Sample.granted "forged" "stolen"])))) =
    Some "tok0" /\
  storage (browser (final (run (attemptOAuth2WithScope "scope" Sample.fresh)
                               (Sample.script [] [Sample.granted "forged" "stolen"])))) =
    storage (browser Sample.fresh).
Proof.
  destruct (extractTokenFromUrl_rejects_forged_state
              {| href := "https://ext.chromiumapp.org/#";
                 fragmentParams := Some [("state", "forged"); ("access_token", "stolen");
                                         ("expires_in", "3599")] |}
              [("state", "forged"); ("access_token", "stolen"); ("expires_in", "3599")]
              Sample.fresh) as (Hextract & Hflow).
  - intros _. vm_compute. discriminate.
  - reflexivity.
  - split.
    + apply Hextract. vm_compute. discriminate.
    + destruct (Hflow ltac:(vm_compute; discriminate) "scope"
                  (Sample.granted "forged" "stolen") [] [] eq_refl eq_refl)
        as (Hi & _ & Ht & _ & Hs & _).
      split; [exact Hi|]. split; [exact Ht | exact Hs].
Defined.

(** C9 on the sample popup: a token with six parts, a payload that is not
    base64, a payload that does not parse, and a token whose payload
    parses. *)
Lemma decodeJwtToken_never_throws_witness :
  (exists w', decodeJwtToken "not.a.jwt.at.all" Sample.fresh = Done (Ok JNull) w') /\
  (exists w', decodeJwtToken "a.!!.c" Sample.fresh = Done (Ok JNull) w') /\
  (exists w', decodeJwtToken "a.YWJj.c" Sample.fresh = Done (Ok JNull) w') /\
  (exists w', decodeJwtToken "a.Y2xhaW1z.c" Sample.fresh =
                Done (Ok (JObj [("tid", JStr "t1"); ("upn", JStr "u@contoso.com")])) w').
Proof.
  assert (Hready : log_ready Sample.fresh) by (intros _; discriminate).
  repeat split.
  - destruct (decodeJwtToken_never_throws "not.a.jwt.at.all" Sample.fresh Hready)
      as (claims & w' & E & Hparts & _).
    exists w'. rewrite E, Hparts; [reflexivity|]. vm_compute. discriminate.
  - destruct (decodeJwtToken_never_throws "a.!!.c" Sample.fresh Hready)
      as (claims & w' & E & _ & Hpayload & _).
    exists w'. rewrite E, Hpayload; [reflexivity|]. vm_compute. reflexivity.
  - destruct (decodeJwtToken_never_throws "a.YWJj.c" Sample.fresh Hready)
      as (claims & w' & E & _ & _ & Hjson & _).
    exists w'. rewrite E, (Hjson "abc"); [reflexivity| |]; vm_compute; reflexivity.
  - destruct (decodeJwtToken_never_throws "a.Y2xhaW1z.c" Sample.fresh Hready)
      as (claims & w' & E & _ & _ & _ & Hok).
    exists w'. rewrite E, (Hok "claims" (JObj [("tid", JStr "t1"); ("upn", JStr "u@contoso.com")]));
      [reflexivity| | |]; vm_compute; reflexivity.
Defined.

(** C5 on the sample popup: two subscriptions; the query of the first
    returns C, A, B, the query of the second fails with status 500. *)
Lemma loadCapacities_scope_isolation_witness :
  outcome (run (loadCapacities Sample.fresh)
               (Sample.script [Sample.respond 200 "subs"; Sample.respond 200 "CAB";
                               Sample.respond 500 "down"] [])) = Ok tt /\
  capacities (mgr (final (run (loadCapacities Sample.fresh)
                              (Sample.script [Sample.respond 200 "subs";
                                              Sample.respond 200 "CAB";
                                              Sample.respond 500 "down"] [])))) =
    [Sample.capC; Sample.capA; Sample.capB] /\
  incl [Sample.capC; Sample.capA; Sample.capB]
       (capacities (mgr (final (run (loadCapacities Sample.fresh)
                                    (Sample.script [Sample.respond 200 "subs";
                                                    Sample.respond 200 "CAB";
                                                    Sample.respond 500 "down"] []))))).
Proof.
  destruct (loadCapacities_scope_isolation Sample.fresh
              (Sample.script [Sample.respond 200 "subs"; Sample.respond 200 "CAB";
                              Sample.respond 500 "down"] [])
              [JObj [("subscriptionId", JStr "s1"); ("displayName", JStr "One")];
               JObj [("subscriptionId", JStr "s2"); ("displayName", JStr "Two")]])
    as (Hout & Hcaps & Hothers).
  - intros _. vm_compute. discriminate.
  - vm_compute. reflexivity.
  - vm_compute. reflexivity.
  - repeat constructor; discriminate.
  - vm_compute. repeat constructor; discriminate.
  - split; [exact Hout|]. split.
    + rewrite Hcaps. vm_compute. reflexivity.
    + apply (Hothers 1%nat (mkError "API call failed: 500 -")
               ltac:(vm_compute; reflexivity) 0%nat).
      * discriminate.
      * vm_compute. reflexivity.
Defined.

(** C6 (amended) on the sample popup: B is selected among A, B, C; a refresh
    that returns C, A, B selects B again, a refresh that returns A, C
    clears the selection. *)
Lemma refreshCapacities_selection_continuity_witness :
  (exists c',
      selectedCapacity (final (run (refreshCapacities Sample.loaded)
                                   (Sample.script [Sample.respond 200 "CAB"] []))) =
        Some c' /\
      cap_id c' = cap_id Sample.capB /\
      In c' [Sample.capC; Sample.capA; Sample.capB]) /\
  Select.value
    (capacitySelect (dom (final (run (refreshCapacities Sample.loaded)
                                     (Sample.script [Sample.respond 200 "AC"] []))))) = "".
Proof.
  split.
  - destruct (refreshCapacities_selection_continuity Sample.loaded
                (Sample.script [Sample.respond 200 "CAB"] []) Sample.capB
                "/subscriptions/s1/providers/Microsoft.Fabric/capacities/B"
                [Sample.capC; Sample.capA; Sample.capB]) as (_ & _ & Hfound).
    + intros _. vm_compute. discriminate.
    + vm_compute. reflexivity.
    + vm_compute. discriminate.
    + exists Sample.placeholder, (map (fun ic => capacityOption (fst ic) (snd ic))
                                    (indexed [Sample.capA; Sample.capB; Sample.capC])).
      vm_compute. repeat split; reflexivity.
    + vm_compute. reflexivity.
    + vm_compute. reflexivity.
    + discriminate.
    + vm_compute. reflexivity.
    + exact (Hfound 2%nat Sample.capB eq_refl eq_refl).
  - destruct (refreshCapacities_selection_continuity Sample.loaded
                (Sample.script [Sample.respond 200 "AC"] []) Sample.capB
                "/subscriptions/s1/providers/Microsoft.Fabric/capacities/B"
                [Sample.capA; Sample.capC]) as (_ & Hgone & _).
    + intros _. vm_compute. discriminate.
    + vm_compute. reflexivity.
    + vm_compute. discriminate.
    + exists Sample.placeholder, (map (fun ic => capacityOption (fst ic) (snd ic))
                                    (indexed [Sample.capA; Sample.capB; Sample.capC])).
      vm_compute. repeat split; reflexivity.
    + vm_compute. reflexivity.
    + vm_compute. reflexivity.
    + discriminate.
    + vm_compute. reflexivity.
    + apply Hgone. intros c [<- | [<- | []]]; vm_compute; discriminate.
Defined.

(** C6, as stated, fails: with no access token in memory, [refreshCapacities]
    hands over to [loadCapacities], which rebuilds the drop-down and does
    not look for the capacity that was selected.  B is selected among A, B,
    C, and the token was dropped when a sign-in was given up; the refresh
    signs in and loads C, A, B; the drop-down ends on its placeholder
    although B is in the list. *)
Lemma refreshCapacities_without_token_drops_selection :
  accessToken (mgr Sample.signedOut) = None /\
  capacities (mgr Sample.signedOut) = [Sample.capA; Sample.capB; Sample.capC] /\
  selectedCapacity Sample.signedOut = Some Sample.capB /\
  outcome (run (refreshCapacities Sample.signedOut)
               (Sample.script [Sample.respond 200 "subs"; Sample.respond 200 "CAB";
                               Sample.respond 404 "none"]
                              [Sample.granted "0d0e0f10" "tok1"])) = Ok tt /\
  capacities (mgr (final (run (refreshCapacities Sample.signedOut)
               (Sample.script [Sample.respond 200 "subs"; Sample.respond 200 "CAB";
                               Sample.respond 404 "none"]
                              [Sample.granted "0d0e0f10" "tok1"])))) =
    [Sample.capC; Sample.capA; Sample.capB] /\
  Select.value (capacitySelect (dom (final (run (refreshCapacities Sample.signedOut)
               (Sample.script [Sample.respond 200 "subs"; Sample.respond 200 "CAB";
                               Sample.respond 404 "none"]
                              [Sample.granted "0d0e0f10" "tok1"]))))) = "" /\
  selectedCapacity (final (run (refreshCapacities Sample.signedOut)
               (Sample.script [Sample.respond 200 "subs"; Sample.respond 200 "CAB";
                               Sample.respond 404 "none"]
                              [Sample.granted "0d0e0f10" "tok1"]))) = None.
Proof. repeat split; vm_compute; reflexivity. Qed.

(** ** Samples of the engine's functions *)

Example parseInt_samples :
  JsNumber.parseInt "1717171717000" = Some 1717171717000%Z /\
  JsNumber.parseInt "  -12px" = Some (-12)%Z /\
  JsNumber.parseInt "0x1f" = Some 31%Z /\
  JsNumber.parseInt "abc" = None /\
  JsNumber.parseInt "" = None.
Proof. repeat split; reflexivity. Qed.

Example toString_samples :
  JsNumber.toString 0 = "0" /\ JsNumber.toString 2112 = "2112" /\
  JsNumber.toString (-45) = "-45" /\
  JsNumber.N_toString 16 255 = "ff" /\ JsNumber.N_toString 16 4294967295 = "ffffffff".
Proof. repeat split; reflexivity. Qed.

Example generateState_sample :
  generateState_of [0x12345678; 5; 0xabcdef01; 0xff]%N = "780501ff".
Proof. reflexivity. Qed.

Example generateTokenHash_samples :
  generateTokenHash "" = "0" /\ generateTokenHash "Aa" = "2112" /\
  generateTokenHash "BB" = "2112".
Proof. repeat split; reflexivity. Qed.

(** * Further properties *)

(** * Further properties *)

(** ** Numerals of any sign *)

Lemma unsignedInt_decimal s :
  allDecimal s -> s <> "" ->
  JsNumber.unsignedInt s = Some (Z.of_N (JsNumber.readDigits 10 s 0)).
Proof.
  destruct s as [|c s]; [congruence|]. intros [Hc Hs] _.
  destruct (decimal_plain c Hc) as (Hw & Hm & Hp & Hx & HX & d & Hd).
  unfold JsNumber.unsignedInt, JsNumber.startsWithDigit. rewrite Hd.
  destruct (Ascii.eqb_spec c "0") as [-> | Hne].
  - destruct s as [|x s']; [reflexivity|]. destruct Hs as [Hx' _].
    destruct (decimal_plain x Hx') as (_ & _ & _ & E1 & E2 & _).
    rewrite E1, E2. reflexivity.
  - destruct c as [[] [] [] [] [] [] [] []]; try reflexivity; now elim Hne.
Qed.

Lemma readDigits_N_toString n :
  JsNumber.readDigits 10 (JsNumber.N_toString 10 n) 0 = n.
Proof.
  unfold JsNumber.N_toString. rewrite readDigits_toDigits; [reflexivity|].
  rewrite Nat2N.inj_succ, N2Nat.id.
  destruct (N.eq_dec n 0) as [-> | Hpos]; [reflexivity|].
  apply N.log2_spec. lia.
Qed.

(** [parseInt(z.toString())] is [z]. *)
Lemma parseInt_toString_Z z : JsNumber.parseInt (JsNumber.toString z) = Some z.
Proof.
  destruct (Z.ltb_spec z 0) as [Hneg | Hpos].
  - unfold JsNumber.toString. replace (z <? 0)%Z with true by (symmetry; apply Z.ltb_lt; lia).
    unfold JsNumber.parseInt. cbn [JsNumber.skipWhite].
    change (JsNumber.isWhite "-") with false. cbv iota.
    rewrite unsignedInt_decimal.
    + rewrite readDigits_N_toString. simpl. f_equal. lia.
    + apply toDigits_decimal. exact I.
    + apply toDigits_nonempty.
  - replace z with (Z.of_nat (Z.to_nat z)) by lia. apply parseInt_toString.
Qed.

Lemma toString_nonempty_Z z : JsNumber.toString z <> "".
Proof.
  intros H. pose proof (parseInt_toString_Z z) as Hz. rewrite H in Hz. discriminate.
Qed.

(** ** The token cache *)

Lemma atTime_ready t w : log_ready w -> log_ready (atTime t w).
Proof. intros H. exact H. Qed.

Lemma cacheToken_stores token e w :
  log_ready w ->
  storage_lastError (browser w) = None ->
  exists stored si,
    cacheToken token e w = Done (Ok tt) stored /\
    frame w stored /\
    tokenHash si = generateTokenHash token /\
    cachedAt si = now (browser w) /\
    storage (browser stored) =
      {| st_accessToken := Some token;
         st_tokenExpiry :=
           Some (JsNumber.toString (now (browser w) + lifetimeSeconds e * 1000));
         st_sessionInfo := Some si |}.
Proof.
  intros Hready Herr. unfold cacheToken. fold (lifetimeSeconds e).
  unfold bind at 1, get at 1. simpl bindStep.
  destruct (decodeJwtToken_returns token w Hready) as (w1 & E1 & F1 & M1 & B1 & _).
  unfold bind at 1. rewrite E1. simpl bindStep.
  unfold bind at 1, get at 1. simpl bindStep.
  assert (R1 : log_ready w1) by (eapply frame_log_ready; eauto).
  unfold bind at 1. rewrite (debugLog_ready _ _ R1). simpl bindStep.
  set (w2 := debugged _ w1).
  assert (R2 : log_ready w2) by (unfold w2; ready).
  assert (Herr2 : storage_lastError (browser w2) = None).
  { unfold w2, debugged. simpl. rewrite B1. exact Herr. }
  assert (F2 : frame w w2).
  { eapply frame_trans; [exact F1|]. apply debugged_frame. }
  assert (B2 : browser w2 = browser w) by (unfold w2, debugged; simpl; exact B1).
  clearbody w2.
  unfold settle, bind, get. simpl. rewrite Herr2. unfold modify. simpl.
  step_debugLog. simpl.
  eexists. eexists. split; [reflexivity|].
  split.
  { eapply frame_trans; [exact F2|].
    unfold debugged, frame. simpl. rewrite present_if_addLine. repeat split. }
  simpl. refine (conj _ (conj _ eq_refl)); simpl; [reflexivity|now rewrite B1].
Qed.

Lemma getCachedToken_hit w token tokenExpiry expiresAt si :
  log_ready w ->
  storage_lastError (browser w) = None ->
  storage (browser w) =
    {| st_accessToken := Some token; st_tokenExpiry := Some tokenExpiry;
       st_sessionInfo := Some si |} ->
  token <> "" -> tokenExpiry <> "" ->
  tokenHash si = generateTokenHash token ->
  JsNumber.parseInt tokenExpiry = Some expiresAt ->
  (now (browser w) < expiresAt - 2 * 60 * 1000)%Z ->
  exists msg, getCachedToken w = Done (Ok (Some token)) (debugged msg w).
Proof.
  intros Hready Herr Hst Htok Hexp Hhash Hparse Hlt.
  unfold getCachedToken, settle, bind, get. simpl.
  rewrite Herr, Hst. simpl.
  destruct token as [|a0 a']; [congruence|].
  destruct tokenExpiry as [|e0 e']; [congruence|].
  rewrite Hhash, String.eqb_refl. simpl. rewrite Hparse. simpl.
  replace (now (browser w) >=? expiresAt - 120000)%Z with false by lia.
  step_debugLog. asimpl. eauto.
Qed.

Lemma getCachedToken_stale w tokenExpiry expiresAt :
  log_ready w ->
  st_tokenExpiry (storage (browser w)) = Some tokenExpiry ->
  JsNumber.parseInt tokenExpiry = Some expiresAt ->
  (expiresAt - 2 * 60 * 1000 <= now (browser w))%Z ->
  exists msg, getCachedToken w = Done (Ok None) (debugged msg w).
Proof.
  intros Hready Hexp Hparse Hle.
  unfold getCachedToken, settle, bind, get. simpl.
  destruct (storage_lastError (browser w)); simpl.
  { step_debugLog. asimpl. eauto. }
  rewrite Hexp.
  destruct (st_accessToken (storage (browser w))) as [[|a0 a']|]; simpl;
    try (step_debugLog; asimpl; eauto; fail).
  destruct tokenExpiry as [|e0 e']; simpl;
    try (step_debugLog; asimpl; eauto; fail).
  destruct (st_sessionInfo (storage (browser w))) as [si|]; simpl.
  - destruct (String.eqb (tokenHash si) (generateTokenHash (String a0 a'))); simpl;
      try (step_debugLog; asimpl; eauto; fail).
    rewrite Hparse. simpl.
    replace (now (browser w) >=? expiresAt - 120000)%Z with true by lia.
    step_debugLog. asimpl. eauto.
  - rewrite Hparse. simpl.
    replace (now (browser w) >=? expiresAt - 120000)%Z with true by lia.
    step_debugLog. asimpl. eauto.
Qed.

(** X1: in a popup whose elements are bound and whose store works, and
    as long as the clock, the lifetime in milliseconds and the expiry are
    integers that a JavaScript number holds exactly, a non-empty token
    written by [cacheToken] is read back by [getCachedToken] at every such
    time earlier than two minutes before its expiry, and at no later such
    time; the expiry is the time of the write plus the lifetime given, or
    plus one hour when none (or zero) is given. *)
Theorem cacheToken_getCachedToken_round_trip :
  forall (token : string) (expiresInSeconds : option Z) (w : World) (t : Z),
    log_ready w ->
    storage_lastError (browser w) = None ->
    token <> "" ->
    exactExpiry expiresInSeconds w ->
    safeInteger t ->
    let expiry := (now (browser w) + lifetimeSeconds expiresInSeconds * 1000)%Z in
    exists stored,
      cacheToken token expiresInSeconds w = Done (Ok tt) stored /\
      ((t < expiry - 2 * 60 * 1000)%Z ->
       exists w', getCachedToken (atTime t stored) = Done (Ok (Some token)) w') /\
      ((expiry - 2 * 60 * 1000 <= t)%Z ->
       exists w', getCachedToken (atTime t stored) = Done (Ok None) w').
Proof.
  intros token e w t Hready Herr Htok _ _ expiry.
  destruct (cacheToken_stores token e w Hready Herr)
    as (stored & si & E & F & Hhash & _ & Hst).
  exists stored. split; [exact E|].
  assert (R : log_ready (atTime t stored)).
  { apply atTime_ready. eapply frame_log_ready; eauto. }
  assert (Herr' : storage_lastError (browser stored) = None).
  { destruct F as (_ & _ & _ & _ & _ & _ & _ & _ & _ & _ & _ & _ & Hl & _). congruence. }
  split; intros Ht.
  - destruct (getCachedToken_hit (atTime t stored) token
                (JsNumber.toString expiry) expiry si) as [msg Hhit]; auto.
    + apply toString_nonempty_Z.
    + apply parseInt_toString_Z.
    + eauto.
  - destruct (getCachedToken_stale (atTime t stored) (JsNumber.toString expiry) expiry)
      as [msg Hmiss]; auto.
    + simpl. rewrite Hst. reflexivity.
    + apply parseInt_toString_Z.
    + eauto.
Qed.


(** ** The fingerprint of a token *)

Lemma toInt32_range z : (- 2 ^ 31 <= JsNumber.toInt32 z < 2 ^ 31)%Z.
Proof.
  unfold JsNumber.toInt32.
  pose proof (Z.mod_pos_bound (z + 2 ^ 31) (2 ^ 32) ltac:(lia)). lia.
Qed.

Lemma hashStep_range h c : (- 2 ^ 31 <= hashStep h c < 2 ^ 31)%Z.
Proof.
  unfold hashStep, JsNumber.band. cbv zeta. rewrite Z.land_diag. apply toInt32_range.
Qed.

Lemma fold_hashStep_range cs :
  forall h, (- 2 ^ 31 <= h < 2 ^ 31)%Z ->
            (- 2 ^ 31 <= fold_left hashStep cs h < 2 ^ 31)%Z.
Proof.
  induction cs as [|c cs IH]; intros h Hh; simpl; [exact Hh|].
  apply IH. apply hashStep_range.
Qed.

Lemma chars_length s : List.length (JsString.chars s) = String.length s.
Proof. induction s; simpl; auto. Qed.

Lemma chars_substring s : forall n,
  JsString.chars (substring 0 n s) = firstn n (JsString.chars s).
Proof.
  induction s as [|c s IH]; intros [|n]; simpl; auto. now rewrite IH.
Qed.

Lemma length_substring s : forall n,
  String.length (substring 0 n s) = Nat.min n (String.length s).
Proof.
  induction s as [|c s IH]; intros [|n]; simpl; auto.
Qed.

(** X3: the fingerprint [generateTokenHash] of a token is the decimal
    numeral of a number between 0 and 2^31, and it is the fingerprint of the
    first hundred characters of the token: what follows them has no part in
    it. *)
Theorem generateTokenHash_first_hundred :
  forall (token : string),
    (exists n, (0 <= n <= 2 ^ 31)%Z /\ generateTokenHash token = JsNumber.toString n) /\
    generateTokenHash token = generateTokenHash (substring 0 100 token).
Proof.
  intros token. split.
  - unfold generateTokenHash. destruct (String.length token =? 0)%nat.
    + exists 0%Z. split; [lia | reflexivity].
    + eexists. split; [|reflexivity].
      pose proof (fold_hashStep_range
                    (firstn (Nat.min (String.length token) 100) (JsString.chars token))
                    0%Z ltac:(lia)).
      lia.
  - unfold generateTokenHash.
    rewrite length_substring, chars_substring.
    destruct token as [|c token]; [reflexivity|].
    cbn [String.length]. 
    replace (Nat.min 100 (S (String.length token)) =? 0)%nat with false
      by (symmetry; apply Nat.eqb_neq; lia).
    cbn [Nat.eqb]. do 2 f_equal.
    rewrite firstn_firstn.
    replace (Init.Nat.min (Nat.min (Nat.min 100 (S (String.length token))) 100) 100)
      with (Nat.min (S (String.length token)) 100); [reflexivity|].
    change Init.Nat.min with Nat.min. lia.
Qed.

(** ** What the provider's response yields *)

(** X4: for a response whose state is the expected one, in a popup whose
    elements are bound: if the response carries an [error] parameter,
    [extractTokenFromUrl] throws and changes nothing, whether or not an
    [access_token] comes with it; if it carries neither an error nor a
    token, it throws as well; otherwise it returns the token of the
    response, with a lifetime of 3600 seconds when the response gives
    none. *)
Theorem extractTokenFromUrl_outcomes :
  forall (url : ResponseUrl) (params : list (string * string)) (expectedState : string)
         (w : World),
    log_ready w ->
    fragmentParams url = Some params ->
    paramsGet "state" params = Some expectedState ->
    (JsString.truthy (paramsGet "error" params) = true ->
     exists e, extractTokenFromUrl url expectedState w = Done (Throw e) w) /\
    (JsString.truthy (paramsGet "error" params) = false ->
     JsString.truthy (paramsGet "access_token" params) = false ->
     extractTokenFromUrl url expectedState w =
       Done (Throw (mkError "No access token found in OAuth2 response")) w) /\
    (JsString.truthy (paramsGet "error" params) = false ->
     forall token,
       paramsGet "access_token" params = Some token -> token <> "" ->
       exists info w',
         extractTokenFromUrl url expectedState w = Done (Ok info) w' /\
         ti_accessToken info = token /\
         (JsString.truthy (paramsGet "expires_in" params) = false ->
          ti_expiresIn info = Some 3600%Z) /\
         mgr w' = mgr w /\ browser w' = browser w).
Proof.
  intros url params expectedState w Hready Hp Hs.
  unfold extractTokenFromUrl. rewrite Hp, Hs. cbn [sameString].
  rewrite String.eqb_refl. cbn [negb]. cbv iota.
  repeat split.
  - destruct (paramsGet "error" params) as [[|c e]|]; try discriminate. intros _.
    asimpl. destruct (decodeURIComponent (browser w) _); eauto.
  - destruct (paramsGet "error" params) as [[|c e]|]; try discriminate; intros _;
      destruct (paramsGet "access_token" params) as [[|a t]|]; try discriminate; reflexivity.
  - destruct (paramsGet "error" params) as [[|c e]|]; try discriminate; intros _ token Ht Hne;
      rewrite Ht; (destruct token as [|a t]; [congruence|]); asimpl; step_debugLog; asimpl;
      (eexists; eexists; split; [reflexivity|]; repeat split);
      destruct (paramsGet "expires_in" params) as [[|x y]|]; try discriminate; reflexivity.
Qed.

(** ** The API client off the 401 path *)

Lemma append_empty s : s ++ "" = s.
Proof. induction s; simpl; congruence. Qed.

Lemma makeApiCall_refused w url method body sc r rs :
  log_ready w ->
  JsString.truthy (accessToken (mgr w)) = true ->
  fetchReplies sc = Responded r :: rs ->
  ok r = false -> status r <> 401%Z ->
  exists w',
    run (makeApiCall url method body w) sc =
      {| outcome := Throw (refusal r); final := w';
         rest := {| fetchReplies := rs; authReplies := authReplies sc |};
         issued := [IssuedFetch (apiRequest url method body (accessToken (mgr w)))] |} /\
    mgr w' = mgr w /\ browser w' = browser w /\ log_ready w'.
Proof.
  intros Hready Htok Hsc Hok Hst.
  unfold makeApiCall.
  unfold bind at 1, get at 1. simpl bindStep. rewrite Htok. cbv beta iota delta [negb].
  unfold bind at 1. rewrite (debugLog_ready _ _ Hready). simpl bindStep.
  unfold bind at 1, fetch. simpl. rewrite Hsc. simpl. rewrite Hok. simpl.
  unfold bind at 1. rewrite debugLog_ready by ready. simpl bindStep.
  apply Z.eqb_neq in Hst. rewrite Hst.
  unfold refusal, apiRequest, sent.
  destruct (status r =? 403)%Z; simpl.
  - eexists. split.
    + destruct (JsString.includes "admin consent" (text r) ||
                JsString.includes "consent" (text r))%bool; [reflexivity|].
      destruct (JsString.includes "RBAC" (text r) ||
                JsString.includes "role" (text r))%bool; reflexivity.
    + split; [reflexivity|]. split; [reflexivity|]. ready.
  - eexists. split; [reflexivity|]. split; [reflexivity|]. split; [reflexivity|]. ready.
Qed.

(** X5: in a popup whose elements are bound, a call of [makeApiCall] whose
    response is a failure with a status other than 401 sends that one
    request and throws: it does not retry, renews nothing and opens no
    window, and the token in memory and the store are as before.  When no
    token is in memory the call throws without sending anything. *)
Theorem makeApiCall_refused_once :
  forall (w : World) (url method : string) (body : option Json) (sc : Script),
    log_ready w ->
    let call := run (makeApiCall url method body w) sc in
    (JsString.truthy (accessToken (mgr w)) = false ->
     outcome call = Throw (mkError "No access token available") /\ issued call = [] /\
     final call = w) /\
    (JsString.truthy (accessToken (mgr w)) = true ->
     forall r rs,
       fetchReplies sc = Responded r :: rs ->
       ok r = false -> status r <> 401%Z ->
       outcome call = Throw (refusal r) /\
       issued call = [IssuedFetch (apiRequest url method body (accessToken (mgr w)))] /\
       rest call = {| fetchReplies := rs; authReplies := authReplies sc |} /\
       mgr (final call) = mgr w /\ browser (final call) = browser w).
Proof.
  intros w url method body sc Hready call. split; intros Htok.
  - assert (E : makeApiCall url method body w =
                Done (Throw (mkError "No access token available")) w).
    { unfold makeApiCall, bind, get. simpl. rewrite Htok. reflexivity. }
    unfold call. rewrite E. simpl. auto.
  - intros r rs Hsc Hok Hst.
    destruct (makeApiCall_refused w url method body sc r rs Hready Htok Hsc Hok Hst)
      as (w' & E & Hm & Hb & _).
    unfold call. rewrite E. simpl. auto.
Qed.

(** X6: in a popup whose elements are bound, a call of [makeApiCall]
    answered with a success sends one request.  A POST or a PATCH answered
    with status 200 or 202 returns the success marker and the body of the
    response is not parsed; any other call returns an empty object for an
    empty body, the parsed body for a body that parses, and throws for a
    body that does not. *)
Theorem makeApiCall_succeeds :
  forall (w : World) (url method : string) (body : option Json) (sc : Script)
         (r : Response) (rs : list FetchReply),
    log_ready w ->
    JsString.truthy (accessToken (mgr w)) = true ->
    fetchReplies sc = Responded r :: rs ->
    ok r = true ->
    let call := run (makeApiCall url method body w) sc in
    let stateChange :=
      ((String.eqb method "POST" || String.eqb method "PATCH") &&
       ((status r =? 200)%Z || (status r =? 202)%Z))%bool in
    issued call = [IssuedFetch (apiRequest url method body (accessToken (mgr w)))] /\
    (stateChange = true -> outcome call = Ok successMarker) /\
    (stateChange = false ->
     (text r = "" -> outcome call = Ok (JObj [])) /\
     (forall j, text r <> "" -> JSON_parse (browser w) (text r) = Some j ->
                outcome call = Ok j) /\
     (text r <> "" -> JSON_parse (browser w) (text r) = None ->
      exists e, outcome call = Throw e)).
Proof.
  intros w url method body sc r rs Hready Htok Hsc Hok call stateChange.
  assert (E : exists w',
             run (makeApiCall url method body w) sc =
               sent (IssuedFetch (apiRequest url method body (accessToken (mgr w))))
                 (run ((if stateChange then ret successMarker else parseBody (text r)) w')
                      {| fetchReplies := rs; authReplies := authReplies sc |}) /\
             browser w' = browser w).
  { unfold makeApiCall.
    unfold bind at 1, get at 1. simpl bindStep. rewrite Htok. cbv beta iota delta [negb].
    unfold bind at 1. rewrite (debugLog_ready _ _ Hready). simpl bindStep.
    unfold bind at 1, fetch. simpl. rewrite Hsc. simpl. rewrite Hok. simpl.
    fold stateChange. eexists. split; [reflexivity|]. reflexivity. }
  destruct E as (w' & E & Hb). unfold call. rewrite E. clear E.
  split.
  { destruct stateChange; simpl; [reflexivity|]. unfold parseBody.
    destruct (text r =? ""); [reflexivity|]. asimpl.
    destruct (JSON_parse (browser w') (text r)); reflexivity. }
  split; intros Hsc'; rewrite Hsc'; [reflexivity|].
  unfold parseBody. repeat split.
  - intros ->. reflexivity.
  - intros j Hne Hj. apply String.eqb_neq in Hne. rewrite Hne. asimpl.
    rewrite Hb, Hj. reflexivity.
  - intros Hne Hj. apply String.eqb_neq in Hne. rewrite Hne. asimpl.
    rewrite Hb, Hj. simpl. eauto.
Qed.

(** ** What a call can return *)

Lemma yields_run {A} (R : A -> Prop) (s : Step A) :
  yields R s -> forall sc a, outcome (run s sc) = Ok a -> R a.
Proof.
  revert R.
  induction s as [A o w | A rq w k IH | A rq w k IH | A c _ k IH]; simpl; intros R Hs sc a.
  - intros ->. exact Hs.
  - destruct (fetchReplies sc); simpl; [discriminate|]. apply IH, Hs.
  - destruct (authReplies sc); simpl; [discriminate|]. apply IH, Hs.
  - destruct (firstPhase c) as [w1 t1]. simpl. apply IH, Hs.
Qed.

Lemma yields_bindStep {A B} (Ra : A -> Prop) (R : B -> Prop) (s : Step A) (f : A -> Async B) :
  yields Ra s -> (forall a w, Ra a -> yields R (f a w)) -> yields R (bindStep s f).
Proof.
  revert B Ra R f.
  induction s as [A o w | A rq w k IH | A rq w k IH | A c _ k IH];
    intros B Ra R f Hs Hf; simpl in *.
  - destruct o; simpl; auto.
  - intros r w'. eapply IH; eauto.
  - intros r w'. eapply IH; eauto.
  - intros w'. eapply IH; eauto.
Qed.

Lemma yields_any {A} (s : Step A) : yields (fun _ => True) s.
Proof.
  induction s as [A o w | A rq w k IH | A rq w k IH | A c _ k IH]; simpl; auto.
  destruct o; exact I.
Qed.

Lemma yields_catchStep {A} (R : A -> Prop) (s : Step A) (h : JsError -> Async A) :
  yields R s -> (forall e w, yields R (h e w)) -> yields R (catchStep s h).
Proof.
  revert R h.
  induction s as [A o w | A rq w k IH | A rq w k IH | A c _ k IH];
    intros R h Hs Hh; simpl in *.
  - destruct o; simpl; auto.
  - intros r w'. eapply IH; eauto.
  - intros r w'. eapply IH; eauto.
  - intros w'. eapply IH; eauto.
Qed.

Lemma yields_mapM {X Y} (P : Y -> Prop) (f : X -> Async Y) (l : list X) :
  (forall x w, yields P (f x w)) -> forall w, yields (Forall P) (mapM f l w).
Proof.
  intros Hf. induction l as [|x l IH]; intros w; simpl.
  - constructor.
  - unfold bind. apply (yields_bindStep P); [apply Hf|].
    intros y w1 Hy. apply (yields_bindStep (Forall P)); [apply IH|].
    intros ys w2 Hys. simpl. constructor; assumption.
Qed.

(** ** The capacities of one subscription *)

(** X7: every capacity that [getCapacitiesForSubscription] returns carries
    the subscription that was queried and a display name made of its name
    and state, whatever the replies.  In a popup whose elements are bound, a
    query answered with status 404 is no error: it returns the empty list
    after that one request. *)
Theorem getCapacitiesForSubscription_result :
  forall (subscriptionId : string) (w : World) (sc : Script),
    let query := run (getCapacitiesForSubscription subscriptionId w) sc in
    (forall found, outcome query = Ok found -> Forall (tagged subscriptionId) found) /\
    (log_ready w ->
     JsString.truthy (accessToken (mgr w)) = true ->
     forall r rs,
       fetchReplies sc = Responded r :: rs ->
       status r = 404%Z ->
       outcome query = Ok [] /\
       issued query =
         [IssuedFetch (apiRequest (capacitiesUrl subscriptionId) "GET" None
                                  (accessToken (mgr w)))]).
Proof.
  intros subscriptionId w sc query. split.
  - intros found. apply yields_run. unfold getCapacitiesForSubscription, tryCatch.
    apply yields_catchStep.
    + unfold bind. apply (yields_bindStep (fun _ => True)); [apply yields_any|].
      intros response w1 _. apply (yields_bindStep (fun _ => True)); [apply yields_any|].
      intros items w2 _. apply yields_mapM. intros x w3.
      unfold capacityOfJson. destruct x; simpl; try exact I; split; reflexivity.
    + intros e w1.
      destruct (JsString.includes "404" (message e) ||
                JsString.includes "ResourceProviderNotRegistered" (message e))%bool.
      * unfold bind. apply (yields_bindStep (fun _ => True)); [apply yields_any|].
        intros _ w2 _. simpl. constructor.
      * exact I.
  - intros Hready Htok r rs Hsc Hst.
    assert (Hok : ok r = false) by (unfold ok; rewrite Hst; reflexivity).
    assert (Hne : status r <> 401%Z) by (rewrite Hst; discriminate).
    destruct (makeApiCall_refused w (capacitiesUrl subscriptionId) "GET" None sc
                r rs Hready Htok Hsc Hok Hne) as (w' & E & Hm & Hb & R').
    unfold query, getCapacitiesForSubscription. fold (capacitiesUrl subscriptionId).
    rewrite run_tryCatch, run_bind, E. unfold andThen, orCatch. cbn [outcome final rest issued].
    assert (Hmsg : (JsString.includes "404" (message (refusal r)) ||
                    JsString.includes "ResourceProviderNotRegistered"
                                      (message (refusal r)))%bool = true).
    { unfold refusal. rewrite Hst. reflexivity. }
    rewrite Hmsg.
    unfold bind. rewrite (debugLog_ready _ _ R'). split; reflexivity.
Qed.

(** ** Validating a cached token *)

(** X8: in a popup whose elements are bound, [validateToken] sends one GET
    with the token it is given and never throws: it returns whether the
    response is a success, and false when the request fails on the
    network.  It changes neither the token in memory nor the store. *)
Theorem validateToken_never_throws :
  forall (token : string) (w : World) (sc : Script),
    log_ready w ->
    let check := run (validateToken token w) sc in
    issued check = [IssuedFetch (validationRequest token)] /\
    (forall e, outcome check <> Throw e) /\
    (forall r rs, fetchReplies sc = Responded r :: rs -> outcome check = Ok (ok r)) /\
    (forall e rs, fetchReplies sc = FetchFailed e :: rs -> outcome check = Ok false) /\
    mgr (final check) = mgr w /\ browser (final check) = browser w.
Proof.
  intros token w sc Hready check. unfold check, validateToken, validationRequest.
  unfold tryCatch, bind, fetch. simpl.
  destruct (fetchReplies sc) as [|[r | e] rs]; simpl.
  - repeat split; try discriminate.
  - repeat split; try discriminate. intros r0 rs0 [= -> _]. reflexivity.
  - unfold bind. rewrite (debugLog_ready _ _ Hready). simpl.
    repeat split; try discriminate.
Qed.

(** ** Options and the capacities they stand for *)

Lemma rebuilt_empty s p others :
  sel_options s = p :: others -> opt_disabled p = false ->
  sel_options (rebuilt [] s) =
    [p; {| opt_value := ""; opt_text := "No capacities found";
           opt_disabled := true; opt_className := "" |}].
Proof.
  intros Ho Hp.
  destruct (removeAllButFirst_placeholder s p others Ho Hp) as (Ro & Rs).
  unfold rebuilt. simpl. unfold Select.appendChild, Select.resetSelectedness. simpl.
  rewrite Rs. simpl. rewrite Ro. reflexivity.
Qed.

(** X9: in a popup whose elements are bound and whose drop-down starts with
    the placeholder, [populateCapacityDropdown] returns without a request
    and leaves the capacities as they are; the drop-down keeps the
    placeholder, which is selected; with no capacity it shows one more
    option, disabled; otherwise option [i+1] is the one built for capacity
    [i], and choosing the value of that option designates that capacity. *)
Theorem populateCapacityDropdown_options :
  forall (w : World),
    log_ready w ->
    hasPlaceholder (capacitySelect (dom w)) ->
    exists w',
      populateCapacityDropdown w = Done (Ok tt) w' /\
      mgr w' = mgr w /\
      hasPlaceholder (capacitySelect (dom w')) /\
      Select.value (capacitySelect (dom w')) = "" /\
      (capacities (mgr w) = [] ->
       exists p o, sel_options (capacitySelect (dom w')) = [p; o] /\ opt_disabled o = true) /\
      (forall i c,
          nth_error (capacities (mgr w)) i = Some c ->
          nth_error (sel_options (capacitySelect (dom w'))) (S i) =
            Some (capacityOption i c) /\
          selectedCapacity (choose (JsNumber.toString (Z.of_nat i)) w') = Some c).
Proof.
  intros w Hready (p & others & Ho & Hpv & Hpd).
  destruct (populateCapacityDropdown_returns w Hready) as (la & _ & E).
  eexists. split; [exact E|]. split; [reflexivity|].
  destruct (rebuilt_placeholder (capacities (mgr w)) (capacitySelect (dom w)) p others Ho Hpd)
    as (Hsel & tail & Hopts & Htail).
  cbn [dom upd_dom capacitySelect set_capacitySelect set_logArea].
  split; [exists p, tail; auto|].
  split.
  { erewrite value_selected; [exact Hpv | exact Hsel | rewrite Hopts; reflexivity]. }
  split.
  { intros Hnil. rewrite Hnil. erewrite rebuilt_empty by eauto. eauto. }
  intros i c Hi.
  assert (Hne : capacities (mgr w) <> []) by (intros Hnil; rewrite Hnil in Hi; destruct i; discriminate).
  rewrite Hopts, (Htail Hne). split.
  { cbn [nth_error]. apply (optionsFor_nth 0). exact Hi. }
  apply (selectedCapacity_index _ i c p).
  - unfold choose. cbn [dom upd_dom capacitySelect set_capacitySelect set_logArea].
    unfold Select.setValue. cbn [sel_selected]. rewrite Hopts, (Htail Hne).
    cbn [Select.findIndex]. rewrite Hpv.
    assert (E0 : ("" =? JsNumber.toString (Z.of_nat i)) = false).
    { apply String.eqb_neq. intros E0. symmetry in E0. now apply toString_nonempty in E0. }
    rewrite E0.
    pose proof (optionsFor_find 0 (capacities (mgr w)) i) as OF.
    change (0 + i)%nat with i in OF. rewrite OF; [reflexivity|].
    apply nth_error_Some. congruence.
  - unfold choose. cbn [dom upd_dom capacitySelect set_capacitySelect set_logArea].
    unfold Select.setValue. cbn [sel_options]. rewrite Hopts, (Htail Hne). reflexivity.
  - exact Hi.
Qed.

(** ** Stepping through calls that do not wait *)

Lemma upd_mgr_ready f w :
  debugMode (f (mgr w)) = debugMode (mgr w) -> log_ready w -> log_ready (upd_mgr f w).
Proof. unfold log_ready. simpl. intros ->. auto. Qed.

Lemma upd_dom_ready f w :
  present (logArea (f (dom w))) = present (logArea (dom w)) ->
  log_ready w -> log_ready (upd_dom f w).
Proof.
  intros Hp H. apply log_ready_present. simpl. rewrite Hp. apply log_ready_present, H.
Qed.

Lemma upd_browser_ready f w : log_ready w -> log_ready (upd_browser f w).
Proof. intros H. exact H. Qed.

Lemma appendLine_ready l w : log_ready w -> log_ready (appendLine l w).
Proof. intros H. apply upd_dom_ready; [apply present_addLine | exact H]. Qed.

Lemma debugged_present m w :
  present (logArea (dom (debugged m w))) = present (logArea (dom w)).
Proof. unfold debugged. simpl. apply present_if_addLine. Qed.

Lemma appendLine_present l w :
  present (logArea (dom (appendLine l w))) = present (logArea (dom w)).
Proof. unfold appendLine. simpl. apply present_addLine. Qed.

Lemma upd_mgr_present f w :
  present (logArea (dom (upd_mgr f w))) = present (logArea (dom w)).
Proof. reflexivity. Qed.

Lemma upd_dom_present f w :
  logArea (f (dom w)) = logArea (dom w) ->
  present (logArea (dom (upd_dom f w))) = present (logArea (dom w)).
Proof. simpl. now intros ->. Qed.

(** Proves [log_ready] of a world built step by step from one that is
    ready. *)
Ltac ready_steps :=
  repeat first
    [ assumption
    | apply debugged_ready
    | apply appendLine_ready
    | apply upd_browser_ready
    | apply upd_mgr_ready; [reflexivity|]
    | apply upd_dom_ready; [reflexivity|] ].

(** Steps over the first call of a sequence when that call is a
    [debugLog], a [modify] or a [get]. *)
Ltac step_over :=
  match goal with
  | |- context [bind (debugLog ?m) ?f ?w] =>
      let R := fresh "R" in
      assert (R : log_ready w) by ready_steps;
      change (bind (debugLog m) f w) with (bindStep (debugLog m w) f);
      rewrite (debugLog_ready m w R); clear R;
      cbn [bindStep]
  | |- context [bind (modify ?g) ?f ?w] =>
      change (bind (modify g) f w) with (f tt (g w)); cbv beta
  | |- context [bind get ?f ?w] =>
      change (bind get f w) with (f w w); cbv beta
  | |- context [debugLog ?m ?w] =>
      let R := fresh "R" in
      assert (R : log_ready w) by ready_steps;
      rewrite (debugLog_ready m w R); clear R
  | |- context [modify ?g ?w] =>
      change (modify g w) with (Done (Ok tt) (g w))
  end.

(** ** The buttons after a choice *)

Transparent onCapacitySelectionChange.

Lemma loadAvailableSkus_returns c w :
  log_ready w ->
  loadAvailableSkus c w =
    Done (Ok tt)
      (debugged "Loaded 9 available SKUs"
         (upd_mgr (set_availableSkus fabricSkus) (debugged "Loading available SKUs..." w))).
Proof.
  intros Hready. unfold loadAvailableSkus, tryCatch.
  step_over. step_over. step_over. step_over. reflexivity.
Qed.

Lemma populateSkuDropdown_returns c w :
  log_ready w ->
  populateSkuDropdown c w =
    Done (Ok tt)
      (debugged ("Populated SKU dropdown with current SKU: " ++ currentSkuOf c)
         (upd_dom (set_updateSkuButton_disabled true)
            (upd_dom (fun d =>
                        set_skuSelect
                          (skuOptions c (availableSkus (mgr w)) (skuSelect d)) d) w))).
Proof.
  intros Hready. unfold populateSkuDropdown, tryCatch, updSkuSelect.
  step_over. step_over. step_over. step_over. reflexivity.
Qed.

Lemma onCapacitySelectionChange_selected w c :
  log_ready w ->
  selectedCapacity w = Some c ->
  onCapacitySelectionChange w = Done (Ok tt) (afterChoice c w).
Proof.
  intros Hready Hsel. unfold selectedCapacity in Hsel.
  destruct (String.eqb (Select.value (capacitySelect (dom w))) "") eqn:Hval; [discriminate|].
  unfold onCapacitySelectionChange.
  step_over. rewrite Hval, Hsel.
  step_over. step_over. step_over.
  match goal with |- context [bind (loadAvailableSkus c) ?f ?x] =>
    change (bind (loadAvailableSkus c) f x) with (bindStep (loadAvailableSkus c x) f);
    rewrite (loadAvailableSkus_returns c x) by ready_steps; cbn [bindStep]
  end.
  match goal with |- context [bind (populateSkuDropdown c) ?f ?x] =>
    change (bind (populateSkuDropdown c) f x) with (bindStep (populateSkuDropdown c x) f);
    rewrite (populateSkuDropdown_returns c x) by ready_steps; cbn [bindStep]
  end.
  unfold log. step_over. step_over. reflexivity.
Qed.

Lemma afterChoice_facts c w :
  log_ready w ->
  log_ready (afterChoice c w) /\
  browser (afterChoice c w) = browser w /\
  accessToken (mgr (afterChoice c w)) = accessToken (mgr w) /\
  capacities (mgr (afterChoice c w)) = capacities (mgr w) /\
  capacitySelect (dom (afterChoice c w)) = capacitySelect (dom w) /\
  refreshButton_disabled (dom (afterChoice c w)) = refreshButton_disabled (dom w) /\
  present (logArea (dom (afterChoice c w))) = present (logArea (dom w)) /\
  startButton_disabled (dom (afterChoice c w)) = String.eqb (stateOf c) "Active" /\
  stopButton_disabled (dom (afterChoice c w)) = String.eqb (stateOf c) "Paused" /\
  skuContainer_display (dom (afterChoice c w)) = "block" /\
  updateSkuButton_disabled (dom (afterChoice c w)) = true /\
  Select.value (skuSelect (dom (afterChoice c w))) = currentSkuOf c /\
  sel_disabled (skuSelect (dom (afterChoice c w))) = sel_disabled (skuSelect (dom w)) /\
  timers (browser (afterChoice c w)) = timers (browser w).
Proof.
  intros Hready. split; [unfold afterChoice; ready_steps|].
  repeat split.
  unfold afterChoice.
  repeat first [ rewrite debugged_present | rewrite appendLine_present
               | rewrite upd_mgr_present | rewrite upd_dom_present by reflexivity ].
  reflexivity.
Qed.

Lemma onCapacitySelectionChange_unselected w :
  Select.value (capacitySelect (dom w)) = "" ->
  onCapacitySelectionChange w =
    Done (Ok tt)
      (upd_dom (set_skuContainer_display "none")
         (upd_dom (set_stopButton_disabled true)
            (upd_dom (set_startButton_disabled true) w))).
Proof.
  intros Hval. unfold onCapacitySelectionChange.
  step_over. rewrite Hval. reflexivity.
Qed.

Lemma updateCapacitySku_unchanged w c :
  selectedCapacity w = Some c ->
  Select.value (skuSelect (dom w)) = currentSkuOf c ->
  updateCapacitySku w = Done (Ok tt) (appendLine (Line false "No SKU change required") w).
Proof.
  intros Hsel Hsku. unfold selectedCapacity in Hsel.
  destruct (String.eqb (Select.value (capacitySelect (dom w))) "") eqn:Hval; [discriminate|].
  unfold updateCapacitySku. step_over. rewrite Hval, Hsku, Hsel.
  pose proof (currentSkuOf_nonempty c) as Hcur.
  apply String.eqb_neq in Hcur. rewrite Hcur, String.eqb_refl. reflexivity.
Qed.

(** X10: in a popup whose elements are bound, the handler of a choice in
    the capacity drop-down returns without a request.  For a chosen
    capacity it disables the start button exactly when the capacity is
    Active and the stop button exactly when it is Paused, shows the SKU
    section with the current SKU of the capacity selected and the update
    button disabled, so that [updateCapacitySku], run next, sends nothing.
    With the placeholder chosen it disables both buttons and hides the SKU
    section. *)
Theorem onCapacitySelectionChange_buttons :
  forall (w : World),
    log_ready w ->
    (forall c,
        selectedCapacity w = Some c ->
        exists w',
          onCapacitySelectionChange w = Done (Ok tt) w' /\
          startButton_disabled (dom w') = String.eqb (stateOf c) "Active" /\
          stopButton_disabled (dom w') = String.eqb (stateOf c) "Paused" /\
          skuContainer_display (dom w') = "block" /\
          Select.value (skuSelect (dom w')) = currentSkuOf c /\
          updateSkuButton_disabled (dom w') = true /\
          selectedCapacity w' = Some c /\
          forall sc, issued (run (updateCapacitySku w') sc) = []) /\
    (Select.value (capacitySelect (dom w)) = "" ->
     exists w',
       onCapacitySelectionChange w = Done (Ok tt) w' /\
       startButton_disabled (dom w') = true /\
       stopButton_disabled (dom w') = true /\
       skuContainer_display (dom w') = "none").
Proof.
  intros w Hready. split.
  - intros c Hsel.
    destruct (afterChoice_facts c w Hready)
      as (R' & Hb & Ht & Hc & Hs & Hr & Hp & H1 & H2 & H3 & H4 & H5 & H6 & H7).
    assert (Hsel' : selectedCapacity (afterChoice c w) = Some c).
    { unfold selectedCapacity in *. rewrite Hs.
      destruct (String.eqb (Select.value (capacitySelect (dom w))) ""); [discriminate|].
      rewrite (capacityAt_caps w (afterChoice c w)) by exact Hc. exact Hsel. }
    exists (afterChoice c w).
    split; [apply onCapacitySelectionChange_selected; assumption|].
    repeat (split; [assumption|]).
    intros sc. rewrite (updateCapacitySku_unchanged _ c Hsel' H5). reflexivity.
  - intros Hval. rewrite (onCapacitySelectionChange_unselected w Hval).
    eexists. split; [reflexivity|]. repeat split.
Qed.

(** ** The guards of a resize *)

(** X11: in a popup whose elements are bound and with a capacity chosen,
    [onSkuSelectionChange] returns without a request and disables the
    update button exactly when the SKU shown is the current SKU of the
    capacity or an entry that starts with [Current:]; and whenever it leaves
    the button disabled, [updateCapacitySku] would send nothing either. *)
Theorem onSkuSelectionChange_guard :
  forall (w : World) (c : Capacity),
    log_ready w ->
    selectedCapacity w = Some c ->
    exists w',
      onSkuSelectionChange w = Done (Ok tt) w' /\
      (updateSkuButton_disabled (dom w') = true <->
       Select.value (skuSelect (dom w)) = currentSkuOf c \/
       JsString.startsWith "Current:" (Select.value (skuSelect (dom w))) = true) /\
      (updateSkuButton_disabled (dom w') = true ->
       forall sc, issued (run (updateCapacitySku w') sc) = []).
Proof.
  intros w c Hready Hsel. unfold selectedCapacity in Hsel.
  destruct (String.eqb (Select.value (capacitySelect (dom w))) "") eqn:Hval; [discriminate|].
  destruct (String.eqb (Select.value (skuSelect (dom w))) (currentSkuOf c) ||
            JsString.startsWith "Current:" (Select.value (skuSelect (dom w))))%bool
    eqn:Hun.
  - exists (upd_dom (set_updateSkuButton_disabled true) w). split; [|split].
    + unfold onSkuSelectionChange. step_over. rewrite Hval, Hsel, Hun. reflexivity.
    + rewrite orb_true_iff, String.eqb_eq in Hun. simpl. tauto.
    + intros _ sc.
      set (w' := upd_dom (set_updateSkuButton_disabled true) w).
      assert (E' : exists w2, updateCapacitySku w' = Done (Ok tt) w2).
      { unfold updateCapacitySku. step_over.
        change (Select.value (capacitySelect (dom w'))) with
          (Select.value (capacitySelect (dom w))).
        change (Select.value (skuSelect (dom w'))) with (Select.value (skuSelect (dom w))).
        rewrite Hval. cbn [orb].
        destruct (String.eqb (Select.value (skuSelect (dom w))) "");
          [eexists; reflexivity|].
        rewrite (capacityAt_caps w w') by reflexivity. rewrite Hsel, Hun.
        eexists. reflexivity. }
      destruct E' as (w2 & E'). rewrite E'. reflexivity.
  - exists (debugged ("SKU change selected: " ++ currentSkuOf c ++ " -> " ++
                      Select.value (skuSelect (dom w)))
                     (upd_dom (set_updateSkuButton_disabled false) w)).
    split; [|split].
    + unfold onSkuSelectionChange. step_over. rewrite Hval, Hsel, Hun.
      step_over. cbn [negb when]. step_over. reflexivity.
    + rewrite orb_false_iff in Hun. destruct Hun as [H1 H2].
      apply String.eqb_neq in H1.
      split; [discriminate|]. intros [H | H]; congruence.
    + discriminate.
Qed.

(** X12: in a popup whose elements are bound, with a token in memory, a
    capacity chosen and a SKU other than its current one selected:
    [updateCapacitySku] asks for a confirmation when the capacity is
    Active, and if the answer is no it returns having sent nothing and
    changed nothing but the answer consumed.  When the capacity is not
    Active, or the answer is yes, it sends one PATCH to the capacity with
    the selected SKU, and while that request is in flight the start, stop,
    refresh and update buttons and the SKU drop-down are disabled. *)
Theorem updateCapacitySku_confirmation :
  forall (w : World) (c : Capacity),
    log_ready w ->
    JsString.truthy (accessToken (mgr w)) = true ->
    selectedCapacity w = Some c ->
    let selectedSku := Select.value (skuSelect (dom w)) in
    selectedSku <> "" ->
    selectedSku <> currentSkuOf c ->
    JsString.startsWith "Current:" selectedSku = false ->
    (stateOf c = "Active" ->
     hd false (confirms (browser w)) = false ->
     updateCapacitySku w =
       Done (Ok tt) (upd_browser (fun b => set_confirms (tl (confirms b)) b) w)) /\
    (stateOf c <> "Active" \/ hd false (confirms (browser w)) = true ->
     exists w' k,
       updateCapacitySku w = AwaitFetch (resizeRequest c selectedSku w) w' k /\
       startButton_disabled (dom w') = true /\
       stopButton_disabled (dom w') = true /\
       refreshButton_disabled (dom w') = true /\
       updateSkuButton_disabled (dom w') = true /\
       sel_disabled (skuSelect (dom w')) = true).
Proof.
  intros w c Hready Htok Hsel selectedSku Hne Hcur Hpre.
  unfold selectedCapacity in Hsel.
  destruct (String.eqb (Select.value (capacitySelect (dom w))) "") eqn:Hval; [discriminate|].
  apply String.eqb_neq in Hne, Hcur.
  split.
  - intros Hact Hno. unfold updateCapacitySku.
    unfold bind at 1, get at 1. simpl bindStep. fold selectedSku.
    rewrite Hval, Hne, Hsel, Hcur, Hpre, Hact. simpl.
    unfold bind, confirm. simpl. rewrite Hno. reflexivity.
  - intros Hgo. unfold updateCapacitySku.
    unfold bind at 1, get at 1. simpl bindStep. fold selectedSku.
    rewrite Hval, Hne, Hsel, Hcur, Hpre. cbn [orb].
    unfold resizeRequest.
    destruct (String.eqb_spec (stateOf c) "Active") as [Hact | Hact].
    + destruct Hgo as [Hgo | Hyes]; [contradiction|].
      unfold bind at 1, confirm. simpl bindStep. rewrite Hyes. cbn [negb].
      unfold tryFinally, tryCatch, log, setButtonsEnabled, updSkuSelect, makeApiCall.
      asimpl. rewrite Htok. simpl. unfold throw, bind.
      step_debugLog. simpl.
      do 2 eexists. split; [reflexivity|]. unfold debugged. simpl. auto 10.
    + unfold bind at 1, ret at 1. simpl bindStep. cbn [negb].
      unfold tryFinally, tryCatch, log, setButtonsEnabled, updSkuSelect, makeApiCall.
      asimpl. rewrite Htok. simpl. unfold throw, bind.
      step_debugLog. simpl.
      do 2 eexists. split; [reflexivity|]. unfold debugged. simpl. auto 10.
Qed.

(** ** A start or a stop from click to end *)

Opaque onCapacitySelectionChange.

Lemma selectedCapacity_same w w' :
  capacitySelect (dom w') = capacitySelect (dom w) ->
  capacities (mgr w') = capacities (mgr w) ->
  selectedCapacity w' = selectedCapacity w.
Proof.
  intros Hs Hc. unfold selectedCapacity. rewrite Hs.
  rewrite (capacityAt_caps w w') by exact Hc. reflexivity.
Qed.

Lemma selectedCapacity_frame w0 w : frame w0 w -> selectedCapacity w = selectedCapacity w0.
Proof. intros F. apply selectedCapacity_same; apply F. Qed.

Lemma setButtonsEnabled_selected w c :
  log_ready w ->
  selectedCapacity w = Some c ->
  setButtonsEnabled true w =
    Done (Ok tt) (upd_dom (set_refreshButton_disabled false) (afterChoice c w)).
Proof.
  intros Hready Hsel. unfold setButtonsEnabled.
  change (bind onCapacitySelectionChange ?f w) with (bindStep (onCapacitySelectionChange w) f).
  rewrite (onCapacitySelectionChange_selected w c Hready Hsel). reflexivity.
Qed.

Lemma restored_facts c w :
  log_ready w ->
  selectedCapacity w = Some c ->
  startButton_disabled (dom (restored c w)) = String.eqb (stateOf c) "Active" /\
  stopButton_disabled (dom (restored c w)) = String.eqb (stateOf c) "Paused" /\
  refreshButton_disabled (dom (restored c w)) = false /\
  selectedCapacity (restored c w) = Some c /\
  timers (browser (restored c w)) = timers (browser w) /\
  accessToken (mgr (restored c w)) = accessToken (mgr w).
Proof.
  intros Hready Hsel.
  destruct (afterChoice_facts c w Hready)
    as (R' & Hb & Ht & Hc & Hs & Hr & Hp & H1 & H2 & H3 & H4 & H5 & H6 & H7).
  unfold restored. repeat split; try assumption.
Qed.

(** Every answer to [makeApiCall] other than a 401 ends the call after its
    one request. *)
Lemma makeApiCall_answered w url method body sc r rs :
  log_ready w ->
  JsString.truthy (accessToken (mgr w)) = true ->
  fetchReplies sc = Responded r :: rs ->
  status r <> 401%Z ->
  let call := run (makeApiCall url method body w) sc in
  outcome call <> Hang /\
  issued call = [IssuedFetch (apiRequest url method body (accessToken (mgr w)))] /\
  frame w (final call) /\
  browser (final call) = browser w /\
  mgr (final call) = mgr w /\
  (ok r = false -> exists e, outcome call = Throw e) /\
  ((method = "POST" \/ method = "PATCH") -> (status r = 200 \/ status r = 202)%Z ->
   outcome call = Ok successMarker).
Proof.
  intros Hready Htok Hsc Hst call.
  assert (F : frame w (final call)).
  { apply run_final_frame. apply makeApiCall_keeps. }
  destruct (ok r) eqn:Hok.
  - assert (E : exists w',
               run (makeApiCall url method body w) sc =
                 sent (IssuedFetch (apiRequest url method body (accessToken (mgr w))))
                   (run ((if ((String.eqb method "POST" || String.eqb method "PATCH") &&
                              ((status r =? 200)%Z || (status r =? 202)%Z))%bool
                          then ret successMarker else parseBody (text r)) w')
                        {| fetchReplies := rs; authReplies := authReplies sc |}) /\
               browser w' = browser w /\ mgr w' = mgr w).
    { unfold makeApiCall.
      unfold bind at 1, get at 1. simpl bindStep. rewrite Htok. cbv beta iota delta [negb].
      unfold bind at 1. rewrite (debugLog_ready _ _ Hready). simpl bindStep.
      unfold bind at 1, fetch. simpl. rewrite Hsc. simpl. rewrite Hok. simpl.
      eexists. split; [reflexivity|]. split; reflexivity. }
    destruct E as (w' & E & Hb & Hm).
    split; [|split; [|split; [exact F|]]].
    + unfold call. rewrite E.
      destruct ((String.eqb method "POST" || String.eqb method "PATCH") &&
                ((status r =? 200)%Z || (status r =? 202)%Z))%bool; [discriminate|].
      unfold parseBody. destruct (text r =? ""); [discriminate|]. asimpl.
      destruct (JSON_parse (browser w') (text r)); discriminate.
    + unfold call. rewrite E.
      destruct ((String.eqb method "POST" || String.eqb method "PATCH") &&
                ((status r =? 200)%Z || (status r =? 202)%Z))%bool; [reflexivity|].
      unfold parseBody. destruct (text r =? ""); [reflexivity|]. asimpl.
      destruct (JSON_parse (browser w') (text r)); reflexivity.
    + assert (G : browser (final call) = browser w /\ mgr (final call) = mgr w).
      { unfold call. rewrite E.
        destruct ((String.eqb method "POST" || String.eqb method "PATCH") &&
                  ((status r =? 200)%Z || (status r =? 202)%Z))%bool; [split; assumption|].
        unfold parseBody. destruct (text r =? ""); [split; assumption|]. asimpl.
        destruct (JSON_parse (browser w') (text r)); split; assumption. }
      destruct G as (G1 & G2). split; [exact G1|]. split; [exact G2|].
      split; [discriminate|].
      intros Hm' Hs'. unfold call. rewrite E.
      assert (C : ((String.eqb method "POST" || String.eqb method "PATCH") &&
                   ((status r =? 200)%Z || (status r =? 202)%Z))%bool = true).
      { apply andb_true_iff. split; apply orb_true_iff.
        - destruct Hm' as [-> | ->]; [left | right]; reflexivity.
        - destruct Hs' as [-> | ->]; [left | right]; reflexivity. }
      rewrite C. reflexivity.
  - destruct (makeApiCall_refused w url method body sc r rs Hready Htok Hsc Hok Hst)
      as (w' & E & Hm & Hb & _).
    unfold call in *. rewrite E in *. cbn [outcome final rest issued] in *.
    split; [discriminate|]. split; [reflexivity|]. split; [exact F|].
    split; [exact Hb|]. split; [exact Hm|]. split; [eauto|].
    intros _ Hs'. exfalso. unfold ok in Hok.
    destruct Hs' as [Hs' | Hs']; rewrite Hs' in Hok; discriminate.
Qed.

Lemma performCapacityOperation_selected operation operationName w c :
  selectedCapacity w = Some c ->
  performCapacityOperation operation operationName w =
    finallyStep
      (catchStep
         (bindStep
            (makeApiCall (operationUrl operation c) "POST" None
               (upd_dom (set_refreshButton_disabled true)
                  (upd_dom (set_stopButton_disabled true)
                     (upd_dom (set_startButton_disabled true)
                        (appendLine
                           (Line false (operationName ++ " capacity " ++
                                        JsValue.show (cap_name c) ++ "..."))
                           w)))))
            (fun _ =>
               logSuccess (operationName ++ " operation initiated for " ++
                           JsValue.show (cap_name c)) ;;
               setTimeout RefreshAfterOperation 2000))
         (fun error =>
            logError ("Failed to " ++ operation ++ " capacity " ++
                      JsValue.show (cap_name c)) (Some error)))
      (setButtonsEnabled true).
Proof.
  intros Hsel. unfold selectedCapacity in Hsel.
  destruct (String.eqb (Select.value (capacitySelect (dom w))) "") eqn:Hval; [discriminate|].
  unfold performCapacityOperation. step_over. rewrite Hval, Hsel.
  unfold tryFinally, tryCatch, log. step_over.
  reflexivity.
Qed.

(** X13: in a popup whose elements are bound, with a token in memory and a
    capacity chosen, a start or a stop whose request is answered with
    anything but a 401 sends that one POST and returns normally, whatever
    the answer: a failure is logged, not thrown.  Afterwards the capacity
    is still chosen, the refresh button is enabled, the start button is
    disabled exactly when the capacity was Active in the list and the stop
    button exactly when it was Paused.  A refresh is scheduled two seconds
    later when the answer is a 200 or a 202 and the log area exists, and
    none is scheduled when the request was refused. *)
Theorem performCapacityOperation_outcomes :
  forall (w : World) (c : Capacity) (operation operationName : string) (sc : Script)
         (r : Response) (rs : list FetchReply),
    log_ready w ->
    JsString.truthy (accessToken (mgr w)) = true ->
    selectedCapacity w = Some c ->
    fetchReplies sc = Responded r :: rs ->
    status r <> 401%Z ->
    let op := run (performCapacityOperation operation operationName w) sc in
    outcome op = Ok tt /\
    issued op = [IssuedFetch (operationRequest operation c w)] /\
    selectedCapacity (final op) = Some c /\
    refreshButton_disabled (dom (final op)) = false /\
    startButton_disabled (dom (final op)) = String.eqb (stateOf c) "Active" /\
    stopButton_disabled (dom (final op)) = String.eqb (stateOf c) "Paused" /\
    ((status r = 200 \/ status r = 202)%Z ->
     present (logArea (dom w)) = true ->
     timers (browser (final op)) = (timers (browser w) ++ [(2000%Z, RefreshAfterOperation)])%list) /\
    (ok r = false -> timers (browser (final op)) = timers (browser w)).
Proof.
  intros w c operation operationName sc r rs Hready Htok Hsel Hsc Hst op.
  set (w1 := upd_dom (set_refreshButton_disabled true)
               (upd_dom (set_stopButton_disabled true)
                  (upd_dom (set_startButton_disabled true)
                     (appendLine
                        (Line false (operationName ++ " capacity " ++
                                     JsValue.show (cap_name c) ++ "..."))
                        w)))).
  assert (R1 : log_ready w1) by (unfold w1; ready_steps).
  assert (S1 : selectedCapacity w1 = Some c).
  { rewrite <- Hsel. apply selectedCapacity_same; reflexivity. }
  assert (P1 : present (logArea (dom w1)) = present (logArea (dom w))).
  { unfold w1. rewrite !upd_dom_present by reflexivity. apply appendLine_present. }
  destruct (makeApiCall_answered w1 (operationUrl operation c) "POST" None sc r rs
              R1 Htok Hsc Hst) as (Hnh & Hiss & F & Hb & Hm & Hthrow & Hacc).
  set (call := run (makeApiCall (operationUrl operation c) "POST" None w1) sc) in *.
  assert (R2 : log_ready (final call)) by (eapply frame_log_ready; eassumption).
  assert (S2 : selectedCapacity (final call) = Some c).
  { rewrite <- S1. apply selectedCapacity_frame. exact F. }
  assert (P2 : present (logArea (dom (final call))) = present (logArea (dom w))).
  { rewrite <- P1. apply F. }
  unfold op. rewrite (performCapacityOperation_selected operation operationName w c Hsel).
  fold w1.
  set (inner := catchStep _ _).
  assert (Inner : exists l x,
             run inner sc =
               {| outcome := Ok tt; final := appendLine l x; rest := rest call;
                  issued := issued call |} /\
             log_ready x /\ selectedCapacity x = Some c /\
             ((status r = 200 \/ status r = 202)%Z ->
              present (logArea (dom w)) = true ->
              timers (browser x) =
                (timers (browser w) ++ [(2000%Z, RefreshAfterOperation)])%list) /\
             (ok r = false -> timers (browser x) = timers (browser w))).
  { unfold inner. rewrite run_catchStep, run_bindStep. fold call.
    assert (B1 : browser w1 = browser w) by reflexivity.
    rewrite B1 in Hb. clear Hiss Hm F R1 S1 B1 P1 inner.
    clearbody call. clearbody w1.
    destruct call as [o x sc' t]. cbn [outcome final rest issued] in *.
    unfold andThen, orCatch. cbn [outcome final rest issued].
    destruct o as [j | e |]; [| |contradiction].
    - destruct (logArea (dom x)) as [area|] eqn:Harea.
      + match goal with |- context [bind ?m ?k x] =>
          assert (E1 : bind m k x =
                       Done (Ok tt)
                         (appendLine
                            (Line true ("SUCCESS: " ++ operationName ++
                               " operation initiated for " ++ JsValue.show (cap_name c)))
                            (upd_browser (fun b => set_timers
                               (timers b ++ [(2000%Z, RefreshAfterOperation)])%list b) x)))
            by (unfold bind, logSuccess; rewrite Harea; reflexivity);
          rewrite E1; clear E1
        end.
        cbn [run outcome final rest issued].
        rewrite ?app_nil_r.
        exists (Line true ("SUCCESS: " ++ operationName ++
                           " operation initiated for " ++ JsValue.show (cap_name c))),
               (upd_browser (fun b => set_timers
                  (timers b ++ [(2000%Z, RefreshAfterOperation)])%list b) x).
        split; [reflexivity|]. split; [ready_steps|].
        split; [rewrite <- S2; apply selectedCapacity_same; reflexivity|].
        split.
        * intros _ _. simpl. rewrite Hb. reflexivity.
        * intros Hok. destruct (Hthrow Hok) as (e & He). discriminate.
      + match goal with |- context [bind ?m ?k x] =>
          assert (E1 : bind m k x = Done (Throw typeError_null) x)
            by (unfold bind, logSuccess; rewrite Harea; reflexivity);
          rewrite E1; clear E1
        end.
        cbn [bindStep run outcome final rest issued logError modify].
        rewrite ?app_nil_r.
        eexists _, x. split; [reflexivity|]. split; [exact R2|]. split; [exact S2|].
        split.
        * intros _ Hp. rewrite <- P2 in Hp. discriminate.
        * intros _. rewrite Hb. reflexivity.
    - cbn [bindStep run outcome final rest issued logError modify].
      rewrite ?app_nil_r.
      eexists _, x. split; [reflexivity|]. split; [exact R2|]. split; [exact S2|].
      split.
      + intros Hs _. specialize (Hacc (or_introl eq_refl) Hs). discriminate.
      + intros _. rewrite Hb. reflexivity. }
  destruct Inner as (l & x & Inner & Rx & Sx & T1 & T2).
  rewrite run_finallyStep, Inner. cbv zeta. cbn [outcome final rest issued].
  rewrite (setButtonsEnabled_selected (appendLine l x) c);
    [|ready_steps|rewrite <- Sx; apply selectedCapacity_same; reflexivity].
  cbn [run outcome final rest issued]. rewrite app_nil_r.
  assert (Rl : log_ready (appendLine l x)) by ready_steps.
  assert (Sl : selectedCapacity (appendLine l x) = Some c).
  { rewrite <- Sx. apply selectedCapacity_same; reflexivity. }
  destruct (restored_facts c (appendLine l x) Rl Sl) as (A1 & A2 & A3 & A4 & A5 & _).
  fold (restored c (appendLine l x)).
  split; [reflexivity|]. split; [exact Hiss|].
  split; [exact A4|]. split; [exact A3|]. split; [exact A1|]. split; [exact A2|].
  split.
  - intros Hs Hp. rewrite A5. exact (T1 Hs Hp).
  - intros Hok. rewrite A5. exact (T2 Hok).
Qed.

(** ** Discovery and refresh as guarded calls *)

Transparent getSubscriptions.

Lemma makeApiCall_suspends w url method body :
  log_ready w ->
  JsString.truthy (accessToken (mgr w)) = true ->
  exists k,
    makeApiCall url method body w =
      AwaitFetch (apiRequest url method body (accessToken (mgr w)))
        (debugged ("Making " ++ method ++ " request to: " ++ url) w) k.
Proof.
  intros Hready Htok. unfold makeApiCall.
  step_over. rewrite Htok. cbv beta iota delta [negb].
  step_over. unfold bind at 1, fetch. cbn [bindStep].
  eexists. reflexivity.
Qed.

Lemma loadCapacities_suspends w :
  log_ready w ->
  JsString.truthy (accessToken (mgr w)) = true ->
  exists k,
    loadCapacities w =
      AwaitFetch (apiRequest subscriptionsUrl "GET" None (accessToken (mgr w)))
        (debugged ("Making GET request to: " ++ subscriptionsUrl) (discoveryStart w)) k.
Proof.
  intros Hready Htok. unfold loadCapacities, tryFinally, tryCatch, log, showLoading.
  step_over. step_over. step_over. step_over.
  change (accessToken (mgr (upd_mgr (set_capacities [])
            (upd_dom (set_loadingIndicator_display "block")
               (appendLine (Line false "Loading Fabric capacities...") w)))))
    with (accessToken (mgr w)).
  rewrite Htok. cbv beta iota delta [negb when].
  unfold bind at 1, ret at 1. cbn [bindStep].
  unfold bind at 1, getSubscriptions. cbv zeta. unfold bind at 1.
  fold subscriptionsUrl. fold (discoveryStart w).
  destruct (makeApiCall_suspends (discoveryStart w) subscriptionsUrl "GET" None)
    as (k & E); [unfold discoveryStart; ready_steps|exact Htok|].
  rewrite E. cbn [bindStep catchStep finallyStep].
  eexists. reflexivity.
Qed.

(** X14: [loadCapacities] never throws, whatever the popup and whatever the
    replies: an error on the way is logged.  Whenever it ends, the loading
    indicator is hidden. *)
Theorem loadCapacities_never_throws :
  forall (w : World) (sc : Script),
    let load := run (loadCapacities w) sc in
    (forall e, outcome load <> Throw e) /\
    (outcome load <> Hang ->
     outcome load = Ok tt /\ loadingIndicator_display (dom (final load)) = "none").
Proof.
  intros w sc load. unfold load, loadCapacities, tryFinally, tryCatch.
  rewrite run_finallyStep, run_catchStep.
  match goal with |- context [orCatch ?r _] => generalize r end.
  intros [o x sc' t]. unfold orCatch. cbn [outcome final rest issued].
  destruct o as [[] | e |]; cbn; split; try discriminate; try contradiction; auto.
Qed.

(** X15: in a popup whose elements are bound, [refreshCapacities] never
    throws.  With a token in memory it returns at once, without a request,
    while the loading indicator is shown; and when the indicator is not
    shown and the refresh ends, the capacity drop-down and the refresh
    button are enabled again, whatever happened in between. *)
Theorem refreshCapacities_guarded :
  forall (w : World) (sc : Script),
    log_ready w ->
    let refresh := run (refreshCapacities w) sc in
    (forall e, outcome refresh <> Throw e) /\
    (JsString.truthy (accessToken (mgr w)) = true ->
     (loadingIndicator_display (dom w) = "block" ->
      refreshCapacities w = Done (Ok tt) (debugged "Refresh skipped - already loading" w)) /\
     (loadingIndicator_display (dom w) <> "block" ->
      outcome refresh <> Hang ->
      outcome refresh = Ok tt /\
      sel_disabled (capacitySelect (dom (final refresh))) = false /\
      refreshButton_disabled (dom (final refresh)) = false)).
Proof.
  intros w sc Hready refresh.
  assert (G : forall (s : Step unit) h,
             let r := run (finallyStep (catchStep s (fun e => logError h (Some e)))
                             (updCapacitySelect (Select.setDisabled false) ;;
                              modify (upd_dom (set_refreshButton_disabled false)))) sc in
             (forall e, outcome r <> Throw e) /\
             (outcome r <> Hang ->
              outcome r = Ok tt /\
              sel_disabled (capacitySelect (dom (final r))) = false /\
              refreshButton_disabled (dom (final r)) = false)).
  { intros s h. cbv zeta. rewrite run_finallyStep, run_catchStep.
    generalize (run s sc). intros [o x sc' t]. unfold orCatch.
    cbn [outcome final rest issued].
    destruct o as [[] | e |]; cbn; split; try discriminate; try contradiction; auto. }
  unfold refresh, refreshCapacities. step_over.
  destruct (JsString.truthy (accessToken (mgr w))) eqn:Htok; cbv beta iota delta [negb].
  - destruct (String.eqb_spec (loadingIndicator_display (dom w)) "block") as [Hl | Hl].
    + step_over. split; [discriminate|]. intros _. split; [reflexivity|contradiction].
    + unfold tryFinally, tryCatch.
      match goal with |- context [finallyStep (catchStep ?s _) _] =>
        destruct (G s "Failed to refresh capacities") as (G1 & G2)
      end.
      split; [exact G1|]. intros _. split; [contradiction|]. intros _. exact G2.
  - split; [|discriminate]. step_over.
    unfold loadCapacities, tryFinally, tryCatch.
    rewrite run_finallyStep, run_catchStep.
    match goal with |- context [orCatch ?r _] => generalize r end.
    intros [o x sc' t] e. unfold orCatch. cbn [outcome final rest issued].
    destruct o as [[] | e' |]; cbn; discriminate.
Qed.

(** X16: in a popup whose elements are bound and with a token in memory, a
    call of [loadCapacities] sends the listing of the subscriptions and
    waits for it with the loading indicator shown and the refresh button as
    it was; a click on the refresh button that arrives meanwhile sends
    nothing and starts nothing. *)
Theorem refresh_click_while_loading :
  forall (p : Popup),
    log_ready (world p) ->
    JsString.truthy (accessToken (mgr (world p))) = true ->
    let loading := invoke loadCapacities p in
    let clicked := dispatch ClickRefresh loading in
    sentSoFar loading =
      (sentSoFar p ++
       [IssuedFetch (apiRequest subscriptionsUrl "GET" None
                       (accessToken (mgr (world p))))])%list /\
    List.length (pending loading) = S (List.length (pending p)) /\
    loadingIndicator_display (dom (world loading)) = "block" /\
    refreshButton_disabled (dom (world loading)) =
      refreshButton_disabled (dom (world p)) /\
    sentSoFar clicked = sentSoFar loading /\
    pending clicked = pending loading.
Proof.
  intros p Hready Htok loading clicked.
  destruct (loadCapacities_suspends (world p) Hready Htok) as (k & E).
  set (w1 := debugged ("Making GET request to: " ++ subscriptionsUrl)
               (discoveryStart (world p))) in *.
  assert (L : loading =
              {| world := w1;
                 pending := (pending p ++
                   [WaitingFetch (apiRequest subscriptionsUrl "GET" None
                                    (accessToken (mgr (world p)))) k])%list;
                 sentSoFar := (sentSoFar p ++
                   [IssuedFetch (apiRequest subscriptionsUrl "GET" None
                                   (accessToken (mgr (world p))))])%list |}).
  { unfold loading, invoke. rewrite E. reflexivity. }
  assert (R1 : log_ready w1) by (unfold w1, discoveryStart; ready_steps).
  assert (C : sentSoFar clicked = sentSoFar loading /\ pending clicked = pending loading).
  { unfold clicked, dispatch.
    destruct (refreshButton_disabled (dom (world loading))); [split; reflexivity|].
    rewrite L. unfold invoke. cbn [world pending sentSoFar].
    assert (E2 : (log "Manual refresh requested" ;; refreshCapacities) w1 =
                 Done (Ok tt)
                   (debugged "Refresh skipped - already loading"
                      (appendLine (Line false "Manual refresh requested") w1))).
    { unfold log. step_over. unfold refreshCapacities. step_over.
      change (accessToken (mgr (appendLine (Line false "Manual refresh requested") w1)))
        with (accessToken (mgr (world p))).
      rewrite Htok. cbv beta iota delta [negb].
      change (loadingIndicator_display
                (dom (appendLine (Line false "Manual refresh requested") w1)))
        with "block".
      cbn [String.eqb Ascii.eqb Bool.eqb].
      step_over. reflexivity. }
    rewrite E2. split; reflexivity. }
  rewrite L in *. cbn [world pending sentSoFar] in *.
  split; [reflexivity|]. split; [rewrite length_app; simpl; lia|].
  split; [reflexivity|]. split; [reflexivity|]. exact C.
Qed.

(** ** Signing out *)




Lemma atTime_cleared t w : cleared w -> cleared (atTime t w).
Proof. intros H. exact H. Qed.






Transparent authenticate.

Lemma authenticate_prompts w :
  log_ready w -> cleared w ->
  exists rq w' k,
    authenticate w = AwaitAuth rq w' k /\ auth_interactive rq = true /\
    loadingIndicator_display (dom w') = "block".
Proof.
  intros Hready Hc.
  assert (R1 : log_ready (upd_dom (set_loadingIndicator_display "block")
                            (appendLine (Line false "Authenticating with Azure AD...") w)))
    by ready_steps.
  destruct (getCachedToken_cleared _ R1 Hc) as [msg Hmiss].
  unfold authenticate. asimpl. rewrite Hmiss. asimpl.
  unfold performOAuth2Flow, attemptOAuth2WithScope, launchWebAuthFlow. asimpl.
  rewrite generateState_next. asimpl.
  repeat (step_debugLog; asimpl).
  do 3 eexists. split; [reflexivity|]. split; [reflexivity|].
  unfold debugged, drawn. reflexivity.
Qed.

Opaque authenticate.

(** X18: in a popup whose elements are bound, with no token in memory and
    none in the store (as after [handleLogout]), [refreshCapacities] opens
    the interactive sign-in window before it sends anything to Azure, and
    it waits for the window with the loading indicator shown. *)
Theorem refreshCapacities_signed_out :
  forall (w : World),
    log_ready w ->
    JsString.truthy (accessToken (mgr w)) = false ->
    cleared w ->
    exists rq w' k,
      refreshCapacities w = AwaitAuth rq w' k /\
      auth_interactive rq = true /\
      loadingIndicator_display (dom w') = "block".
Proof.
  intros w Hready Htok Hc.
  unfold refreshCapacities. step_over. rewrite Htok. cbv beta iota delta [negb].
  step_over.
  unfold loadCapacities, tryFinally, tryCatch, log, showLoading.
  step_over. step_over. step_over. step_over.
  match goal with |- context [JsString.truthy (accessToken (mgr ?x))] =>
    change (JsString.truthy (accessToken (mgr x))) with
      (JsString.truthy (accessToken (mgr w)))
  end.
  rewrite Htok. cbv beta iota delta [negb when].
  unfold bind at 1. unfold bind at 1. step_over. cbn [bindStep].
  match goal with |- context [bind authenticate ?f ?x] =>
    change (bind authenticate f x) with (bindStep (authenticate x) f);
    destruct (authenticate_prompts x) as (rq & w' & k & E & Hi & L);
      [ready_steps|exact Hc|];
    rewrite E
  end.
  cbn [bindStep catchStep finallyStep].
  do 3 eexists. split; [reflexivity|]. split; [exact Hi|exact L].
Qed.

(** ** What a call leaves in memory *)

Ltac memory_modify :=
  let w := fresh "w" in
  let H := fresh "H" in
  intros w H; cbv beta;
  repeat match goal with
         | |- context [match ?x with _ => _ end] => destruct x
         end;
  exact H.

Create HintDb memory.

Ltac memory_step :=
  cbv beta zeta;
  match goal with
  | |- forall _, _ => intro
  | |- Obeys _ _ (bind _ _) => apply Obeys_bind
  | |- Obeys _ _ (tryCatch _ _) => apply Obeys_tryCatch
  | |- Obeys _ _ (tryFinally _ _) => apply Obeys_tryFinally
  | |- Obeys _ _ (settle _) => apply Obeys_settle
  | |- Obeys _ _ (ret _) => apply Obeys_ret
  | |- Obeys _ _ (throw _) => apply Obeys_throw
  | |- Obeys _ _ hang => apply Obeys_hang
  | |- Obeys _ _ get => apply Obeys_get
  | |- Obeys _ _ (fetch _) => apply Obeys_fetch; solve [exact I | reflexivity]
  | |- Obeys _ _ (spawn _) => apply Obeys_spawn
  | |- Obeys _ _ (when _ _) => apply Obeys_when
  | |- Obeys _ _ (modify _) => apply Obeys_modify; memory_modify
  | |- Obeys _ _ (match ?x with _ => _ end) => destruct x
  | |- Obeys _ _ _ => solve [auto with memory]
  end.

(** The fields of the manager are the same as in [m0]. *)
Section Memory.
Variable m0 : Manager.
Let P := fun w : World => mgr w = m0.
Let Q := fun _ : Issued => True.

Lemma debugLog_memory msg : Obeys P Q (debugLog msg).
Proof.
  intros w H. unfold debugLog. destruct (debugMode (mgr w)); [|exact H].
  destruct (logArea (dom w)); exact H.
Qed.
Hint Resolve debugLog_memory : memory.

Lemma decodeJwtToken_memory token : Obeys P Q (decodeJwtToken token).
Proof. unfold decodeJwtToken. repeat memory_step. Qed.
Hint Resolve decodeJwtToken_memory : memory.

Lemma cacheToken_memory token e : Obeys P Q (cacheToken token e).
Proof. unfold cacheToken. repeat memory_step. Qed.

Lemma clearCachedAuth_memory : Obeys P Q clearCachedAuth.
Proof. unfold clearCachedAuth. repeat memory_step. Qed.

End Memory.

#[global] Hint Resolve debugLog_memory decodeJwtToken_memory cacheToken_memory
  clearCachedAuth_memory : memory.

(** ** A renewal without a window *)

Transparent handleTokenExpiry.





Opaque handleTokenExpiry.

(** ** The background renewal after a start from the cache *)

(** X20: in a popup whose elements are bound, the renewal that
    [authenticate] schedules after it has taken a token from the cache never
    throws, opens no window that the user can see and sends nothing to
    Azure; it leaves the capacities, the drop-downs and the buttons as they
    are. *)
Theorem backgroundRefresh_quiet :
  forall (cachedToken : string) (w : World) (sc : Script),
    log_ready w ->
    let renewal := run (timerBody (BackgroundTokenRefresh cachedToken) w) sc in
    (forall e, outcome renewal <> Throw e) /\
    Forall silentOnly (issued renewal) /\
    frame w (final renewal) /\
    fetchReplies (rest renewal) = fetchReplies sc.
Proof.
  intros cachedToken w sc Hready renewal.
  assert (O : Obeys (fun _ => True) silentOnly (timerBody (BackgroundTokenRefresh cachedToken))).
  { unfold timerBody. repeat keeps_step. }
  split; [|split; [|split]].
  - intros e. unfold renewal, timerBody. rewrite run_tryCatch.
    match goal with |- context [orCatch (run (?a w) sc) _] =>
      assert (Hf : frame w (final (run (a w) sc)))
        by (apply run_final_frame; keeps_auto);
      destruct (run (a w) sc) as [o x sc1 t1]
    end.
    cbn [final] in Hf.
    assert (Rx : log_ready x) by (eapply frame_log_ready; eauto).
    unfold orCatch. cbn [outcome final rest issued].
    destruct o as [[] | e' |]; cbn [outcome]; try discriminate.
    rewrite (debugLog_ready _ _ Rx). cbn. discriminate.
  - apply (obeys_run (fun _ => True) silentOnly). apply O. exact I.
  - apply run_final_frame. unfold timerBody. keeps_auto.
  - apply (obeys_run_fetchReplies (fun _ => True)).
    apply obeys_weaken with (Q := silentOnly); [intros i [H _]; exact H|].
    apply O. exact I.
Qed.

(** ** A start from the cache *)

(** The manager and the browser are as in [m0] and [b0], and only Azure
    and Graph are called. *)
Section Display.
Variable m0 : Manager.
Variable b0 : Browser.
Let P := fun w : World => mgr w = m0 /\ browser w = b0.
Let Q := fun i : Issued => isFetch i = true.

Lemma debugLog_display msg : Obeys P Q (debugLog msg).
Proof.
  intros w H. unfold debugLog. destruct (debugMode (mgr w)); [|exact H].
  destruct (logArea (dom w)); exact H.
Qed.
Hint Resolve debugLog_display : memory.

Lemma log_display msg : Obeys P Q (log msg).
Proof. unfold log. repeat memory_step. Qed.

Lemma decodeJwtToken_display token : Obeys P Q (decodeJwtToken token).
Proof. unfold decodeJwtToken. repeat memory_step. Qed.

Lemma showTenant_display t : Obeys P Q (showTenant t).
Proof. unfold showTenant. repeat memory_step. Qed.
Hint Resolve log_display decodeJwtToken_display showTenant_display : memory.

Lemma updateTenantDisplayFromToken_display t : Obeys P Q (updateTenantDisplayFromToken t).
Proof. unfold updateTenantDisplayFromToken. repeat memory_step. Qed.

Lemma getUserInfo_display : Obeys P Q getUserInfo.
Proof. unfold getUserInfo. repeat memory_step. Qed.

Lemma checkTokenCapabilities_display : Obeys P Q checkTokenCapabilities.
Proof. unfold checkTokenCapabilities. repeat memory_step. Qed.
Hint Resolve updateTenantDisplayFromToken_display getUserInfo_display
  checkTokenCapabilities_display : memory.

Lemma updateTenantAndUserDisplay_display t : Obeys P Q (updateTenantAndUserDisplay t).
Proof. unfold updateTenantAndUserDisplay. repeat memory_step. Qed.

End Display.

Transparent authenticate.

Lemma validateToken_accepted token w sc r rs :
  fetchReplies sc = Responded r :: rs ->
  run (validateToken token w) sc =
    {| outcome := Ok (ok r); final := w;
       rest := {| fetchReplies := rs; authReplies := authReplies sc |};
       issued := [IssuedFetch (validationRequest token)] |}.
Proof.
  intros Hsc. unfold validateToken, validationRequest, tryCatch, bind, fetch.
  simpl. rewrite Hsc. reflexivity.
Qed.

(** X21: in a popup whose elements are bound, when the store holds a token
    with its fingerprint and an expiry more than two minutes away, and
    Azure accepts that token, [authenticate] returns it without opening any
    window: it sends the validation request and then only requests to Azure
    and Graph.  The token is then the one in memory, the store is as it was,
    one background renewal is scheduled a second later and the loading
    indicator is hidden. *)
Theorem authenticate_from_cache :
  forall (w : World) (sc : Script) (token tokenExpiry : string) (expiresAt : Z)
         (si : SessionInfo) (r : Response) (rs : list FetchReply),
    log_ready w ->
    storage_lastError (browser w) = None ->
    storage (browser w) =
      {| st_accessToken := Some token; st_tokenExpiry := Some tokenExpiry;
         st_sessionInfo := Some si |} ->
    token <> "" -> tokenExpiry <> "" ->
    tokenHash si = generateTokenHash token ->
    JsNumber.parseInt tokenExpiry = Some expiresAt ->
    (now (browser w) < expiresAt - 2 * 60 * 1000)%Z ->
    fetchReplies sc = Responded r :: rs ->
    ok r = true ->
    let signIn := run (authenticate w) sc in
    outcome signIn = Ok token /\
    (exists others,
        issued signIn = IssuedFetch (validationRequest token) :: others /\
        Forall (fun i => isFetch i = true) others) /\
    authReplies (rest signIn) = authReplies sc /\
    accessToken (mgr (final signIn)) = Some token /\
    storage (browser (final signIn)) = storage (browser w) /\
    timers (browser (final signIn)) =
      (timers (browser w) ++ [(1000%Z, BackgroundTokenRefresh token)])%list /\
    loadingIndicator_display (dom (final signIn)) = "none".
Proof.
  intros w sc token tokenExpiry expiresAt si r rs
         Hready Herr Hst Htok Hexp Hhash Hparse Hlt Hsc Hok signIn.
  set (w1 := upd_dom (set_loadingIndicator_display "block")
               (appendLine (Line false "Authenticating with Azure AD...") w)).
  assert (R1 : log_ready w1) by (unfold w1; ready_steps).
  destruct (getCachedToken_hit w1 token tokenExpiry expiresAt si
              R1 Herr Hst Htok Hexp Hhash Hparse Hlt) as (msg & Hhit).
  set (w2 := debugged msg w1) in *.
  assert (R2 : log_ready w2) by (unfold w2; ready_steps).
  set (w3 := upd_mgr (set_accessToken (Some token)) w2).
  assert (R3 : log_ready w3) by (unfold w3; ready_steps).
  assert (B3 : browser w3 = browser w) by reflexivity.
  pose proof (updateTenantAndUserDisplay_display (mgr w3) (browser w3) token w3
                (conj eq_refl eq_refl)) as OD.
  apply obeys_firstPhase in OD. destruct OD as ((M4 & B4) & Q4).
  pose proof (updateTenantAndUserDisplay_keeps w3 token w3 (frame_refl w3)) as OF.
  apply obeys_firstPhase in OF. destruct OF as (F4 & _).
  assert (E : run (authenticate w) sc =
              sent (IssuedFetch (validationRequest token))
                (let (w4, t4) := firstPhase (updateTenantAndUserDisplay token w3) in
                 {| outcome := Ok token;
                    final :=
                      upd_dom (set_loadingIndicator_display "none")
                        (upd_browser
                           (fun b => set_timers
                              (timers b ++ [(1000%Z, BackgroundTokenRefresh token)])%list b)
                           (debugged "Cached token is valid"
                              (appendLine (Line false "Using cached authentication token")
                                 w4)));
                    rest := {| fetchReplies := rs; authReplies := authReplies sc |};
                    issued := t4 |})).
  { unfold authenticate, tryFinally, tryCatch, log, showLoading.
    step_over. step_over. fold w1.
    change (bind getCachedToken ?f w1) with (bindStep (getCachedToken w1) f).
    rewrite Hhit. cbn [bindStep].
    rewrite run_finallyStep, run_catchStep, run_bind.
    rewrite (validateToken_accepted token w2 sc r rs Hsc). rewrite Hok.
    unfold andThen. cbn [outcome final rest issued].
    match goal with
    | |- context [run ?s {| fetchReplies := rs; authReplies := authReplies sc |}] =>
        assert (T : run s {| fetchReplies := rs; authReplies := authReplies sc |} =
                    (let (w4, t4) := firstPhase (updateTenantAndUserDisplay token w3) in
                     {| outcome := Ok token;
                        final :=
                          upd_browser
                            (fun b => set_timers
                               (timers b ++ [(1000%Z, BackgroundTokenRefresh token)])%list b)
                            (debugged "Cached token is valid"
                               (appendLine (Line false "Using cached authentication token")
                                  w4));
                        rest := {| fetchReplies := rs; authReplies := authReplies sc |};
                        issued := t4 |}))
    end.
    { step_over. fold w3.
      unfold bind at 1, spawn at 1. cbn [bindStep run].
      destruct (firstPhase (updateTenantAndUserDisplay token w3)) as [w4 t4].
      cbn [fst snd] in *.
      assert (R4 : log_ready w4) by (eapply frame_log_ready; eauto).
      match goal with
      | |- context [run (?k w4) _] =>
          assert (K : k w4 =
                      Done (Ok token)
                        (upd_browser
                           (fun b => set_timers
                              (timers b ++ [(1000%Z, BackgroundTokenRefresh token)])%list b)
                           (debugged "Cached token is valid"
                              (appendLine (Line false "Using cached authentication token")
                                 w4))))
      end.
      { step_over. step_over. unfold setTimeout. step_over. reflexivity. }
      rewrite K. cbn [run outcome final rest issued].
      rewrite ?app_nil_r. reflexivity. }
    rewrite T. clear T.
    destruct (firstPhase (updateTenantAndUserDisplay token w3)) as [w4 t4].
    unfold orCatch, sent, showLoading. cbn [outcome final rest issued run modify].
    rewrite ?app_nil_r. reflexivity. }
  unfold signIn. rewrite E. clear E.
  destruct (firstPhase (updateTenantAndUserDisplay token w3)) as [w4 t4].
  cbn [fst snd] in *. unfold sent. cbn [outcome final rest issued].
  split; [reflexivity|]. split; [exists t4; split; [reflexivity|exact Q4]|].
  split; [reflexivity|].
  split; [change (accessToken (mgr w4) = Some token); rewrite M4; reflexivity|].
  split; [change (storage (browser w4) = storage (browser w)); rewrite B4; reflexivity|].
  split; [|reflexivity].
  change (timers (browser w4) ++ [(1000%Z, BackgroundTokenRefresh token)] =
          timers (browser w) ++ [(1000%Z, BackgroundTokenRefresh token)])%list.
  rewrite B4. reflexivity.
Qed.

Opaque authenticate.

(** ** A resize from click to end *)

Lemma asked_facts c w :
  log_ready w ->
  log_ready (asked c w) /\ mgr (asked c w) = mgr w /\ dom (asked c w) = dom w /\
  timers (browser (asked c w)) = timers (browser w).
Proof.
  intros H. unfold asked. destruct (String.eqb (stateOf c) "Active"); repeat split; exact H.
Qed.

Lemma updateCapacitySku_proceeds w c :
  selectedCapacity w = Some c ->
  Select.value (skuSelect (dom w)) <> "" ->
  Select.value (skuSelect (dom w)) <> currentSkuOf c ->
  JsString.startsWith "Current:" (Select.value (skuSelect (dom w))) = false ->
  (stateOf c <> "Active" \/ hd false (confirms (browser w)) = true) ->
  updateCapacitySku w =
    finallyStep
      (catchStep
         (bindStep
            (makeApiCall (baseUrl ++ JsValue.show (cap_id c) ++ "?api-version=" ++
                          fabricApiVersion)
               "PATCH"
               (Some (JObj [("sku", JObj [("name",
                                           JStr (Select.value (skuSelect (dom w))))])]))
               (upd_dom (fun d => set_skuSelect (Select.setDisabled true (skuSelect d)) d)
                  (upd_dom (set_updateSkuButton_disabled true)
                     (upd_dom (set_refreshButton_disabled true)
                        (upd_dom (set_stopButton_disabled true)
                           (upd_dom (set_startButton_disabled true)
                              (appendLine
                                 (Line false
                                    ("Updating capacity " ++ JsValue.show (cap_name c) ++
                                     " SKU from " ++ currentSkuOf c ++ " to " ++
                                     Select.value (skuSelect (dom w)) ++ "..."))
                                 (asked c w))))))))
            (fun _ =>
               logSuccess ("SKU update initiated for " ++ JsValue.show (cap_name c) ++
                           ": " ++ currentSkuOf c ++ " -> " ++
                           Select.value (skuSelect (dom w))) ;;
               setTimeout RefreshAfterSkuUpdate 3000))
         (fun error =>
            logError ("Failed to update SKU for capacity " ++
                      JsValue.show (cap_name c)) (Some error)))
      (setButtonsEnabled true ;; updSkuSelect (Select.setDisabled false)).
Proof.
  intros Hsel Hne Hcur Hpre Hgo. unfold selectedCapacity in Hsel.
  destruct (String.eqb (Select.value (capacitySelect (dom w))) "") eqn:Hval; [discriminate|].
  apply String.eqb_neq in Hne, Hcur.
  unfold updateCapacitySku. step_over.
  rewrite Hval, Hne, Hsel, Hcur, Hpre. cbn [orb].
  unfold asked.
  destruct (String.eqb_spec (stateOf c) "Active") as [Hact | Hact].
  - destruct Hgo as [Hgo | Hyes]; [contradiction|].
    unfold bind at 1, confirm. cbn [bindStep]. rewrite Hyes. cbn [negb].
    unfold tryFinally, tryCatch, log, setButtonsEnabled, updSkuSelect.
    unfold bind, modify. cbn [bindStep]. reflexivity.
  - unfold bind at 1, ret at 1. cbn [bindStep negb].
    unfold tryFinally, tryCatch, log, setButtonsEnabled, updSkuSelect.
    unfold bind, modify. cbn [bindStep]. reflexivity.
Qed.

(** X22: in a popup whose elements are bound, with a token in memory, a
    capacity chosen and another SKU selected, a resize that goes ahead (the
    capacity is not Active, or the user confirms) and is answered with
    anything but a 401 sends that one PATCH and returns normally: a failure
    is logged, not thrown.  Afterwards the capacity is still chosen, the
    refresh button and the SKU drop-down are enabled, and the SKU drop-down
    is back on the SKU that the list has for the capacity, with the update
    button disabled.  A refresh is scheduled three seconds later when the
    answer is a 200 or a 202 and the log area exists, and none is scheduled
    when the request was refused. *)
Theorem updateCapacitySku_outcomes :
  forall (w : World) (c : Capacity) (sc : Script) (r : Response) (rs : list FetchReply),
    log_ready w ->
    JsString.truthy (accessToken (mgr w)) = true ->
    selectedCapacity w = Some c ->
    let selectedSku := Select.value (skuSelect (dom w)) in
    selectedSku <> "" ->
    selectedSku <> currentSkuOf c ->
    JsString.startsWith "Current:" selectedSku = false ->
    (stateOf c <> "Active" \/ hd false (confirms (browser w)) = true) ->
    fetchReplies sc = Responded r :: rs ->
    status r <> 401%Z ->
    let resize := run (updateCapacitySku w) sc in
    outcome resize = Ok tt /\
    issued resize = [IssuedFetch (resizeRequest c selectedSku w)] /\
    selectedCapacity (final resize) = Some c /\
    refreshButton_disabled (dom (final resize)) = false /\
    sel_disabled (skuSelect (dom (final resize))) = false /\
    Select.value (skuSelect (dom (final resize))) = currentSkuOf c /\
    updateSkuButton_disabled (dom (final resize)) = true /\
    ((status r = 200 \/ status r = 202)%Z ->
     present (logArea (dom w)) = true ->
     timers (browser (final resize)) =
       (timers (browser w) ++ [(3000%Z, RefreshAfterSkuUpdate)])%list) /\
    (ok r = false -> timers (browser (final resize)) = timers (browser w)).
Proof.
  intros w c sc r rs Hready Htok Hsel selectedSku Hne Hcur Hpre Hgo Hsc Hst resize.
  destruct (asked_facts c w Hready) as (R0 & M0 & D0 & T0).
  set (url := baseUrl ++ JsValue.show (cap_id c) ++ "?api-version=" ++ fabricApiVersion).
  set (payload := Some (JObj [("sku", JObj [("name", JStr selectedSku)])])).
  set (w1 := upd_dom (fun d => set_skuSelect (Select.setDisabled true (skuSelect d)) d)
               (upd_dom (set_updateSkuButton_disabled true)
                  (upd_dom (set_refreshButton_disabled true)
                     (upd_dom (set_stopButton_disabled true)
                        (upd_dom (set_startButton_disabled true)
                           (appendLine
                              (Line false
                                 ("Updating capacity " ++ JsValue.show (cap_name c) ++
                                  " SKU from " ++ currentSkuOf c ++ " to " ++
                                  selectedSku ++ "..."))
                              (asked c w))))))).
  assert (R1 : log_ready w1) by (unfold w1; ready_steps).
  assert (S1 : selectedCapacity w1 = Some c).
  { rewrite <- Hsel. apply selectedCapacity_same.
    - change (capacitySelect (dom (asked c w)) = capacitySelect (dom w)). now rewrite D0.
    - change (capacities (mgr (asked c w)) = capacities (mgr w)). now rewrite M0. }
  assert (P1 : present (logArea (dom w1)) = present (logArea (dom w))).
  { unfold w1. rewrite !upd_dom_present by reflexivity. rewrite appendLine_present.
    now rewrite D0. }
  assert (K1 : accessToken (mgr w1) = accessToken (mgr w)).
  { change (accessToken (mgr (asked c w)) = accessToken (mgr w)). now rewrite M0. }
  assert (B1 : timers (browser w1) = timers (browser w)) by exact T0.
  assert (Htok1 : JsString.truthy (accessToken (mgr w1)) = true) by (rewrite K1; exact Htok).
  destruct (makeApiCall_answered w1 url "PATCH" payload sc r rs R1 Htok1 Hsc Hst)
    as (Hnh & Hiss & F & Hb & Hm & Hthrow & Hacc).
  set (call := run (makeApiCall url "PATCH" payload w1) sc) in *.
  assert (R2 : log_ready (final call)) by (eapply frame_log_ready; eassumption).
  assert (S2 : selectedCapacity (final call) = Some c).
  { rewrite <- S1. apply selectedCapacity_frame. exact F. }
  assert (P2 : present (logArea (dom (final call))) = present (logArea (dom w))).
  { rewrite <- P1. apply F. }
  assert (D2 : sel_disabled (skuSelect (dom (final call))) = true).
  { destruct F as (_ & _ & _ & _ & _ & _ & F7 & _). rewrite F7. reflexivity. }
  unfold resize.
  rewrite (updateCapacitySku_proceeds w c Hsel Hne Hcur Hpre Hgo).
  fold selectedSku. fold url. fold payload. fold w1.
  set (inner := catchStep _ _).
  assert (Inner : exists l x,
             run inner sc =
               {| outcome := Ok tt; final := appendLine l x; rest := rest call;
                  issued := issued call |} /\
             log_ready x /\ selectedCapacity x = Some c /\
             ((status r = 200 \/ status r = 202)%Z ->
              present (logArea (dom w)) = true ->
              timers (browser x) =
                (timers (browser w) ++ [(3000%Z, RefreshAfterSkuUpdate)])%list) /\
             (ok r = false -> timers (browser x) = timers (browser w))).
  { unfold inner. rewrite run_catchStep, run_bindStep. fold call.
    assert (Hb' : timers (browser (final call)) = timers (browser w))
      by (rewrite Hb; exact B1).
    clear Hiss Hm F R1 S1 B1 P1 K1 Htok1 Hb D2 inner.
    clearbody call. clearbody w1.
    destruct call as [o x sc' t]. cbn [outcome final rest issued] in *.
    unfold andThen, orCatch. cbn [outcome final rest issued].
    destruct o as [j | e |]; [| |contradiction].
    - destruct (logArea (dom x)) as [area|] eqn:Harea.
      + match goal with |- context [bind ?m ?k x] =>
          assert (E1 : bind m k x =
                       Done (Ok tt)
                         (appendLine
                            (Line true ("SUCCESS: " ++ "SKU update initiated for " ++
                               JsValue.show (cap_name c) ++ ": " ++ currentSkuOf c ++
                               " -> " ++ selectedSku))
                            (upd_browser (fun b => set_timers
                               (timers b ++ [(3000%Z, RefreshAfterSkuUpdate)])%list b) x)))
            by (unfold bind, logSuccess; rewrite Harea; reflexivity);
          rewrite E1; clear E1
        end.
        cbn [run outcome final rest issued].
        rewrite ?app_nil_r.
        eexists _, _. split; [reflexivity|]. split; [ready_steps|].
        split; [rewrite <- S2; apply selectedCapacity_same; reflexivity|].
        split.
        * intros _ _. simpl. rewrite Hb'. reflexivity.
        * intros Hok. destruct (Hthrow Hok) as (e & He). discriminate.
      + match goal with |- context [bind ?m ?k x] =>
          assert (E1 : bind m k x = Done (Throw typeError_null) x)
            by (unfold bind, logSuccess; rewrite Harea; reflexivity);
          rewrite E1; clear E1
        end.
        cbn [bindStep run outcome final rest issued logError modify].
        rewrite ?app_nil_r.
        eexists _, x. split; [reflexivity|]. split; [exact R2|]. split; [exact S2|].
        split.
        * intros _ Hp. rewrite <- P2 in Hp. discriminate.
        * intros _. exact Hb'.
    - cbn [bindStep run outcome final rest issued logError modify].
      rewrite ?app_nil_r.
      eexists _, x. split; [reflexivity|]. split; [exact R2|]. split; [exact S2|].
      split.
      + intros Hs _. specialize (Hacc (or_intror eq_refl) Hs). discriminate.
      + intros _. exact Hb'. }
  destruct Inner as (l & x & Inner & Rx & Sx & T1 & T2).
  rewrite run_finallyStep, Inner. cbv zeta. cbn [outcome final rest issued].
  assert (Rl : log_ready (appendLine l x)) by ready_steps.
  assert (Sl : selectedCapacity (appendLine l x) = Some c).
  { rewrite <- Sx. apply selectedCapacity_same; reflexivity. }
  assert (Fin : (setButtonsEnabled true ;; updSkuSelect (Select.setDisabled false))
                  (appendLine l x) =
                Done (Ok tt)
                  (upd_dom (fun d => set_skuSelect (Select.setDisabled false (skuSelect d)) d)
                     (restored c (appendLine l x)))).
  { unfold bind. rewrite (setButtonsEnabled_selected (appendLine l x) c Rl Sl).
    reflexivity. }
  rewrite Fin. cbn [run outcome final rest issued]. rewrite app_nil_r.
  destruct (restored_facts c (appendLine l x) Rl Sl) as (A1 & A2 & A3 & A4 & A5 & _).
  destruct (afterChoice_facts c (appendLine l x) Rl)
    as (_ & _ & _ & _ & _ & _ & _ & _ & _ & _ & H4 & H5 & _).
  split; [reflexivity|].
  split; [rewrite Hiss; unfold resizeRequest, apiRequest; rewrite K1; reflexivity|].
  split; [rewrite <- A4; apply selectedCapacity_same; reflexivity|].
  split; [exact A3|]. split; [reflexivity|].
  split; [exact H5|]. split; [exact H4|].
  split.
  - intros Hs Hp. change (timers (browser (restored c (appendLine l x))) =
                          (timers (browser w) ++ [(3000%Z, RefreshAfterSkuUpdate)])%list).
    rewrite A5. exact (T1 Hs Hp).
  - intros Hok. change (timers (browser (restored c (appendLine l x))) = timers (browser w)).
    rewrite A5. exact (T2 Hok).
Qed.

(** ** A sign-in that is refused *)

Transparent authenticate.

Lemma authenticate_denied w sc reply replies e :
  log_ready w -> cleared w ->
  authReplies sc = reply :: replies ->
  lastError reply = Some e ->
  exists rq w',
    run (authenticate w) sc =
      {| outcome := Throw e; final := w';
         rest := {| fetchReplies := fetchReplies sc; authReplies := replies |};
         issued := [IssuedAuth rq] |} /\
    auth_interactive rq = true /\
    mgr w' = mgr w /\
    storage (browser w') = storage (browser w) /\
    present (logArea (dom w')) = present (logArea (dom w)) /\
    loadingIndicator_display (dom w') = "none".
Proof.
  intros Hready Hc Hsc Herr.
  assert (R1 : log_ready (upd_dom (set_loadingIndicator_display "block")
                            (appendLine (Line false "Authenticating with Azure AD...") w)))
    by ready_steps.
  destruct (getCachedToken_cleared _ R1 Hc) as [msg Hmiss].
  unfold authenticate. asimpl. rewrite Hmiss. asimpl.
  unfold performOAuth2Flow, attemptOAuth2WithScope, launchWebAuthFlow. asimpl.
  rewrite generateState_next. asimpl.
  repeat (step_debugLog; asimpl).
  rewrite Hsc. asimpl. rewrite Herr. asimpl.
  unfold logError. asimpl.
  repeat (step_debugLog; asimpl).
  do 2 eexists. split; [reflexivity|]. split; [reflexivity|].
  split; [reflexivity|]. split; [reflexivity|]. split; [|reflexivity].
  unfold debugged, drawn. cbn.
  repeat first [rewrite present_addLine | rewrite present_if_addLine].
  reflexivity.
Qed.

Opaque authenticate.

(** X23: in a popup whose elements are bound, with no token in memory and
    none in the store, a call of [loadCapacities] whose sign-in window is
    closed or refused sends nothing to Azure: the window is the only thing
    it opens.  It does not throw; it logs the failure, leaves no token in
    memory, an empty list of capacities and the loading indicator hidden. *)
Theorem loadCapacities_sign_in_refused :
  forall (w : World) (sc : Script) (reply : AuthReply) (replies : list AuthReply)
         (e : JsError),
    log_ready w ->
    JsString.truthy (accessToken (mgr w)) = false ->
    cleared w ->
    authReplies sc = reply :: replies ->
    lastError reply = Some e ->
    let load := run (loadCapacities w) sc in
    outcome load = Ok tt /\
    (exists rq, issued load = [IssuedAuth rq] /\ auth_interactive rq = true) /\
    fetchReplies (rest load) = fetchReplies sc /\
    accessToken (mgr (final load)) = accessToken (mgr w) /\
    capacities (mgr (final load)) = [] /\
    initialLoadComplete (mgr (final load)) = initialLoadComplete (mgr w) /\
    loadingIndicator_display (dom (final load)) = "none".
Proof.
  intros w sc reply replies e Hready Htok Hc Hsc Herr load.
  set (x := appendLine
              (Line false "No authentication token available. Please authenticate first.")
              (upd_mgr (set_capacities [])
                 (upd_dom (set_loadingIndicator_display "block")
                    (appendLine (Line false "Loading Fabric capacities...") w)))).
  assert (Rx : log_ready x) by (unfold x; ready_steps).
  destruct (authenticate_denied x sc reply replies e Rx Hc Hsc Herr)
    as (rq & w' & E & Hi & Hm & Hs & Hp & Hl).
  unfold load, loadCapacities, tryFinally, tryCatch, log, showLoading.
  set (inner := catchStep _ _).
  assert (Inner : run inner sc =
                  {| outcome := Ok tt;
                     final := appendLine
                                (Line true ("ERROR: " ++ "Failed to load capacities" ++
                                            " - " ++ errorText e)) w';
                     rest := {| fetchReplies := fetchReplies sc; authReplies := replies |};
                     issued := [IssuedAuth rq] |}).
  { unfold inner. step_over. step_over. step_over. step_over.
    match goal with |- context [JsString.truthy (accessToken (mgr ?y))] =>
      change (JsString.truthy (accessToken (mgr y))) with
        (JsString.truthy (accessToken (mgr w)))
    end.
    rewrite Htok. cbv beta iota delta [negb when].
    unfold bind at 1. unfold bind at 1. step_over. cbn [bindStep]. fold x.
    change (bind authenticate ?f x) with (bindStep (authenticate x) f).
    rewrite run_catchStep, !run_bindStep, E.
    unfold andThen, orCatch. cbn [outcome final rest issued].
    unfold logError. cbn [run modify outcome final rest issued].
    rewrite ?app_nil_r. reflexivity. }
  rewrite run_finallyStep, Inner. cbv zeta.
  cbn [outcome final rest issued run modify]. rewrite ?app_nil_r.
  split; [reflexivity|]. split; [exists rq; split; [reflexivity|exact Hi]|].
  split; [reflexivity|].
  split; [change (accessToken (mgr w') = accessToken (mgr w)); rewrite Hm; reflexivity|].
  split; [change (capacities (mgr w') = []); rewrite Hm; reflexivity|].
  split; [|reflexivity].
  change (initialLoadComplete (mgr w') = initialLoadComplete (mgr w)).
  rewrite Hm. reflexivity.
Qed.

(** ** A sign-in that is granted *)

Lemma extractTokenFromUrl_token url params st token w :
  log_ready w ->
  fragmentParams url = Some params ->
  paramsGet "state" params = Some st ->
  JsString.truthy (paramsGet "error" params) = false ->
  paramsGet "access_token" params = Some token ->
  token <> "" ->
  exists msg, extractTokenFromUrl url st w = Done (Ok (grant params token)) (debugged msg w).
Proof.
  intros Hready Hp Hs He Ht Hne.
  unfold extractTokenFromUrl, grant. rewrite Hp, Hs. cbn [sameString].
  rewrite String.eqb_refl. cbn [negb]. cbv iota.
  destruct (paramsGet "error" params) as [[|c e]|]; try discriminate;
    rewrite Ht; (destruct token as [|a t]; [congruence|]);
    unfold bind; rewrite (debugLog_ready _ _ Hready); cbn [bindStep]; eexists; reflexivity.
Qed.

Opaque extractTokenFromUrl.

Lemma performOAuth2Flow_granted w sc reply replies url params token :
  log_ready w ->
  authReplies sc = reply :: replies ->
  lastError reply = None ->
  responseUrl reply = Some url ->
  fragmentParams url = Some params ->
  paramsGet "state" params = Some (nextState w) ->
  JsString.truthy (paramsGet "error" params) = false ->
  paramsGet "access_token" params = Some token ->
  token <> "" ->
  exists rq w',
    run (performOAuth2Flow w) sc =
      {| outcome := Ok (grant params token); final := w';
         rest := {| fetchReplies := fetchReplies sc; authReplies := replies |};
         issued := [IssuedAuth rq] |} /\
    auth_interactive rq = true /\
    mgr w' = mgr w /\
    storage (browser w') = storage (browser w) /\
    frame w w'.
Proof.
  intros Hready Hsc Herr Hurl Hp Hs He Ht Hne.
  assert (F : frame w (final (run (performOAuth2Flow w) sc))).
  { apply run_final_frame. apply performOAuth2Flow_keeps. }
  revert F.
  unfold performOAuth2Flow, attemptOAuth2WithScope, launchWebAuthFlow. asimpl.
  rewrite generateState_next. asimpl.
  repeat (step_debugLog; asimpl).
  rewrite Hsc. asimpl. rewrite Herr, Hurl. asimpl.
  step_debugLog. asimpl.
  match goal with |- context [extractTokenFromUrl url ?st ?x] =>
    destruct (extractTokenFromUrl_token url params st token x) as (msg & E);
      [ready|exact Hp|exact Hs|exact He|exact Ht|exact Hne|];
    rewrite E
  end.
  asimpl. intros F.
  do 2 eexists. split; [reflexivity|]. split; [reflexivity|].
  split; [reflexivity|]. split; [reflexivity|exact F].
Qed.

Transparent authenticate.

(** X24: in a popup whose elements are bound, with a store that can be
    read and written and holds no token, when the sign-in window comes back
    with the state that was sent, no error and a token, [authenticate]
    returns that token.  It has opened that one interactive window and sent
    nothing else but requests to Azure and Graph, whose replies it has not
    waited for; the token is in memory and in the store, so that
    [getCachedToken] returns it until two minutes before its expiry; and the
    loading indicator is hidden.  The lifetime granted is such that the
    clock, the lifetime in milliseconds and the expiry are integers that a
    JavaScript number holds exactly, and so are the times of the later
    reads. *)
Theorem authenticate_sign_in :
  forall (w : World) (sc : Script) (reply : AuthReply) (replies : list AuthReply)
         (url : ResponseUrl) (params : list (string * string)) (token : string),
    log_ready w ->
    storage_lastError (browser w) = None ->
    st_accessToken (storage (browser w)) = None ->
    authReplies sc = reply :: replies ->
    lastError reply = None ->
    responseUrl reply = Some url ->
    fragmentParams url = Some params ->
    paramsGet "state" params = Some (nextState w) ->
    JsString.truthy (paramsGet "error" params) = false ->
    paramsGet "access_token" params = Some token ->
    token <> "" ->
    exactExpiry (ti_expiresIn (grant params token)) w ->
    let signIn := run (authenticate w) sc in
    let expiry :=
      (now (browser w) + lifetimeSeconds (ti_expiresIn (grant params token)) * 1000)%Z in
    outcome signIn = Ok token /\
    (exists rq others,
        issued signIn = IssuedAuth rq :: others /\
        auth_interactive rq = true /\
        Forall (fun i => isFetch i = true) others) /\
    fetchReplies (rest signIn) = fetchReplies sc /\
    accessToken (mgr (final signIn)) = Some token /\
    st_accessToken (storage (browser (final signIn))) = Some token /\
    st_tokenExpiry (storage (browser (final signIn))) = Some (JsNumber.toString expiry) /\
    loadingIndicator_display (dom (final signIn)) = "none" /\
    (forall t, safeInteger t -> (t < expiry - 2 * 60 * 1000)%Z ->
               exists w', getCachedToken (atTime t (final signIn)) =
                          Done (Ok (Some token)) w').
Proof.
  intros w sc reply replies url params token
         Hready Herr Hnone Hsc Hle Hurl Hp Hs He Ht Hne _ signIn expiry.
  set (w1 := upd_dom (set_loadingIndicator_display "block")
               (appendLine (Line false "Authenticating with Azure AD...") w)).
  assert (R1 : log_ready w1) by (unfold w1; ready_steps).
  destruct (getCachedToken_cleared w1 R1 (or_intror Hnone)) as (msg & Hmiss).
  set (w2 := debugged msg w1) in *.
  assert (R2 : log_ready w2) by (unfold w2; ready_steps).
  destruct (performOAuth2Flow_granted w2 sc reply replies url params token
              R2 Hsc Hle Hurl Hp Hs He Ht Hne)
    as (rq & w3 & Eflow & Hi & M3 & S3 & F3).
  assert (R3 : log_ready w3) by (eapply frame_log_ready; eassumption).
  set (w3' := upd_mgr (set_accessToken (Some token)) w3).
  assert (R3' : log_ready w3') by (unfold w3'; ready_steps).
  pose proof (updateTenantAndUserDisplay_display (mgr w3') (browser w3') token w3'
                (conj eq_refl eq_refl)) as OD.
  apply obeys_firstPhase in OD. destruct OD as ((M4 & B4) & Q4).
  pose proof (updateTenantAndUserDisplay_keeps w3' token w3' (frame_refl w3')) as OF.
  apply obeys_firstPhase in OF. destruct OF as (F4 & _).
  destruct (firstPhase (updateTenantAndUserDisplay token w3')) as [w4 t4] eqn:Ephase.
  cbn [fst snd] in *.
  assert (R4 : log_ready w4) by (eapply frame_log_ready; eauto).
  assert (N3 : now (browser w3) = now (browser w)) by apply F3.
  assert (L3 : storage_lastError (browser w3) = None).
  { destruct F3 as (_ & _ & _ & _ & _ & _ & _ & _ & _ & _ & _ & _ & F13 & _).
    rewrite F13. exact Herr. }
  assert (L4 : storage_lastError (browser w4) = None) by (rewrite B4; exact L3).
  destruct (cacheToken_stores token (ti_expiresIn (grant params token)) w4 R4 L4)
    as (stored & si & Ecache & Fs & Hh & Hc & Hst).
  assert (Ms : mgr stored = mgr w4).
  { pose proof (cacheToken_memory (mgr w4) token (ti_expiresIn (grant params token))
                  w4 eq_refl) as O.
    rewrite Ecache in O. exact O. }
  assert (Rs : log_ready stored) by (eapply frame_log_ready; eauto).
  assert (N4 : now (browser w4) = now (browser w)) by (rewrite B4; exact N3).
  rewrite N4 in Hst. fold expiry in Hst.
  set (final' := upd_dom (set_loadingIndicator_display "none")
                   (debugged "New access token obtained and cached"
                      (appendLine (Line false "Authentication successful") stored))).
  assert (E : run (authenticate w) sc =
              {| outcome := Ok token; final := final';
                 rest := {| fetchReplies := fetchReplies sc; authReplies := replies |};
                 issued := IssuedAuth rq :: t4 |}).
  { unfold authenticate, tryFinally, tryCatch, log, showLoading.
    step_over. step_over. fold w1.
    change (bind getCachedToken ?f w1) with (bindStep (getCachedToken w1) f).
    rewrite Hmiss. cbn [bindStep]. fold w2.
    unfold bind at 1, ret at 1. cbn [bindStep].
    set (inner := catchStep _ _).
    assert (Inner : run inner sc =
                    {| outcome := Ok token;
                       final := debugged "New access token obtained and cached"
                                  (appendLine (Line false "Authentication successful") stored);
                       rest := {| fetchReplies := fetchReplies sc; authReplies := replies |};
                       issued := IssuedAuth rq :: t4 |}).
    { unfold inner. rewrite run_catchStep, run_bind, Eflow.
      unfold andThen. cbn [outcome final rest issued].
      match goal with
      | |- context [run ?s {| fetchReplies := fetchReplies sc; authReplies := replies |}] =>
          assert (T : run s {| fetchReplies := fetchReplies sc; authReplies := replies |} =
                      {| outcome := Ok token;
                         final := debugged "New access token obtained and cached"
                                    (appendLine (Line false "Authentication successful")
                                       stored);
                         rest := {| fetchReplies := fetchReplies sc;
                                    authReplies := replies |};
                         issued := t4 |})
      end.
      { change (ti_accessToken (grant params token)) with token.
        step_over. fold w3'.
        unfold bind at 1, spawn at 1. cbn [bindStep run].
        rewrite Ephase.
        match goal with
        | |- context [run (?k w4) _] =>
            assert (K : k w4 =
                        Done (Ok token)
                          (debugged "New access token obtained and cached"
                             (appendLine (Line false "Authentication successful") stored)))
        end.
        { unfold ret at 1.
          change (bind (cacheToken ?a ?b) ?f w4) with (bindStep (cacheToken a b w4) f).
          rewrite Ecache. cbn [bindStep].
          step_over. step_over. reflexivity. }
        rewrite K. cbn [run outcome final rest issued].
        rewrite ?app_nil_r. reflexivity. }
      rewrite T. unfold orCatch. cbn [outcome final rest issued]. reflexivity. }
    rewrite run_finallyStep, Inner. cbv zeta.
    cbn [outcome final rest issued run modify]. rewrite ?app_nil_r. reflexivity. }
  unfold signIn. rewrite E. cbn [outcome final rest issued].
  assert (Bf : browser final' = browser stored) by reflexivity.
  split; [reflexivity|].
  split; [exists rq, t4; split; [reflexivity|split; [exact Hi|exact Q4]]|].
  split; [reflexivity|].
  split; [change (accessToken (mgr stored) = Some token); rewrite Ms, M4; reflexivity|].
  split; [rewrite Bf, Hst; reflexivity|].
  split; [rewrite Bf, Hst; reflexivity|].
  split; [reflexivity|].
  intros t _ Hlt.
  assert (Rf : log_ready final') by (unfold final'; ready_steps).
  assert (Lf : storage_lastError (browser final') = None).
  { rewrite Bf. destruct Fs as (_ & _ & _ & _ & _ & _ & _ & _ & _ & _ & _ & _ & F13 & _).
    rewrite F13. exact L4. }
  destruct (getCachedToken_hit (atTime t final') token (JsNumber.toString expiry) expiry si)
    as (m & Hhit).
  - apply atTime_ready. exact Rf.
  - exact Lf.
  - exact Hst.
  - exact Hne.
  - apply toString_nonempty_Z.
  - exact Hh.
  - apply parseInt_toString_Z.
  - exact Hlt.
  - eauto.
Qed.

Opaque authenticate.
Transparent extractTokenFromUrl.

(** ** The display of the tenant and the user *)

Lemma tryCatch_debugLog_safe (a : Async unit) (msg : JsError -> string) w0 w sc :
  Obeys (frame w0) (fun _ => True) a ->
  frame w0 w -> log_ready w0 ->
  forall e, outcome (run (tryCatch a (fun error => debugLog (msg error)) w) sc) <> Throw e.
Proof.
  intros Ha Fw Hready e. rewrite run_tryCatch.
  destruct (obeys_run _ _ (a w) sc (Ha w Fw)) as (Hf & _).
  destruct (run (a w) sc) as [o x sc1 t1]. cbn [final] in Hf.
  assert (Rx : log_ready x) by (eapply frame_log_ready; eauto).
  unfold orCatch. cbn [outcome final rest issued].
  destruct o as [[] | e' |]; cbn [outcome]; try discriminate.
  rewrite (debugLog_ready _ _ Rx). cbn. discriminate.
Qed.

(** X25: in a popup whose elements are bound,
    [updateTenantAndUserDisplay] never throws, whatever the replies; it
    sends only requests (to Graph and to Azure), opens no window, and
    leaves the manager (token, capacities) and the browser state (store,
    timers) exactly as they were, as well as the drop-downs and the
    buttons. *)
Theorem updateTenantAndUserDisplay_harmless :
  forall (token : string) (w : World) (sc : Script),
    log_ready w ->
    let display := run (updateTenantAndUserDisplay token w) sc in
    (forall e, outcome display <> Throw e) /\
    mgr (final display) = mgr w /\
    browser (final display) = browser w /\
    Forall (fun i => isFetch i = true) (issued display) /\
    frame w (final display).
Proof.
  intros token w sc Hready display.
  destruct (obeys_run _ _ (updateTenantAndUserDisplay token w) sc
              (updateTenantAndUserDisplay_display (mgr w) (browser w) token w
                 (conj eq_refl eq_refl))) as ((Hm & Hb) & Hq).
  assert (Hf : frame w (final display)).
  { apply run_final_frame. apply updateTenantAndUserDisplay_keeps. }
  split; [|split; [exact Hm|split; [exact Hb|split; [exact Hq|exact Hf]]]].
  intros e. unfold display, updateTenantAndUserDisplay. rewrite run_tryCatch.
  match goal with |- context [orCatch (run (?a w) sc) _] =>
    assert (Fa : frame w (final (run (a w) sc)))
      by (apply run_final_frame; keeps_auto);
    destruct (run (a w) sc) as [o x sc1 t1]
  end.
  cbn [final] in Fa.
  assert (Rx : log_ready x) by (eapply frame_log_ready; eauto).
  unfold orCatch. cbn [outcome final rest issued].
  destruct o as [[] | e' |]; cbn [outcome]; try discriminate.
  rewrite run_bind. rewrite (debugLog_ready _ _ Rx).
  unfold andThen. cbn [run outcome final rest issued].
  unfold updateTenantDisplayFromToken.
  apply (tryCatch_debugLog_safe _
           (fun error => "Failed to update tenant display from token: " ++ message error)
           x).
  - keeps_auto.
  - apply debugged_frame.
  - exact Rx.
Qed.

(** ** Failures of the network and of the store *)

(** X26: in a popup whose elements are bound and with a token in memory, a
    [makeApiCall] whose request fails on the network throws that failure
    after the one request: it does not retry, renews nothing, opens no
    window, and leaves the manager and the browser state as they were. *)
Theorem makeApiCall_network_failure :
  forall (w : World) (url method : string) (body : option Json) (sc : Script)
         (e : JsError) (rs : list FetchReply),
    log_ready w ->
    JsString.truthy (accessToken (mgr w)) = true ->
    fetchReplies sc = FetchFailed e :: rs ->
    let call := run (makeApiCall url method body w) sc in
    outcome call = Throw e /\
    issued call = [IssuedFetch (apiRequest url method body (accessToken (mgr w)))] /\
    rest call = {| fetchReplies := rs; authReplies := authReplies sc |} /\
    mgr (final call) = mgr w /\
    browser (final call) = browser w.
Proof.
  intros w url method body sc e rs Hready Htok Hsc call.
  destruct (makeApiCall_suspends w url method body Hready Htok) as (k & E).
  assert (K : k (FetchFailed e) (debugged ("Making " ++ method ++ " request to: " ++ url) w) =
              Done (Throw e) (debugged ("Making " ++ method ++ " request to: " ++ url) w)).
  { revert E. unfold makeApiCall.
    step_over. rewrite Htok. cbv beta iota delta [negb].
    step_over. unfold bind at 1, fetch. cbn [bindStep].
    intros [= <-]. reflexivity. }
  unfold call. rewrite E. cbn [run]. rewrite Hsc. rewrite K.
  unfold sent. cbn [run outcome final rest issued]. repeat split.
Qed.

(** X27: in a popup whose elements are bound, when the write to the store
    fails, [cacheToken] still returns normally: the failure is only a debug
    line.  The manager and the browser state, with what the store held
    before, are as they were. *)
Theorem cacheToken_write_failure :
  forall (token : string) (expiresInSeconds : option Z) (w : World) (msg : string),
    log_ready w ->
    storage_lastError (browser w) = Some msg ->
    exists w',
      cacheToken token expiresInSeconds w = Done (Ok tt) w' /\
      mgr w' = mgr w /\
      browser w' = browser w.
Proof.
  intros token e w msg Hready Herr. unfold cacheToken.
  step_over.
  destruct (decodeJwtToken_returns token w Hready) as (w1 & E1 & F1 & M1 & B1 & _).
  change (bind (decodeJwtToken token) ?f w) with (bindStep (decodeJwtToken token w) f).
  rewrite E1. cbn [bindStep].
  assert (R1 : log_ready w1) by (eapply frame_log_ready; eauto).
  step_over. step_over.
  unfold settle. step_over.
  change (storage_lastError (browser (debugged ?m w1))) with (storage_lastError (browser w1)).
  rewrite B1, Herr.
  step_over. cbn [catchStep bindStep ret].
  eexists. split; [reflexivity|].
  split; [exact M1|exact B1].
Qed.

(** ** The further properties on the sample popup *)

Lemma sample_ready : log_ready Sample.fresh.
Proof. intros _. discriminate. Defined.

(** X1 on the sample popup: a token cached for an hour is read back a
    second later and is no longer read two minutes before the hour is
    over. *)
Lemma cacheToken_getCachedToken_round_trip_witness :
  (exists stored,
      cacheToken "tok1" (Some 3600%Z) Sample.fresh = Done (Ok tt) stored /\
      exists w', getCachedToken (atTime 1700000001000 stored) = Done (Ok (Some "tok1")) w') /\
  (exists stored,
      cacheToken "tok1" (Some 3600%Z) Sample.fresh = Done (Ok tt) stored /\
      exists w', getCachedToken (atTime 1700003480000 stored) = Done (Ok None) w').
Proof.
  split.
  - destruct (cacheToken_getCachedToken_round_trip "tok1" (Some 3600%Z) Sample.fresh
                1700000001000%Z) as (stored & E & Hit & _).
    + intros _. discriminate.
    + reflexivity.
    + discriminate.
    + vm_compute. repeat split.
    + vm_compute. repeat split.
    + exists stored. split; [exact E|]. apply Hit. vm_compute. reflexivity.
  - destruct (cacheToken_getCachedToken_round_trip "tok1" (Some 3600%Z) Sample.fresh
                1700003480000%Z) as (stored & E & _ & Stale).
    + intros _. discriminate.
    + reflexivity.
    + discriminate.
    + vm_compute. repeat split.
    + vm_compute. repeat split.
    + exists stored. split; [exact E|]. apply Stale. vm_compute. discriminate.
Defined.


(** X4 on a redirect that carries a token and no lifetime. *)
Lemma extractTokenFromUrl_outcomes_witness :
  exists info w',
    extractTokenFromUrl Scene.answer "abc" Sample.fresh = Done (Ok info) w' /\
    ti_accessToken info = "tok1" /\ ti_expiresIn info = Some 3600%Z.
Proof.
  destruct (extractTokenFromUrl_outcomes Scene.answer
              [("state", "abc"); ("access_token", "tok1")] "abc" Sample.fresh)
    as (_ & _ & H).
  - intros _. discriminate.
  - reflexivity.
  - reflexivity.
  - destruct (H eq_refl "tok1" eq_refl) as (info & w' & E & T & X & _).
    + discriminate.
    + exists info, w'. split; [exact E|]. split; [exact T|]. apply X. reflexivity.
Defined.

(** X5 on the sample popup: a 403 that names a role. *)
Lemma makeApiCall_refused_once_witness :
  outcome (run (makeApiCall "https://management.azure.com/subscriptions" "GET" None
                  Sample.fresh)
               (Sample.script [Sample.respond 403 "role missing"] [])) =
    Throw (mkError ("Insufficient permissions to perform this operation." ++
                    " You may need additional Azure RBAC permissions.")) /\
  List.length
    (issued (run (makeApiCall "https://management.azure.com/subscriptions" "GET" None
                    Sample.fresh)
                 (Sample.script [Sample.respond 403 "role missing"] []))) = 1%nat.
Proof.
  destruct (makeApiCall_refused_once Sample.fresh
              "https://management.azure.com/subscriptions" "GET" None
              (Sample.script [Sample.respond 403 "role missing"] []))
    as (_ & H).
  - intros _. discriminate.
  - destruct (H eq_refl {| status := 403; statusText := "-"; text := "role missing" |} [])
      as (Ho & Hi & _).
    + reflexivity.
    + reflexivity.
    + discriminate.
    + split; [exact Ho|]. rewrite Hi. reflexivity.
Defined.

(** X6 on the sample popup: the list of subscriptions. *)
Lemma makeApiCall_succeeds_witness :
  outcome (run (makeApiCall "https://management.azure.com/subscriptions" "GET" None
                  Sample.fresh)
               (Sample.script [Sample.respond 200 "subs"] [])) =
    Ok Sample.subscriptionsJson.
Proof.
  destruct (makeApiCall_succeeds Sample.fresh
              "https://management.azure.com/subscriptions" "GET" None
              (Sample.script [Sample.respond 200 "subs"] [])
              {| status := 200; statusText := "-"; text := "subs" |} [])
    as (_ & _ & H).
  - intros _. discriminate.
  - reflexivity.
  - reflexivity.
  - reflexivity.
  - destruct (H eq_refl) as (_ & Hj & _).
    apply Hj; [discriminate | reflexivity].
Defined.

(** X7 on the sample popup: a subscription without the provider. *)
Lemma getCapacitiesForSubscription_result_witness :
  outcome (run (getCapacitiesForSubscription "s1" Sample.fresh)
               (Sample.script [Sample.respond 404 "not found"] [])) = Ok [].
Proof.
  destruct (getCapacitiesForSubscription_result "s1" Sample.fresh
              (Sample.script [Sample.respond 404 "not found"] [])) as (_ & H).
  destruct (H sample_ready eq_refl
              {| status := 404; statusText := "-"; text := "not found" |} [] eq_refl eq_refl)
    as (Ho & _).
  exact Ho.
Defined.

(** X8 on the sample popup: a token that Azure accepts. *)
Lemma validateToken_never_throws_witness :
  outcome (run (validateToken "tok0" Sample.fresh)
               (Sample.script [Sample.respond 200 "subs"] [])) = Ok true.
Proof.
  destruct (validateToken_never_throws "tok0" Sample.fresh
              (Sample.script [Sample.respond 200 "subs"] []))
    as (_ & _ & H & _).
  - intros _. discriminate.
  - apply (H {| status := 200; statusText := "-"; text := "subs" |} []). reflexivity.
Defined.

(** X9 on the sample list: the option of B designates B. *)
Lemma populateCapacityDropdown_options_witness :
  exists w',
    populateCapacityDropdown
      (upd_mgr (set_capacities [Sample.capA; Sample.capB; Sample.capC]) Sample.fresh) =
      Done (Ok tt) w' /\
    selectedCapacity (choose "1" w') = Some Sample.capB.
Proof.
  destruct (populateCapacityDropdown_options
              (upd_mgr (set_capacities [Sample.capA; Sample.capB; Sample.capC]) Sample.fresh))
    as (w' & E & _ & _ & _ & _ & H).
  - intros _. discriminate.
  - exists Sample.placeholder, []. repeat split.
  - exists w'. split; [exact E|].
    destruct (H 1%nat Sample.capB eq_refl) as (_ & Hs). exact Hs.
Defined.

(** X10 on the sample popup: B is Paused. *)
Lemma onCapacitySelectionChange_buttons_witness :
  exists w',
    onCapacitySelectionChange Sample.loaded = Done (Ok tt) w' /\
    startButton_disabled (dom w') = false /\
    stopButton_disabled (dom w') = true.
Proof.
  destruct (onCapacitySelectionChange_buttons Sample.loaded) as (H & _).
  - intros _. discriminate.
  - destruct (H Sample.capB) as (w' & E & H1 & H2 & _).
    + vm_compute. reflexivity.
    + exists w'. split; [exact E|]. split; [exact H1|exact H2].
Defined.

(** X11 on the sample popup after the choice of B. *)
Lemma onSkuSelectionChange_guard_witness :
  exists w',
    onSkuSelectionChange Sample.chosen = Done (Ok tt) w' /\
    updateSkuButton_disabled (dom w') = true.
Proof.
  destruct (onSkuSelectionChange_guard Sample.chosen Sample.capB) as (w' & E & H & _).
  - intros _. vm_compute. discriminate.
  - vm_compute. reflexivity.
  - exists w'. split; [exact E|]. apply H. left. vm_compute. reflexivity.
Defined.

(** X12 on the sample popup with F8 picked for B, which is Paused. *)
Lemma updateCapacitySku_confirmation_witness :
  exists w' k,
    updateCapacitySku Scene.resizing =
      AwaitFetch (resizeRequest Sample.capB "F8" Scene.resizing) w' k /\
    sel_disabled (skuSelect (dom w')) = true.
Proof.
  destruct (updateCapacitySku_confirmation Scene.resizing Sample.capB) as (_ & H).
  - intros _. vm_compute. discriminate.
  - reflexivity.
  - vm_compute. reflexivity.
  - vm_compute. discriminate.
  - vm_compute. discriminate.
  - vm_compute. reflexivity.
  - destruct H as (w' & k & E & _ & _ & _ & _ & D).
    + left. vm_compute. discriminate.
    + exists w', k. split; [exact E|exact D].
Defined.

(** X13 on the sample popup: a start of B that Azure accepts. *)
Lemma performCapacityOperation_outcomes_witness :
  outcome (run (performCapacityOperation "resume" "Starting" Sample.loaded)
               (Sample.script [Sample.respond 202 ""] [])) = Ok tt /\
  timers (browser (final (run (performCapacityOperation "resume" "Starting" Sample.loaded)
                              (Sample.script [Sample.respond 202 ""] [])))) =
    [(2000%Z, RefreshAfterOperation)].
Proof.
  destruct (performCapacityOperation_outcomes Sample.loaded Sample.capB "resume" "Starting"
              (Sample.script [Sample.respond 202 ""] [])
              {| status := 202; statusText := "-"; text := "" |} [])
    as (Ho & _ & _ & _ & _ & _ & Ht & _).
  - intros _. discriminate.
  - reflexivity.
  - vm_compute. reflexivity.
  - reflexivity.
  - discriminate.
  - split; [exact Ho|]. apply Ht; [right; reflexivity | reflexivity].
Defined.

(** X15 on the sample popup while it loads. *)
Lemma refreshCapacities_guarded_witness :
  refreshCapacities Scene.loading =
    Done (Ok tt) (debugged "Refresh skipped - already loading" Scene.loading).
Proof.
  destruct (refreshCapacities_guarded Scene.loading (Sample.script [] [])) as (_ & H).
  - intros _. discriminate.
  - destruct (H eq_refl) as (Hskip & _). apply Hskip. reflexivity.
Defined.

(** X16 on the sample popup. *)
Lemma refresh_click_while_loading_witness :
  sentSoFar (dispatch ClickRefresh (invoke loadCapacities (Sample.popupOf Sample.fresh))) =
    sentSoFar (invoke loadCapacities (Sample.popupOf Sample.fresh)) /\
  List.length (sentSoFar (invoke loadCapacities (Sample.popupOf Sample.fresh))) = 1%nat.
Proof.
  destruct (refresh_click_while_loading (Sample.popupOf Sample.fresh))
    as (Hs & _ & _ & _ & Hc & _).
  - intros _. discriminate.
  - reflexivity.
  - split; [exact Hc|]. rewrite Hs. reflexivity.
Defined.


(** X18 on the popup that is signed off. *)
Lemma refreshCapacities_signed_out_witness :
  exists rq w' k,
    refreshCapacities Scene.signedOff = AwaitAuth rq w' k /\
    auth_interactive rq = true.
Proof.
  destruct (refreshCapacities_signed_out Scene.signedOff) as (rq & w' & k & E & Hi & _).
  - intros _. discriminate.
  - reflexivity.
  - right. reflexivity.
  - exists rq, w', k. split; [exact E|exact Hi].
Defined.


(** X20 on the sample popup: a background renewal that is refused. *)
Lemma backgroundRefresh_quiet_witness :
  Forall silentOnly
    (issued (run (timerBody (BackgroundTokenRefresh "tok0") Sample.fresh)
                 (Sample.script [] [Sample.denied; Sample.denied]))) /\
  List.length
    (issued (run (timerBody (BackgroundTokenRefresh "tok0") Sample.fresh)
                 (Sample.script [] [Sample.denied; Sample.denied]))) = 2%nat.
Proof.
  destruct (backgroundRefresh_quiet "tok0" Sample.fresh
              (Sample.script [] [Sample.denied; Sample.denied]))
    as (_ & H & _).
  - intros _. discriminate.
  - split; [exact H|]. vm_compute. reflexivity.
Defined.

(** X21 on the popup with a fingerprinted token in the store. *)
Lemma authenticate_from_cache_witness :
  outcome (run (authenticate Scene.fingerprinted)
               (Sample.script [Sample.respond 200 "subs"] [])) = Ok "tok1" /\
  accessToken
    (mgr (final (run (authenticate Scene.fingerprinted)
                     (Sample.script [Sample.respond 200 "subs"] [])))) = Some "tok1".
Proof.
  destruct (authenticate_from_cache Scene.fingerprinted
              (Sample.script [Sample.respond 200 "subs"] [])
              "tok1" "1700003600000" 1700003600000%Z
              {| cachedAt := 1700000000000; tenantId := None; userPrincipalName := None;
                 tokenHash := generateTokenHash "tok1" |}
              {| status := 200; statusText := "-"; text := "subs" |} [])
    as (Ho & _ & _ & Ht & _).
  - intros _. vm_compute. discriminate.
  - vm_compute. reflexivity.
  - vm_compute. reflexivity.
  - discriminate.
  - discriminate.
  - reflexivity.
  - vm_compute. reflexivity.
  - vm_compute. reflexivity.
  - reflexivity.
  - reflexivity.
  - split; [exact Ho|exact Ht].
Defined.

(** X22 on the sample popup: a resize of B to F8 that Azure accepts. *)
Lemma updateCapacitySku_outcomes_witness :
  outcome (run (updateCapacitySku Scene.resizing)
               (Sample.script [Sample.respond 202 ""] [])) = Ok tt /\
  Select.value
    (skuSelect (dom (final (run (updateCapacitySku Scene.resizing)
                                (Sample.script [Sample.respond 202 ""] []))))) = "F4" /\
  timers (browser (final (run (updateCapacitySku Scene.resizing)
                              (Sample.script [Sample.respond 202 ""] [])))) =
    [(3000%Z, RefreshAfterSkuUpdate)].
Proof.
  destruct (updateCapacitySku_outcomes Scene.resizing Sample.capB
              (Sample.script [Sample.respond 202 ""] [])
              {| status := 202; statusText := "-"; text := "" |} [])
    as (Ho & _ & _ & _ & _ & Hv & _ & Ht & _).
  - intros _. vm_compute. discriminate.
  - reflexivity.
  - vm_compute. reflexivity.
  - vm_compute. discriminate.
  - vm_compute. discriminate.
  - vm_compute. reflexivity.
  - left. vm_compute. discriminate.
  - reflexivity.
  - discriminate.
  - split; [exact Ho|]. split; [exact Hv|].
    apply Ht; [right; reflexivity | reflexivity].
Defined.

(** X23 on the popup that is signed off: the user closes the window. *)
Lemma loadCapacities_sign_in_refused_witness :
  outcome (run (loadCapacities Scene.signedOff) (Sample.script [] [Sample.denied])) = Ok tt /\
  loadingIndicator_display
    (dom (final (run (loadCapacities Scene.signedOff) (Sample.script [] [Sample.denied])))) =
    "none".
Proof.
  destruct (loadCapacities_sign_in_refused Scene.signedOff
              (Sample.script [] [Sample.denied]) Sample.denied []
              (mkError "User interaction required."))
    as (Ho & _ & _ & _ & _ & _ & Hl).
  - intros _. discriminate.
  - reflexivity.
  - right. reflexivity.
  - reflexivity.
  - reflexivity.
  - split; [exact Ho|exact Hl].
Defined.

(** X24 on the popup that is signed off: the provider echoes the state and
    grants [tok9]. *)
Lemma authenticate_sign_in_witness :
  outcome (run (authenticate Scene.signedOff)
               (Sample.script [] [Sample.granted "01020304" "tok9"])) = Ok "tok9" /\
  st_accessToken
    (storage (browser (final (run (authenticate Scene.signedOff)
                                  (Sample.script [] [Sample.granted "01020304" "tok9"]))))) =
    Some "tok9" /\
  exists w',
    getCachedToken
      (atTime 1700000001000
         (final (run (authenticate Scene.signedOff)
                     (Sample.script [] [Sample.granted "01020304" "tok9"])))) =
      Done (Ok (Some "tok9")) w'.
Proof.
  destruct (authenticate_sign_in Scene.signedOff
              (Sample.script [] [Sample.granted "01020304" "tok9"])
              (Sample.granted "01020304" "tok9") []
              {| href := "https://ext.chromiumapp.org/#";
                 fragmentParams := Some [("state", "01020304"); ("access_token", "tok9");
                                         ("expires_in", "3599")] |}
              [("state", "01020304"); ("access_token", "tok9"); ("expires_in", "3599")]
              "tok9")
    as (Ho & _ & _ & _ & Hs & _ & _ & Hc).
  - intros _. discriminate.
  - reflexivity.
  - reflexivity.
  - reflexivity.
  - reflexivity.
  - reflexivity.
  - reflexivity.
  - vm_compute. reflexivity.
  - reflexivity.
  - reflexivity.
  - discriminate.
  - vm_compute. repeat split.
  - split; [exact Ho|]. split; [exact Hs|]. apply Hc.
    + vm_compute. repeat split.
    + vm_compute. reflexivity.
Defined.

(** X25 on the sample popup: Graph answers with an empty object. *)
Lemma updateTenantAndUserDisplay_harmless_witness :
  mgr (final (run (updateTenantAndUserDisplay Sample.tokenA Sample.fresh)
                  (Sample.script [Sample.respond 200 "{}"] []))) = mgr Sample.fresh /\
  Forall (fun i => isFetch i = true)
    (issued (run (updateTenantAndUserDisplay Sample.tokenA Sample.fresh)
                 (Sample.script [Sample.respond 200 "{}"] []))).
Proof.
  destruct (updateTenantAndUserDisplay_harmless Sample.tokenA Sample.fresh
              (Sample.script [Sample.respond 200 "{}"] []))
    as (_ & Hm & _ & Hq & _).
  - intros _. discriminate.
  - split; [exact Hm|exact Hq].
Defined.

(** X26 on the sample popup: the network is down. *)
Lemma makeApiCall_network_failure_witness :
  outcome (run (makeApiCall "https://management.azure.com/subscriptions" "GET" None
                  Sample.fresh)
               (Sample.script [FetchFailed (mkError "Failed to fetch")] [])) =
    Throw (mkError "Failed to fetch").
Proof.
  destruct (makeApiCall_network_failure Sample.fresh
              "https://management.azure.com/subscriptions" "GET" None
              (Sample.script [FetchFailed (mkError "Failed to fetch")] [])
              (mkError "Failed to fetch") [])
    as (Ho & _).
  - intros _. discriminate.
  - reflexivity.
  - reflexivity.
  - exact Ho.
Defined.

(** X27 on the sample popup with a store that fails. *)
Lemma cacheToken_write_failure_witness :
  exists w',
    cacheToken "tok1" (Some 3600%Z) Scene.unwritable = Done (Ok tt) w' /\
    browser w' = browser Scene.unwritable.
Proof.
  destruct (cacheToken_write_failure "tok1" (Some 3600%Z) Scene.unwritable
              "QUOTA_BYTES quota exceeded")
    as (w' & E & _ & Hb).
  - intros _. discriminate.
  - reflexivity.
  - exists w'. split; [exact E|exact Hb].
Defined.
